(** * WebGL-Project: the rendering and animation core of [Files/js/app.js]

    A shallow embedding of the scene assembly, the matrix pseudo-stack, the
    uniform binder and the frame driver of [ProjectFourModule], followed by
    the properties of the design document that are settled against it.

    Modelling conventions
    - A number the program only stores and hands on, as every literal of
      the scene data is, is the rational its literal denotes ([Qc]).  The
      two numbers the program computes by floating-point arithmetic, the
      zoom factor and a colour channel times 255, are binary64 floats
      ([float], the kernel's IEEE 754 numbers), NaN included.  The frame
      counter and the per-frame rotation rates, which the program only ever
      holds as integers, are [Z]: adding 1 to the counter is exact in
      binary64 as long as it stays below [2^53].  Angles stay symbolic:
      [DegToRad d] stands for the source expression [d / 180 * Math.PI].
    - The glMatrix library ([mat4], [mat3], [vec4]) and the trackball rotator
      are external; their results are kept as symbolic terms that record
      which function was applied to which arguments, in which order.
    - Matrices are JavaScript objects: they live in a heap of cells and the
      program holds references to them, so that in-place mutation and
      [mat4.clone] can be told apart.
    - The WebGL context is a log of the calls issued, in chronological
      order, together with the current ELEMENT_ARRAY_BUFFER binding that
      [drawElements] reads.
    - [window.alert], [window.requestAnimationFrame] and the sidebar
      checkboxes are the host; they are a list of messages, a count of
      pending callbacks and a table of checked flags. *)

From Stdlib Require Import ZArith QArith Qcanon String List Lia.
From Corelib Require Import PrimFloat SpecFloat FloatOps.
From stdpp Require Import base list strings.
Import ListNotations.
Open Scope Z_scope.
Open Scope string_scope.
Open Scope list_scope.

(** ** JavaScript values *)

Inductive JsVal :=
| JUndefined
| JNum (q : Qc)
| JArr (a : list Qc).

(** An object literal: own properties in insertion order, which is the
    order [for (key in obj)] enumerates them in. *)
Definition JsObject := list (string * JsVal).

Fixpoint js_get (o : JsObject) (k : string) : JsVal :=
  match o with
  | [] => JUndefined
  | (k', v) :: o' => if String.eqb k' k then v else js_get o' k
  end.

Fixpoint js_set (o : JsObject) (k : string) (v : JsVal) : JsObject :=
  match o with
  | [] => [(k, v)]
  | (k', v') :: o' =>
      if String.eqb k' k then (k, v) :: o' else (k', v') :: js_set o' k v
  end.

Definition js_keys (o : JsObject) : list string := map fst o.

Definition num (z : Z) : Qc := Q2Qc (inject_Z z).
Definition frac (n : Z) (d : positive) : Qc := Q2Qc (n # d).

(** [Array.prototype.slice(0, n)] for a non-negative [n]. *)
Definition slice0 (n : nat) (a : list Qc) : list Qc := firstn n a.

(** ToInt32 of a rational: truncate towards zero, wrap to 32 bits. *)
Definition toInt32 (q : Qc) : Z :=
  let t := Z.quot (Qnum (this q)) (Zpos (Qden (this q))) in
  let m := t mod 2 ^ 32 in
  if Z.ltb m (2 ^ 31) then m else m - 2 ^ 32.

(** ToNumber followed by ToInt32, as the bitwise operators apply it:
    [undefined] and arrays of two or more elements are NaN, hence [0]. *)
Definition js_toInt32 (v : JsVal) : Z :=
  match v with
  | JNum q => toInt32 q
  | JArr [q] => toInt32 q
  | _ => 0
  end.

(** The binary64 number an integer is converted to, and the one a literal
    of value [q] denotes: the quotient of two integers, rounded once, which
    is the number nearest to [q] when numerator and denominator are below
    [2^53], as they are for every literal of the program. *)
Definition Z2float (z : Z) : float :=
  SF2Prim (binary_normalize prec emax z 0 false).

Definition toDouble (q : Qc) : float :=
  (Z2float (Qnum (this q)) / Z2float (Zpos (Qden (this q))))%float.

(** [Math.sign(paramEvent.wheelDelta)]: the wheel delta is an integer where
    the browser defines it and [undefined] where it does not;
    [Math.sign(undefined)] is NaN. *)
Definition Math_sign (wheelDelta : option Z) : float :=
  match wheelDelta with
  | Some (Zpos _) => 1%float
  | Some Z0 => 0%float
  | Some (Zneg _) => (-1)%float
  | None => nan
  end.

(** ** Symbolic glMatrix terms *)

Inductive Angle := DegToRad (deg : Z).

(** The trackball rotator's view: what [setView] was given, and the drags
    applied since. *)
Inductive View :=
| SetView (viewDistance : Z) (viewpointDirection : list Z)
| Dragged (v : View) (dx dy : Z).

(** [mat4.scale] has two constructors: [Scale] takes a vector of literals of
    the scene data, [ScaleBy] a vector of computed numbers (the zoom
    factor). *)
Inductive Mat4 :=
| ViewMatrix (v : View)
| Perspective
| Scale (a : Mat4) (v : list Qc)
| ScaleBy (a : Mat4) (v : list float)
| Translate (a : Mat4) (v : list Qc)
| Rotate (a : Mat4) (rad : Angle) (axis : list Qc)
| RotateX (a : Mat4) (rad : Angle)
| RotateY (a : Mat4) (rad : Angle)
| RotateZ (a : Mat4) (rad : Angle).

Inductive Mat3 := NormalFromMat4 (a : Mat4).

Inductive Vec4 :=
| Vec4Of (a : list Qc)
| TransformMat4 (a : list Qc) (m : Mat4).

(** The keys of a scene object's [rotate] map. *)
Module Axis.
Inductive t := x | y | z.
End Axis.

(** [mat4[`rotate${key.toUpperCase()}`]]. *)
Definition rotateAxis (key : Axis.t) : Mat4 -> Angle -> Mat4 :=
  match key with
  | Axis.x => RotateX
  | Axis.y => RotateY
  | Axis.z => RotateZ
  end.

(** The keys of a light's [transformations] object, used as [mat4[key]]. *)
Module TransformKey.
Inductive t := translate | scale.
End TransformKey.

Definition mat4_key (key : TransformKey.t) : Mat4 -> list Qc -> Mat4 :=
  match key with
  | TransformKey.translate => Translate
  | TransformKey.scale => Scale
  end.

(** ** Enums *)

Module Utility.
Definition DEBUG_ZOOM_DEGREE : Qc := num 7.
End Utility.

Module Text.
Definition START_BUTTON_ERROR := "Animation is already running.".
Definition STOP_BUTTON_ERROR := "Animation is not currently running.".
End Text.

Module Colors.
Definition WHITE : list Qc := [num 1; num 1; num 1; num 1].
Definition BLACK : list Qc := [num 0; num 0; num 0; num 1].
Definition GRAY : list Qc := [frac 1 10; frac 1 10; frac 1 10; num 1].
Definition CHARCOAL : list Qc := [frac 35 100; frac 35 100; frac 35 100; num 1].
Definition LIGHTGRAY : list Qc := [frac 1 2; frac 1 2; frac 1 2; num 1].
Definition COPPER : list Qc := [frac 1 2; frac 3 10; frac 1 10; num 1].
Definition BROWN : list Qc := [frac 1 2; frac 3 10; frac 1 10; num 1].
Definition GREEN : list Qc := [num 0; frac 8 10; num 0; num 1].
Definition YELLOW : list Qc := [frac 1 2; frac 1 2; num 0; num 1].
Definition GOLD : list Qc := [frac 1 2; frac 1 2; frac 2 10; num 1].
End Colors.

Module DefaultUniforms.
Definition MATERIAL : JsObject :=
    [ ("diffuseColor", JArr Colors.BLACK);
      ("specularColor", JArr Colors.GRAY);
      ("emissiveColor", JArr Colors.BLACK);
      ("specularExponent", JNum (num 16)) ].
Definition LIGHTS : JsObject :=
    [ ("enabled", JNum (num 1));
      ("position", JArr [num 0; num 0; num 1; num 0]);
      ("color", JArr Colors.WHITE);
      ("attenuation", JNum (num 0)) ].
End DefaultUniforms.

Module Textures.
Definition SUN := "textures/sun.jpg".
Definition JUPITER := "textures/jupiter.jpg".
End Textures.

Definition DEBUG : bool := false.

(** ** Scene data *)

Module MaterialUniforms.
Record t := {
    specularColor : option (list Qc);
    specularExponent : option Qc
  }.
End MaterialUniforms.

Module Transformations.
Record t := {
    translate : list Qc;
    scale : list Qc;
    rotate : list (Axis.t * Z)
  }.
End Transformations.

Module SceneObject.
Record t := {
    shapeType : string;
    shapeColor : list Qc;
    isWireFrame : bool;
    texture : option string;
    materialUniforms : MaterialUniforms.t;
    transformations : Transformations.t
  }.
End SceneObject.

Module Light.
Record t := {
    lightText : string;
    shapeType : option string;
    shapeColor : option (list Qc);
    texture : option string;
    materialUniforms : option JsObject;
    lightsUniforms : option JsObject;
    transformations : option (list (TransformKey.t * list Qc));
    elementId : string
  }.

Definition set_lightsUniforms (u : option JsObject) (l : t) : t :=
    {| lightText := lightText l; shapeType := shapeType l;
       shapeColor := shapeColor l; texture := texture l;
       materialUniforms := materialUniforms l; lightsUniforms := u;
       transformations := transformations l; elementId := elementId l |}.
End Light.

Definition WebGLBuffer := nat.

Module Template.
Record t := {
    shapeType : string;
    coordsBuffer : WebGLBuffer;
    normalBuffer : WebGLBuffer;
    texCoordsBuffer : option WebGLBuffer;
    indexBuffer : WebGLBuffer;
    count : nat;
    isAnimated : bool;
    elementId : string
  }.

Definition set_isAnimated (b : bool) (m : t) : t :=
    {| shapeType := shapeType m; coordsBuffer := coordsBuffer m;
       normalBuffer := normalBuffer m; texCoordsBuffer := texCoordsBuffer m;
       indexBuffer := indexBuffer m; count := count m; isAnimated := b;
       elementId := elementId m |}.
End Template.

(** What [handleShapeTemplateRendering] reads of its argument, which is a
    scene object or a light. *)
Module RenderConfig.
Record t := {
    shapeType : string;
    shapeColor : list Qc;
    isWireFrame : bool;
    texture : option string
  }.
End RenderConfig.

Definition mkObject st col wire tex sc se tr sca rot : SceneObject.t :=
  {| SceneObject.shapeType := st; SceneObject.shapeColor := col;
     SceneObject.isWireFrame := wire; SceneObject.texture := tex;
     SceneObject.materialUniforms :=
       {| MaterialUniforms.specularColor := Some sc;
          MaterialUniforms.specularExponent := Some (num se) |};
     SceneObject.transformations :=
       {| Transformations.translate := map num tr;
          Transformations.scale := sca;
          Transformations.rotate := rot |} |}.

Definition debugSceneObjectsData : list SceneObject.t :=
  [ mkObject "Sierpinski" Colors.WHITE false None Colors.WHITE 32
      [0; 0; 0] [frac 1 2; frac 1 2; frac 1 2] [(Axis.x, 5)] ].

Definition sceneObjectsData0 : list SceneObject.t :=
  [ mkObject "Sierpinski" Colors.BROWN false None Colors.WHITE 32
      [0; 0; -1] [frac 1 2; frac 1 2; frac 1 2] [(Axis.x, -9); (Axis.y, 2)];
    mkObject "Icosahedron" Colors.BROWN false None Colors.WHITE 16
      [1; 0; 0] [frac 3 10; frac 3 10; frac 3 10] [(Axis.x, 0); (Axis.y, 5); (Axis.z, -1)];
    mkObject "Dodecahedron" Colors.BROWN false None Colors.WHITE 16
      [-1; 0; 0] [frac 3 10; frac 3 10; frac 3 10] [(Axis.x, -2); (Axis.y, 4); (Axis.z, -2)];
    mkObject "Octahedron" Colors.BROWN false None Colors.GRAY 16
      [0; 0; 1] [frac 3 10; frac 3 10; frac 3 10] [(Axis.x, 0); (Axis.y, 7)];
    mkObject "Pyramid" Colors.GOLD false None Colors.BLACK 16
      [3; 0; -3] [frac 1 2; frac 1 2; frac 1 2] [(Axis.x, -5); (Axis.y, 3)];
    mkObject "Cylinder" Colors.GOLD true None Colors.BLACK 16
      [3; 0; 3] [frac 3 10; frac 2 10; frac 3 10] [(Axis.x, -5); (Axis.y, 5)];
    mkObject "Cube" Colors.GOLD false None Colors.GRAY 32
      [-3; 0; 3] [frac 1 4; frac 1 4; frac 1 4] [(Axis.x, -8); (Axis.y, 5)];
    mkObject "Tetrahedron" Colors.GOLD false None Colors.GRAY 16
      [-3; 0; -3] [frac 3 10; frac 3 10; frac 3 10] [(Axis.x, -2); (Axis.y, 7)];
    mkObject "Sphere" Colors.BROWN false (Some Textures.JUPITER)
      Colors.WHITE 32
      [0; -2; 2] [frac 3 10; frac 3 10; frac 3 10] [(Axis.x, 0); (Axis.y, 5)];
    mkObject "Ring" Colors.BROWN false (Some Textures.SUN) Colors.WHITE 32
      [0; 2; -2] [num 1; num 1; num 1] [(Axis.x, -1); (Axis.y, 2); (Axis.z, 5)] ].

Definition lightSourceData0 : list Light.t :=
  [ {| Light.lightText := "SunLight";
       Light.shapeType := Some "Sphere";
       Light.shapeColor := Some Colors.WHITE;
       Light.texture := Some Textures.SUN;
       Light.materialUniforms := Some [("emissiveColor", JArr Colors.YELLOW)];
       Light.lightsUniforms :=
         Some [ ("enabled", JNum (num 1));
                ("position", JArr [num 0; num 0; num 0; num 1]);
                ("color", JArr Colors.WHITE);
                ("attenuation", JNum (frac 25 100)) ];
       Light.transformations :=
         Some [ (TransformKey.translate, [num 0; num 0; num 0]);
                (TransformKey.scale, [frac 15 100; frac 15 100; frac 15 100]) ];
       Light.elementId := "toggleSunLight" |};
    {| Light.lightText := "ViewpointLight";
       Light.shapeType := None;
       Light.shapeColor := None;
       Light.texture := None;
       Light.materialUniforms := None;
       Light.lightsUniforms :=
         Some [ ("enabled", JNum (num 1));
                ("color", JArr Colors.CHARCOAL) ];
       Light.transformations := None;
       Light.elementId := "toggleViewpointLight" |} ].

(** ** The WebGL context *)

Inductive UniformLocation :=
| u_modelview
| u_projection
| u_normalMatrix
| u_texture
| u_useTexture
| u_material (property : string)
| u_lights (index : nat) (property : string).

Inductive AttribLocation := a_coords_loc | a_normal_loc | a_texCoords_loc.

Inductive Primitive := LINE_LOOP | TRIANGLES.

Inductive BufferTarget := ARRAY_BUFFER | ELEMENT_ARRAY_BUFFER.

Inductive GLCall :=
| ClearColor (c : list Qc)
| Clear
| UniformMatrix4fv (loc : UniformLocation) (m : Mat4)
| UniformMatrix3fv (loc : UniformLocation) (m : Mat3)
| Uniform1i (loc : UniformLocation) (v : JsVal)
| Uniform1f (loc : UniformLocation) (v : JsVal)
| Uniform3f (loc : UniformLocation) (args : list Qc)
| Uniform4f (loc : UniformLocation) (args : list Qc)
| Uniform4fv (loc : UniformLocation) (v : Vec4)
| BindBuffer (target : BufferTarget) (b : WebGLBuffer)
| VertexAttribPointer (loc : AttribLocation) (size : nat)
| EnableVertexAttribArray (loc : AttribLocation)
| DisableVertexAttribArray (loc : AttribLocation)
| BindTexture
| TexImage2D (pixel : list Z)
| DrawElements (mode : Primitive) (count : nat) (indices : option WebGLBuffer).

Module GL.
Record t := {
  calls : list GLCall;
  elementArrayBuffer : option WebGLBuffer
}.
End GL.

(** ** The program's state: the properties of [inaccessible] and the host *)

Definition Loc := nat.

Record App := {
  templates : list (string * Template.t);
  sceneObjectsData : list SceneObject.t;
  lightSourceData : list Light.t;
  isSceneAnimated : bool;
  frameNumber : Z;
  sceneScale : float;
  matrixStack : list Loc;          (* top of the stack first *)
  modelview : option Loc;          (* [None] is [undefined] *)
  heap : list Mat4;
  rotator : View;
  gl : GL.t;
  alerts : list string;            (* window.alert *)
  animationFrameRequests : nat;    (* window.requestAnimationFrame *)
  checkboxes : list (string * bool) (* the <input> elements, by id *)
}.

Definition set_templates v (s : App) : App :=
  {| templates := v; sceneObjectsData := sceneObjectsData s;
     lightSourceData := lightSourceData s; isSceneAnimated := isSceneAnimated s;
     frameNumber := frameNumber s; sceneScale := sceneScale s;
     matrixStack := matrixStack s; modelview := modelview s; heap := heap s;
     rotator := rotator s; gl := gl s; alerts := alerts s;
     animationFrameRequests := animationFrameRequests s;
     checkboxes := checkboxes s |}.

Definition set_lightSourceData v (s : App) : App :=
  {| templates := templates s; sceneObjectsData := sceneObjectsData s;
     lightSourceData := v; isSceneAnimated := isSceneAnimated s;
     frameNumber := frameNumber s; sceneScale := sceneScale s;
     matrixStack := matrixStack s; modelview := modelview s; heap := heap s;
     rotator := rotator s; gl := gl s; alerts := alerts s;
     animationFrameRequests := animationFrameRequests s;
     checkboxes := checkboxes s |}.

Definition set_isSceneAnimated v (s : App) : App :=
  {| templates := templates s; sceneObjectsData := sceneObjectsData s;
     lightSourceData := lightSourceData s; isSceneAnimated := v;
     frameNumber := frameNumber s; sceneScale := sceneScale s;
     matrixStack := matrixStack s; modelview := modelview s; heap := heap s;
     rotator := rotator s; gl := gl s; alerts := alerts s;
     animationFrameRequests := animationFrameRequests s;
     checkboxes := checkboxes s |}.

Definition set_frameNumber v (s : App) : App :=
  {| templates := templates s; sceneObjectsData := sceneObjectsData s;
     lightSourceData := lightSourceData s; isSceneAnimated := isSceneAnimated s;
     frameNumber := v; sceneScale := sceneScale s;
     matrixStack := matrixStack s; modelview := modelview s; heap := heap s;
     rotator := rotator s; gl := gl s; alerts := alerts s;
     animationFrameRequests := animationFrameRequests s;
     checkboxes := checkboxes s |}.

Definition set_sceneScale v (s : App) : App :=
  {| templates := templates s; sceneObjectsData := sceneObjectsData s;
     lightSourceData := lightSourceData s; isSceneAnimated := isSceneAnimated s;
     frameNumber := frameNumber s; sceneScale := v;
     matrixStack := matrixStack s; modelview := modelview s; heap := heap s;
     rotator := rotator s; gl := gl s; alerts := alerts s;
     animationFrameRequests := animationFrameRequests s;
     checkboxes := checkboxes s |}.

Definition set_matrixStack v (s : App) : App :=
  {| templates := templates s; sceneObjectsData := sceneObjectsData s;
     lightSourceData := lightSourceData s; isSceneAnimated := isSceneAnimated s;
     frameNumber := frameNumber s; sceneScale := sceneScale s;
     matrixStack := v; modelview := modelview s; heap := heap s;
     rotator := rotator s; gl := gl s; alerts := alerts s;
     animationFrameRequests := animationFrameRequests s;
     checkboxes := checkboxes s |}.

Definition set_modelview v (s : App) : App :=
  {| templates := templates s; sceneObjectsData := sceneObjectsData s;
     lightSourceData := lightSourceData s; isSceneAnimated := isSceneAnimated s;
     frameNumber := frameNumber s; sceneScale := sceneScale s;
     matrixStack := matrixStack s; modelview := v; heap := heap s;
     rotator := rotator s; gl := gl s; alerts := alerts s;
     animationFrameRequests := animationFrameRequests s;
     checkboxes := checkboxes s |}.

Definition set_heap v (s : App) : App :=
  {| templates := templates s; sceneObjectsData := sceneObjectsData s;
     lightSourceData := lightSourceData s; isSceneAnimated := isSceneAnimated s;
     frameNumber := frameNumber s; sceneScale := sceneScale s;
     matrixStack := matrixStack s; modelview := modelview s; heap := v;
     rotator := rotator s; gl := gl s; alerts := alerts s;
     animationFrameRequests := animationFrameRequests s;
     checkboxes := checkboxes s |}.

Definition set_rotator v (s : App) : App :=
  {| templates := templates s; sceneObjectsData := sceneObjectsData s;
     lightSourceData := lightSourceData s; isSceneAnimated := isSceneAnimated s;
     frameNumber := frameNumber s; sceneScale := sceneScale s;
     matrixStack := matrixStack s; modelview := modelview s; heap := heap s;
     rotator := v; gl := gl s; alerts := alerts s;
     animationFrameRequests := animationFrameRequests s;
     checkboxes := checkboxes s |}.

Definition set_gl v (s : App) : App :=
  {| templates := templates s; sceneObjectsData := sceneObjectsData s;
     lightSourceData := lightSourceData s; isSceneAnimated := isSceneAnimated s;
     frameNumber := frameNumber s; sceneScale := sceneScale s;
     matrixStack := matrixStack s; modelview := modelview s; heap := heap s;
     rotator := rotator s; gl := v; alerts := alerts s;
     animationFrameRequests := animationFrameRequests s;
     checkboxes := checkboxes s |}.

Definition set_alerts v (s : App) : App :=
  {| templates := templates s; sceneObjectsData := sceneObjectsData s;
     lightSourceData := lightSourceData s; isSceneAnimated := isSceneAnimated s;
     frameNumber := frameNumber s; sceneScale := sceneScale s;
     matrixStack := matrixStack s; modelview := modelview s; heap := heap s;
     rotator := rotator s; gl := gl s; alerts := v;
     animationFrameRequests := animationFrameRequests s;
     checkboxes := checkboxes s |}.

Definition set_animationFrameRequests v (s : App) : App :=
  {| templates := templates s; sceneObjectsData := sceneObjectsData s;
     lightSourceData := lightSourceData s; isSceneAnimated := isSceneAnimated s;
     frameNumber := frameNumber s; sceneScale := sceneScale s;
     matrixStack := matrixStack s; modelview := modelview s; heap := heap s;
     rotator := rotator s; gl := gl s; alerts := alerts s;
     animationFrameRequests := v;
     checkboxes := checkboxes s |}.

Definition set_checkboxes v (s : App) : App :=
  {| templates := templates s; sceneObjectsData := sceneObjectsData s;
     lightSourceData := lightSourceData s; isSceneAnimated := isSceneAnimated s;
     frameNumber := frameNumber s; sceneScale := sceneScale s;
     matrixStack := matrixStack s; modelview := modelview s; heap := heap s;
     rotator := rotator s; gl := gl s; alerts := alerts s;
     animationFrameRequests := animationFrameRequests s;
     checkboxes := v |}.

(** ** Computations: state passing, with uncaught exceptions

    A thrown exception ends the handler that was running; the state it
    leaves behind is kept, since the page lives on. *)

Inductive JsError := TypeError (what : string).

Inductive Res (A : Type) :=
| Ok (a : A) (s : App)
| Throw (e : JsError) (s : App).
Arguments Ok {A} a s.
Arguments Throw {A} e s.

Definition M (A : Type) := App -> Res A.

Definition ret {A} (a : A) : M A := fun s => Ok a s.

Definition bind {A B} (c : M A) (k : A -> M B) : M B :=
  fun s => match c s with
           | Ok a s' => k a s'
           | Throw e s' => Throw e s'
           end.

Definition throw {A} (e : JsError) : M A := fun s => Throw e s.

Definition modify (f : App -> App) : M unit := fun s => Ok tt (f s).

#[global] Instance M_ret : MRet M := @ret.
#[global] Instance M_bind : MBind M := fun A B k c => bind c k.

(** [for (...) { body }] over the elements of an array, in order. *)
Fixpoint forEach {A} (body : A -> M unit) (l : list A) : M unit :=
  match l with
  | [] => ret tt
  | a :: l' => body a ;; forEach body l'
  end.

(** The state a computation ends in, whether it returned or threw. *)
Definition final {A} (r : Res A) : App :=
  match r with
  | Ok _ s => s
  | Throw _ s => s
  end.

Definition returns {A} (r : Res A) : bool :=
  match r with
  | Ok _ _ => true
  | Throw _ _ => false
  end.

(** ** Utility functions: the matrix pseudo-stack *)

(** The matrix [this.modelview] refers to, if it refers to one. *)
Definition current (s : App) : option Mat4 :=
  match modelview s with
  | Some l => heap s !! l
  | None => None
  end.

(** [mat4.clone(a)]: a fresh cell holding a copy; reading [a[0]] of
    [undefined] throws. *)
Definition mat4_clone (a : option Loc) : M Loc :=
  fun s =>
    match a with
    | Some l =>
        match heap s !! l with
        | Some m => Ok (length (heap s)) (set_heap (heap s ++ [m]) s)
        | None => Throw (TypeError "mat4.clone") s
        end
    | None => Throw (TypeError "mat4.clone") s
    end.

(** [this.matrixStack.push(mat4.clone(this.modelview))] *)
Definition pushMatrix : M unit :=
  fun s =>
    (c ← mat4_clone (modelview s);
     modify (fun s => set_matrixStack (c :: matrixStack s) s)) s.

(** [this.modelview = this.matrixStack.pop()]: [pop] of an empty array
    returns [undefined] and throws nothing. *)
Definition popMatrix : M unit :=
  fun s =>
    match matrixStack s with
    | top :: rest => Ok tt (set_modelview (Some top) (set_matrixStack rest s))
    | [] => Ok tt (set_modelview None s)
    end.

(** [mat4.f(this.modelview, this.modelview, ...)]: the cell
    [this.modelview] refers to is overwritten in place. *)
Definition mat4_inplace (f : Mat4 -> Mat4) : M unit :=
  fun s =>
    match modelview s with
    | Some l =>
        match heap s !! l with
        | Some m => Ok tt (set_heap (<[l := f m]> (heap s)) s)
        | None => Throw (TypeError "mat4") s
        end
    | None => Throw (TypeError "mat4") s
    end.

(** [convertColorToUint8Array]: each channel times 255, a binary64
    product, stored in a [Uint8Array]: NaN and the infinities become 0,
    any other number is truncated towards zero and taken modulo 256. *)
Definition toUint8 (x : float) : Z :=
  match Prim2SF x with
  | S754_finite sign m e =>
      let t := if Z.leb 0 e then Zpos m * 2 ^ e else Zpos m / 2 ^ (- e) in
      (if sign then - t else t) mod 256
  | _ => 0
  end.

Definition convertColorToUint8Array (paramColorArray : list Qc) : list Z :=
  map (fun c => toUint8 (toDouble c * 255)%float) paramColorArray.

(** [obj[key]] on a table of objects: [None] is [undefined]. *)
Fixpoint prop {A} (o : list (string * A)) (k : string) : option A :=
  match o with
  | [] => None
  | (k', v) :: o' => if String.eqb k' k then Some v else prop o' k
  end.

(** Mutation of the object [obj[key]] refers to. *)
Fixpoint alter_prop {A} (f : A -> A) (k : string) (o : list (string * A))
  : list (string * A) :=
  match o with
  | [] => []
  | (k', v) :: o' =>
      if String.eqb k' k then (k', f v) :: o' else (k', v) :: alter_prop f k o'
  end.

(** ** The WebGL calls the program issues *)

(** A call is logged; binding a buffer to ELEMENT_ARRAY_BUFFER also makes
    it the source of indices for the draws that follow. *)
Definition gl_exec (c : GLCall) (g : GL.t) : GL.t :=
  {| GL.calls := GL.calls g ++ [c];
     GL.elementArrayBuffer :=
       match c with
       | BindBuffer ELEMENT_ARRAY_BUFFER b => Some b
       | _ => GL.elementArrayBuffer g
       end |}.

Definition glCall (c : GLCall) : M unit :=
  modify (fun s => set_gl (gl_exec c (gl s)) s).

(** [gl.uniform3f(location, ...v)] and [gl.uniform4f(location, ...v)]: the
    array is spread into the arguments; the call reads three (four)
    numbers and, as every Web IDL operation does, ignores the arguments
    past its last parameter.  The arrays the program binds this way are
    the colours and positions of the scene data, of four numbers each. *)
Definition uniform3f (loc : UniformLocation) (v : list Qc) : GLCall :=
  Uniform3f loc (firstn 3 v).

Definition uniform4f (loc : UniformLocation) (v : list Qc) : GLCall :=
  Uniform4f loc (firstn 4 v).

Definition gl_bindBuffer (target : BufferTarget) (b : WebGLBuffer) : M unit :=
  glCall (BindBuffer target b).

Definition gl_drawElements (mode : Primitive) (count : nat) : M unit :=
  fun s => glCall (DrawElements mode count (GL.elementArrayBuffer (gl s))) s.

(** Reading [this.modelview] where a matrix is required. *)
Definition readModelview : M Mat4 :=
  fun s =>
    match current s with
    | Some m => Ok m s
    | None => Throw (TypeError "modelview") s
    end.

(** ** Handler functions used by the assembly *)

Definition handleLightPositioning (paramUniformLocation : UniformLocation)
    (paramLightLocation : JsVal) : M unit :=
  match paramLightLocation with
  | JUndefined => throw (TypeError "vec4.transformMat4")
  | JNum _ =>
      m ← readModelview;
      glCall (Uniform4fv paramUniformLocation (TransformMat4 [] m))
  | JArr a =>
      m ← readModelview;
      glCall (Uniform4fv paramUniformLocation (TransformMat4 a m))
  end.

Definition handleBufferBinding (paramLocation : AttribLocation)
    (paramBuffer : WebGLBuffer) (paramSize : nat) : M unit :=
  gl_bindBuffer ARRAY_BUFFER paramBuffer;;
  glCall (VertexAttribPointer paramLocation paramSize);;
  glCall (EnableVertexAttribArray paramLocation).

(** The synchronous part: the temporary colour texture.  The texture
    object [gl.createTexture] returns, a new one on every call, is not
    told apart from the others, and the [Image] whose [onload] callback
    runs later, outside any render pass, is left out. *)
Definition handleTextureLoading (paramAddress : string)
    (paramColorTexture : list Qc) : M unit :=
  glCall BindTexture;;
  glCall (TexImage2D (convertColorToUint8Array paramColorTexture)).

Definition handleShapeTemplateRendering (paramConfig : RenderConfig.t)
  : M unit :=
  fun s =>
    match prop (templates s) (RenderConfig.shapeType paramConfig) with
    | None => Throw (TypeError "model is undefined") s
    | Some model =>
        let primitive :=
          if RenderConfig.isWireFrame paramConfig then LINE_LOOP
          else TRIANGLES in
        (handleBufferBinding a_coords_loc (Template.coordsBuffer model) 3;;
         handleBufferBinding a_normal_loc (Template.normalBuffer model) 3;;
         match Template.texCoordsBuffer model with
         | Some b => handleBufferBinding a_texCoords_loc b 2
         | None => glCall (DisableVertexAttribArray a_texCoords_loc)
         end;;
         match RenderConfig.texture paramConfig with
         | Some address =>
             glCall (Uniform1i u_useTexture (JNum (num 1)));;
             handleTextureLoading address Colors.WHITE
         | None =>
             glCall (Uniform1i u_useTexture (JNum (num 0)));;
             glCall (Uniform4fv (u_material "diffuseColor")
                       (Vec4Of (RenderConfig.shapeColor paramConfig)))
         end;;
         m ← readModelview;
         glCall (UniformMatrix4fv u_modelview m);;
         glCall (UniformMatrix3fv u_normalMatrix (NormalFromMat4 m));;
         gl_bindBuffer ELEMENT_ARRAY_BUFFER (Template.indexBuffer model);;
         gl_drawElements primitive (Template.count model);;
         glCall (DisableVertexAttribArray a_coords_loc);;
         glCall (DisableVertexAttribArray a_normal_loc);;
         glCall (DisableVertexAttribArray a_texCoords_loc)) s
    end.

Definition handleDefinitionOfUniform (paramDataObject : JsObject)
    (paramProperty : string) (paramCounter : option nat) : M unit :=
  let value := js_get paramDataObject paramProperty in
  match paramCounter with
  | Some i =>
      match value with
      | JArr a =>
          if String.eqb paramProperty "position" then
            glCall (uniform4f (u_lights i "position") a)
          else
            (* Drop last Color element *)
            glCall (uniform3f (u_lights i paramProperty) (slice0 3 a))
      | _ =>
          if String.eqb paramProperty "enabled" then
            glCall (Uniform1i (u_lights i "enabled") value)
          else
            glCall (Uniform1f (u_lights i paramProperty) value)
      end
  | None =>
      match value with
      | JArr a =>
          if String.eqb paramProperty "diffuseColor" then
            glCall (Uniform4fv (u_material "diffuseColor") (Vec4Of a))
          else
            glCall (uniform3f (u_material paramProperty)
                      (slice0 (length a - 1) a))
      | _ => glCall (Uniform1f (u_material paramProperty) value)
      end
  end.

(** The uniform locations are symbolic here, so acquiring them leaves
    nothing to do but setting the defaults. *)
Definition handleSettingOfDefaultUniforms (paramType : string)
    (paramCounter : option nat) : M unit :=
  let defaults :=
    if String.eqb paramType "Material" then DefaultUniforms.MATERIAL
    else DefaultUniforms.LIGHTS in
  forEach (fun property =>
             handleDefinitionOfUniform defaults property paramCounter)
          (js_keys defaults).

(** ** Assembly functions *)

Definition lightConfig (st : string) (sc : list Qc) (light : Light.t)
  : RenderConfig.t :=
  {| RenderConfig.shapeType := st;
     RenderConfig.shapeColor := sc;
     RenderConfig.isWireFrame := false;
     RenderConfig.texture := Light.texture light |}.

Definition objectConfig (o : SceneObject.t) : RenderConfig.t :=
  {| RenderConfig.shapeType := SceneObject.shapeType o;
     RenderConfig.shapeColor := SceneObject.shapeColor o;
     RenderConfig.isWireFrame := SceneObject.isWireFrame o;
     RenderConfig.texture := SceneObject.texture o |}.

(** One turn of the loop of [assembleLights], for the light of index [i]. *)
Definition assembleLight (i : nat) (light : Light.t) : M unit :=
  pushMatrix;;
  (* Apply custom lights uniforms if they exist *)
  match Light.lightsUniforms light with
  | Some lu =>
      forEach (fun key => handleDefinitionOfUniform lu key (Some i))
              (js_keys lu)
  | None => ret tt
  end;;
  (* If the light is physically in the scene, configure size and placement *)
  match Light.transformations light with
  | Some tr =>
      forEach (fun kv => mat4_inplace (fun m => mat4_key (fst kv) m (snd kv)))
              tr
  | None => ret tt
  end;;
  (* Emissive color is set herein if applicable *)
  match Light.materialUniforms light with
  | Some mu =>
      forEach (fun key => handleDefinitionOfUniform mu key None) (js_keys mu)
  | None => ret tt
  end;;
  (* Only applicable to lights in the scene (not viewpoint/global lights) *)
  match Light.shapeType light, Light.shapeColor light with
  | Some st, Some sc =>
      match Light.lightsUniforms light with
      | Some lu =>
          handleLightPositioning (u_lights i "position") (js_get lu "position")
      | None => throw (TypeError "light.lightsUniforms")
      end;;
      handleShapeTemplateRendering (lightConfig st sc light)
  | _, _ => ret tt
  end;;
  (* Reset material uniforms, specifically emissiveColor *)
  match Light.materialUniforms light with
  | Some mu =>
      forEach (fun key =>
                 handleDefinitionOfUniform DefaultUniforms.MATERIAL key None)
              (js_keys mu)
  | None => ret tt
  end;;
  popMatrix.

(** [for (let i = 0; i < array.length; i++)], counting from [i]. *)
Fixpoint forIndexed {A} (body : nat -> A -> M unit) (i : nat) (l : list A)
  : M unit :=
  match l with
  | [] => ret tt
  | a :: l' => body i a;; forIndexed body (S i) l'
  end.

Definition assembleLights : M unit :=
  fun s => forIndexed assembleLight 0 (lightSourceData s) s.

(** One turn of the loop of [assembleScene]. *)
Definition assembleSceneObject (current : SceneObject.t) : M unit :=
  fun s =>
    match prop (templates s) (SceneObject.shapeType current) with
    | None => Throw (TypeError "templates[current.shapeType]") s
    | Some model =>
        (* If user wants all items of this shape hidden, we move on *)
        if negb (Template.isAnimated model) then Ok tt s
        else
          let tr := SceneObject.transformations current in
          let mu := SceneObject.materialUniforms current in
          (pushMatrix;;
           (* Define object's orbit around the sun (y-axis) *)
           (if negb DEBUG then
              mat4_inplace (fun m =>
                Rotate m (DegToRad (- frameNumber s)) [num 0; num 1; num 0])
            else ret tt);;
           (* Move origin to the object's specific location in system *)
           mat4_inplace (fun m => Translate m (Transformations.translate tr));;
           (* Define rotations about the object's own axes *)
           forEach (fun kv =>
                      mat4_inplace (fun m =>
                        rotateAxis (fst kv) m
                          (DegToRad (frameNumber s * snd kv))))
                   (Transformations.rotate tr);;
           (* Object sizing *)
           mat4_inplace (fun m => Scale m (Transformations.scale tr));;
           match MaterialUniforms.specularColor mu with
           | Some c => glCall (uniform3f (u_material "specularColor") c)
           | None => ret tt
           end;;
           match MaterialUniforms.specularExponent mu with
           | Some e =>
               glCall (Uniform1f (u_material "specularExponent") (JNum e))
           | None => ret tt
           end;;
           (* Render the image shape *)
           handleShapeTemplateRendering (objectConfig current);;
           match MaterialUniforms.specularColor mu with
           | Some _ =>
               glCall (uniform3f (u_material "specularColor") Colors.GRAY)
           | None => ret tt
           end;;
           match MaterialUniforms.specularExponent mu with
           | Some _ =>
               glCall (Uniform1f (u_material "specularExponent")
                         (JNum (num 16)))
           | None => ret tt
           end;;
           popMatrix) s
    end.

Definition assembleScene : M unit :=
  fun s =>
    let dataContents :=
      if DEBUG then debugSceneObjectsData else sceneObjectsData s in
    forEach assembleSceneObject dataContents s.

(** ** Main functions *)

(** [this.modelview = this.rotator.getViewMatrix()]: the rotator hands out
    a new array on every call. *)
Definition getViewMatrix : M unit :=
  modify (fun s =>
    set_modelview (Some (length (heap s)))
      (set_heap (heap s ++ [ViewMatrix (rotator s)]) s)).

(** [this.projection] and, in [handleShapeTemplateRendering],
    [this.normalMatrix] are scratch matrices: each is overwritten and
    handed to the uniform call at once, and nothing else reads it.  They
    are no part of the state here; the calls carry their values. *)
Definition render : M unit :=
  glCall (ClearColor Colors.BLACK);;
  glCall Clear;;
  glCall (UniformMatrix4fv u_projection Perspective);;
  getViewMatrix;;
  (if DEBUG then
     mat4_inplace (fun m =>
       Scale m [Utility.DEBUG_ZOOM_DEGREE; Utility.DEBUG_ZOOM_DEGREE;
                Utility.DEBUG_ZOOM_DEGREE])
   else
     fun s =>
       mat4_inplace (fun m =>
         ScaleBy m [sceneScale s; sceneScale s; sceneScale s]) s);;
  (* Build lights and scene objects *)
  assembleLights;;
  assembleScene.

(** ** Handler functions *)

Definition window_alert (message : string) : M unit :=
  modify (fun s => set_alerts (alerts s ++ [message]) s).

(** [window.requestAnimationFrame(this.handleFrame.bind(this))] *)
Definition window_requestAnimationFrame : M unit :=
  modify (fun s =>
    set_animationFrameRequests (S (animationFrameRequests s)) s).

(** [this.frameNumber += 1] is exact as long as the counter is below
    [2^53]; the counter is kept as the integer it then is. *)
Definition handleFrame : M unit :=
  fun s =>
    if isSceneAnimated s then
      (modify (fun s => set_frameNumber (frameNumber s + 1) s);;
       render;;
       window_requestAnimationFrame) s
    else Ok tt s.

Definition handleAnimationStart : M unit :=
  fun s =>
    if negb (isSceneAnimated s) then
      (modify (set_isSceneAnimated true);; handleFrame) s
    else window_alert Text.START_BUTTON_ERROR s.

Definition handleAnimationStop : M unit :=
  fun s =>
    if isSceneAnimated s then modify (set_isSceneAnimated false) s
    else window_alert Text.STOP_BUTTON_ERROR s.

(** [document.getElementById(id).checked = true]; [getElementById]
    returns [null] for an id that is not in the document. *)
Definition checkElement (id : string) : M unit :=
  fun s =>
    match prop (checkboxes s) id with
    | Some _ =>
        Ok tt (set_checkboxes (alter_prop (fun _ => true) id (checkboxes s)) s)
    | None => Throw (TypeError "document.getElementById(...) is null") s
    end.

(** One turn of the loop of [handleReset], for the property [template]. *)
Definition resetTemplate (template : string) : M unit :=
  fun s =>
    match prop (templates s) template with
    | Some model =>
        ((* Check all unchecked checkboxes *)
         checkElement (Template.elementId model);;
         (* Return model to view (unhide) *)
         modify (fun s =>
           set_templates
             (alter_prop (Template.set_isAnimated true) template (templates s))
             s)) s
    | None => Throw (TypeError "model is undefined") s
    end.

Definition handleReset : M unit :=
  (* Redefine rotator defaults *)
  modify (set_rotator (SetView 17 [0; 1; 2]));;
  modify (set_frameNumber 0);;
  modify (set_sceneScale 1%float);;
  modify (set_isSceneAnimated false);;
  (* If user has hidden some object types, display them on reset *)
  ((fun s => forEach resetTemplate (map fst (templates s)) s) : M unit);;
  render.

(** [if (!this.isSceneAnimated) { this.render(); }] *)
Definition renderUnlessAnimated : M unit :=
  fun s => if negb (isSceneAnimated s) then render s else Ok tt s.

(** The checkbox of a shape template; [paramObject] is
    [this.templates[model]]. *)
Definition handleSceneElementCheckboxChanges (model : string) : M unit :=
  modify (fun s =>
    set_templates
      (alter_prop (fun t =>
         Template.set_isAnimated (negb (Template.isAnimated t)) t)
         model (templates s)) s);;
  renderUnlessAnimated.

(** [paramObject.lightsUniforms.enabled ^= 1] *)
Definition toggleEnabled (lu : JsObject) : JsObject :=
  js_set lu "enabled"
    (JNum (num (Z.lxor (js_toInt32 (js_get lu "enabled")) 1))).

(** The checkbox of a light; [paramObject] is [this.lightSourceData[i]]. *)
Definition handleLightSourceCheckboxChanges (i : nat) : M unit :=
  fun s =>
    match lightSourceData s !! i with
    | None => Ok tt s
    | Some light =>
        match Light.lightsUniforms light with
        | None => Throw (TypeError "paramObject.lightsUniforms") s
        | Some lu =>
            (modify (fun s =>
               set_lightSourceData
                 (<[i := Light.set_lightsUniforms (Some (toggleEnabled lu))
                           light]> (lightSourceData s)) s);;
             renderUnlessAnimated) s
        end
    end.

(** The listeners set up by [init]. *)

(** The ['wheel'] listener of the canvas:
    [this.sceneScale += Math.sign(paramEvent.wheelDelta) / 10], in binary64
    arithmetic. *)
Definition onWheel (wheelDelta : option Z) : M unit :=
  modify (fun s =>
    set_sceneScale (sceneScale s + Math_sign wheelDelta / 10)%float s);;
  renderUnlessAnimated.

(** A drag on the canvas: the rotator updates its view, then calls back. *)
Definition onDrag (dx dy : Z) : M unit :=
  modify (fun s => set_rotator (Dragged (rotator s) dx dy) s);;
  renderUnlessAnimated.

(** The host runs one pending animation-frame callback, if there is one. *)
Definition onAnimationFrame : M unit :=
  fun s =>
    match animationFrameRequests s with
    | O => Ok tt s
    | S n => handleFrame (set_animationFrameRequests n s)
    end.

(** ** The user interface as a transition system *)

Inductive Event :=
| StartAnimation
| StopAnimation
| ResetModel
| AnimationFrame
| ToggleShape (model : string)
| ToggleLight (i : nat)
| Wheel (wheelDelta : Z)
| WheelNoDelta                 (* a wheel event without [wheelDelta] *)
| Drag (dx dy : Z).

Definition dispatch (e : Event) : M unit :=
  match e with
  | StartAnimation => handleAnimationStart
  | StopAnimation => handleAnimationStop
  | ResetModel => handleReset
  | AnimationFrame => onAnimationFrame
  | ToggleShape model => handleSceneElementCheckboxChanges model
  | ToggleLight i => handleLightSourceCheckboxChanges i
  | Wheel d => onWheel (Some d)
  | WheelNoDelta => onWheel None
  | Drag dx dy => onDrag dx dy
  end.

(** Events are handled one after the other; an exception ends only the
    handler that raised it. *)
Definition run (es : list Event) (s : App) : App :=
  fold_left (fun s e => final (dispatch e s)) es s.

(** ** The state [init] sets up

    [Polyhedra] ([js/data.js]) is not part of this file; the templates it
    gives rise to are a parameter.  [init] numbers nothing itself: the
    checkboxes are those of the templates and of the lights. *)

Definition initialCheckboxes (ts : list (string * Template.t))
    (ls : list Light.t) : list (string * bool) :=
  map (fun kt => (Template.elementId (snd kt), true)) ts ++
  map (fun l => (Light.elementId l, true)) ls.

Definition initialState (ts : list (string * Template.t)) : App :=
  {| templates := ts;
     sceneObjectsData := sceneObjectsData0;
     lightSourceData := lightSourceData0;
     isSceneAnimated := false;
     frameNumber := 0;
     sceneScale := 1%float;
     matrixStack := [];
     modelview := None;
     heap := [];
     rotator := SetView 17 [0; 1; 2];
     gl := {| GL.calls := []; GL.elementArrayBuffer := None |};
     alerts := [];
     animationFrameRequests := 0;
     checkboxes := initialCheckboxes ts lightSourceData0 |}.

(** [initGL], then the first [render].  Of [initGL] the calls that set
    uniforms are kept; [useProgram], [enable] and the acquisition of the
    attribute and uniform locations, which are symbolic here, are not. *)
Definition initGL : M unit :=
  handleSettingOfDefaultUniforms "Material" None;;
  ((fun s =>
      forIndexed (fun i _ => handleSettingOfDefaultUniforms "Lights" (Some i))
        0 (lightSourceData s) s) : M unit).

Definition init (ts : list (string * Template.t)) : Res unit :=
  (initGL;; render) (initialState ts).

(** [assembleShapeTemplate], with the buffers [gl.createBuffer] returns
    numbered from [b]. *)
Definition assembleShapeTemplate (paramType : string) (b : nat)
    (hasTextureCoords : bool) (indices : nat) : Template.t :=
  {| Template.shapeType := paramType;
     Template.coordsBuffer := b;
     Template.normalBuffer := (b + 1)%nat;
     Template.texCoordsBuffer :=
       if hasTextureCoords then Some (b + 2)%nat else None;
     Template.indexBuffer :=
       if hasTextureCoords then (b + 3)%nat else (b + 2)%nat;
     Template.count := indices;
     Template.isAnimated := true;
     Template.elementId := "toggle" +:+ paramType |}.

(** [assembleShapeTemplates]: one template per getter of [Polyhedra], here
    given as the polyhedron's name, whether it has texture coordinates and
    how many indices it has. *)
Fixpoint set_prop {A} (o : list (string * A)) (k : string) (v : A)
  : list (string * A) :=
  match o with
  | [] => [(k, v)]
  | (k', v') :: o' =>
      if String.eqb k' k then (k, v) :: o' else (k', v') :: set_prop o' k v
  end.

Fixpoint assembleShapeTemplates (b : nat)
    (polyhedra : list (string * (bool * nat)))
    (ts : list (string * Template.t)) : list (string * Template.t) :=
  match polyhedra with
  | [] => ts
  | (polyhedronName, (tex, n)) :: rest =>
      assembleShapeTemplates (if tex then b + 4 else b + 3)%nat rest
        (set_prop ts polyhedronName
           (assembleShapeTemplate polyhedronName b tex n))
  end.

(** A stand-in for [Polyhedra]: the ten solids the scene names, with
    index counts chosen for the examples below. *)
Definition examplePolyhedra : list (string * (bool * nat)) :=
  [ ("Sierpinski", (false, 48%nat)); ("Icosahedron", (false, 60%nat));
    ("Dodecahedron", (false, 108%nat)); ("Octahedron", (false, 24%nat));
    ("Pyramid", (false, 18%nat)); ("Cylinder", (true, 192%nat));
    ("Cube", (true, 36%nat)); ("Tetrahedron", (false, 12%nat));
    ("Sphere", (true, 3072%nat)); ("Ring", (true, 192%nat)) ].

Definition exampleTemplates : list (string * Template.t) :=
  assembleShapeTemplates 0 examplePolyhedra [].

Definition exampleState : App := final (init exampleTemplates).

(** The same page after a press of the start button. *)
Definition exampleRunning : App := final (handleAnimationStart exampleState).

(** The same page after the checkbox of the spheres has been unticked. *)
Definition exampleHidden : App :=
  final (handleSceneElementCheckboxChanges "Sphere" exampleState).

(** The same page after the checkbox of the sun light has been unticked. *)
Definition exampleLightOff : App :=
  final (handleLightSourceCheckboxChanges 0 exampleState).

(** The same page after eleven zoom-outs: the zoom factor is negative. *)
Definition exampleZoomedOut : App :=
  run (map Wheel (repeat (-120) 11)) exampleState.

(** The running page with its templates taken away: a page on which a
    render pass throws. *)
Definition exampleBroken : App := set_templates [] exampleRunning.

(** The first scene object, and the template [exampleTemplates] holds for
    its shape type. *)
Definition exampleObject : SceneObject.t :=
  mkObject "Sierpinski" Colors.BROWN false None Colors.WHITE 32
    [0; 0; -1] [frac 1 2; frac 1 2; frac 1 2] [(Axis.x, -9); (Axis.y, 2)].

Definition exampleModel : Template.t :=
  assembleShapeTemplate "Sierpinski" 0 false 48.


(** * The calls a render pass issues, as lists

    These restate the assembly functions without the state: which WebGL
    calls a pass makes, in order, given the matrix the pass starts from. *)

Definition execs (cs : list GLCall) (g : GL.t) : GL.t :=
  fold_left (fun g c => gl_exec c g) cs g.

Definition bufferBindingCalls (loc : AttribLocation) (b : WebGLBuffer)
    (size : nat) : list GLCall :=
  [BindBuffer ARRAY_BUFFER b; VertexAttribPointer loc size;
   EnableVertexAttribArray loc].

Definition templateCalls (model : Template.t) (cfg : RenderConfig.t)
    (m : Mat4) : list GLCall :=
  bufferBindingCalls a_coords_loc (Template.coordsBuffer model) 3 ++
  bufferBindingCalls a_normal_loc (Template.normalBuffer model) 3 ++
  match Template.texCoordsBuffer model with
  | Some b => bufferBindingCalls a_texCoords_loc b 2
  | None => [DisableVertexAttribArray a_texCoords_loc]
  end ++
  match RenderConfig.texture cfg with
  | Some _ =>
      [Uniform1i u_useTexture (JNum (num 1)); BindTexture;
       TexImage2D (convertColorToUint8Array Colors.WHITE)]
  | None =>
      [Uniform1i u_useTexture (JNum (num 0));
       Uniform4fv (u_material "diffuseColor")
         (Vec4Of (RenderConfig.shapeColor cfg))]
  end ++
  [UniformMatrix4fv u_modelview m;
   UniformMatrix3fv u_normalMatrix (NormalFromMat4 m);
   BindBuffer ELEMENT_ARRAY_BUFFER (Template.indexBuffer model);
   DrawElements
     (if RenderConfig.isWireFrame cfg then LINE_LOOP else TRIANGLES)
     (Template.count model) (Some (Template.indexBuffer model));
   DisableVertexAttribArray a_coords_loc;
   DisableVertexAttribArray a_normal_loc;
   DisableVertexAttribArray a_texCoords_loc].

(** The one call [handleDefinitionOfUniform] makes. *)
Definition uniformCall (paramDataObject : JsObject) (paramProperty : string)
    (paramCounter : option nat) : GLCall :=
  let value := js_get paramDataObject paramProperty in
  match paramCounter, value with
  | Some i, JArr a =>
      if String.eqb paramProperty "position" then
        uniform4f (u_lights i "position") a
      else uniform3f (u_lights i paramProperty) (slice0 3 a)
  | Some i, _ =>
      if String.eqb paramProperty "enabled" then
        Uniform1i (u_lights i "enabled") value
      else Uniform1f (u_lights i paramProperty) value
  | None, JArr a =>
      if String.eqb paramProperty "diffuseColor" then
        Uniform4fv (u_material "diffuseColor") (Vec4Of a)
      else uniform3f (u_material paramProperty) (slice0 (length a - 1) a)
  | None, _ => Uniform1f (u_material paramProperty) value
  end.

Definition uniformCalls (o : JsObject) (keys : list string)
    (paramCounter : option nat) : list GLCall :=
  map (fun key => uniformCall o key paramCounter) keys.

(** The matrix a light's body is drawn with: its [transformations], in the
    order of their keys, applied to the matrix the pass starts from. *)
Definition lightModelview (base : Mat4) (light : Light.t) : Mat4 :=
  match Light.transformations light with
  | Some tr => fold_left (fun m kv => mat4_key (fst kv) m (snd kv)) tr base
  | None => base
  end.

Definition lightPosition (v : JsVal) : list Qc :=
  match v with
  | JArr a => a
  | _ => []
  end.

Definition lightBodyCalls (ts : list (string * Template.t)) (i : nat)
    (light : Light.t) (base : Mat4) : list GLCall :=
  match Light.shapeType light, Light.shapeColor light with
  | Some st, Some sc =>
      match Light.lightsUniforms light, prop ts st with
      | Some lu, Some model =>
          Uniform4fv (u_lights i "position")
            (TransformMat4 (lightPosition (js_get lu "position"))
               (lightModelview base light)) ::
          templateCalls model (lightConfig st sc light)
            (lightModelview base light)
      | _, _ => []
      end
  | _, _ => []
  end.

Definition lightCalls (ts : list (string * Template.t)) (i : nat)
    (light : Light.t) (base : Mat4) : list GLCall :=
  match Light.lightsUniforms light with
  | Some lu => uniformCalls lu (js_keys lu) (Some i)
  | None => []
  end ++
  match Light.materialUniforms light with
  | Some mu => uniformCalls mu (js_keys mu) None
  | None => []
  end ++
  lightBodyCalls ts i light base ++
  match Light.materialUniforms light with
  | Some mu => uniformCalls DefaultUniforms.MATERIAL (js_keys mu) None
  | None => []
  end.

Fixpoint lightsCalls (ts : list (string * Template.t)) (base : Mat4)
    (i : nat) (lights : list Light.t) : list GLCall :=
  match lights with
  | [] => []
  | light :: rest => lightCalls ts i light base ++ lightsCalls ts base (S i) rest
  end.

(** The matrix a scene object is drawn with at frame [F]: the orbit about
    the y-axis by [-F] degrees, then the object's translation, then a
    rotation of [F * rate] degrees about each axis its [rotate] map
    declares, in the order declared, then its scale. *)
Definition objectModelview (F : Z) (base : Mat4) (o : SceneObject.t) : Mat4 :=
  let tr := SceneObject.transformations o in
  let orbit := Rotate base (DegToRad (- F)) [num 0; num 1; num 0] in
  let placed := Translate orbit (Transformations.translate tr) in
  let spun :=
    fold_left (fun m kv => rotateAxis (fst kv) m (DegToRad (F * snd kv)))
      (Transformations.rotate tr) placed in
  Scale spun (Transformations.scale tr).

Definition materialCalls (mu : MaterialUniforms.t) : list GLCall :=
  match MaterialUniforms.specularColor mu with
  | Some c => [uniform3f (u_material "specularColor") c]
  | None => []
  end ++
  match MaterialUniforms.specularExponent mu with
  | Some e => [Uniform1f (u_material "specularExponent") (JNum e)]
  | None => []
  end.

Definition materialResetCalls (mu : MaterialUniforms.t) : list GLCall :=
  match MaterialUniforms.specularColor mu with
  | Some _ => [uniform3f (u_material "specularColor") Colors.GRAY]
  | None => []
  end ++
  match MaterialUniforms.specularExponent mu with
  | Some _ => [Uniform1f (u_material "specularExponent") (JNum (num 16))]
  | None => []
  end.

Definition objectCalls (ts : list (string * Template.t)) (F : Z)
    (base : Mat4) (o : SceneObject.t) : list GLCall :=
  match prop ts (SceneObject.shapeType o) with
  | Some model =>
      if Template.isAnimated model then
        materialCalls (SceneObject.materialUniforms o) ++
        templateCalls model (objectConfig o) (objectModelview F base o) ++
        materialResetCalls (SceneObject.materialUniforms o)
      else []
  | None => []
  end.

(** The matrix every instance of a pass starts from: the rotator's view,
    scaled by the zoom factor. *)
Definition baseModelview (s : App) : Mat4 :=
  ScaleBy (ViewMatrix (rotator s)) [sceneScale s; sceneScale s; sceneScale s].

Definition renderCalls (s : App) : list GLCall :=
  [ClearColor Colors.BLACK; Clear; UniformMatrix4fv u_projection Perspective]
  ++ lightsCalls (templates s) (baseModelview s) 0 (lightSourceData s)
  ++ flat_map (objectCalls (templates s) (frameNumber s) (baseModelview s))
       (sceneObjectsData s).

(** ** Well-formed scenes

    Every shape type named by a scene object or by a light's body has a
    template, and a light with a body has a position. *)

Definition isDefined (v : JsVal) : bool :=
  match v with
  | JUndefined => false
  | _ => true
  end.

Definition lightResolves (ts : list (string * Template.t)) (light : Light.t)
  : bool :=
  match Light.shapeType light, Light.shapeColor light with
  | Some st, Some _ =>
      match Light.lightsUniforms light, prop ts st with
      | Some lu, Some _ => isDefined (js_get lu "position")
      | _, _ => false
      end
  | _, _ => true
  end.

Definition objectResolves (ts : list (string * Template.t))
    (o : SceneObject.t) : bool :=
  match prop ts (SceneObject.shapeType o) with
  | Some _ => true
  | None => false
  end.

Definition resolves (s : App) : bool :=
  forallb (lightResolves (templates s)) (lightSourceData s) &&
  forallb (objectResolves (templates s)) (sceneObjectsData s).

(** A state seen as the tables that a render pass leaves alone, and the
    four components it works on. *)
Definition st (s : App) (g : GL.t) (h : list Mat4) (mv : option Loc)
    (stk : list Loc) : App :=
  set_gl g (set_heap h (set_modelview mv (set_matrixStack stk s))).

(** The number of render passes a list of calls holds: each pass clears
    the canvas once, and nothing else does. *)
Definition isClear (c : GLCall) : bool :=
  match c with
  | Clear => true
  | _ => false
  end.

Definition renderPasses (cs : list GLCall) : nat :=
  length (List.filter isClear cs).

(** A draw call references a template when it takes its indices from the
    template's index buffer. *)
Definition drawsTemplate (model : Template.t) (c : GLCall) : bool :=
  match c with
  | DrawElements _ _ (Some b) => Nat.eqb b (Template.indexBuffer model)
  | _ => false
  end.

Definition drawsOf (model : Template.t) (cs : list GLCall) : nat :=
  length (List.filter (drawsTemplate model) cs).

(** The calls issued between two states of the same page. *)
Definition issued (s s' : App) : list GLCall :=
  skipn (length (GL.calls (gl s))) (GL.calls (gl s')).

(** The model-view matrices uploaded by a list of calls, in order. *)
Definition modelviewUploads (cs : list GLCall) : list Mat4 :=
  flat_map (fun c =>
              match c with
              | UniformMatrix4fv u_modelview m => [m]
              | _ => []
              end) cs.



(** A light has a body of kind [K] when it declares that shape type and a
    shape colour: the guard of [assembleLights]. *)
Definition hasBodyOfKind (K : string) (light : Light.t) : bool :=
  match Light.shapeType light, Light.shapeColor light with
  | Some shape, Some _ => String.eqb shape K
  | _, _ => false
  end.

(** No two templates share an index buffer: [gl.createBuffer] returns a
    new buffer on every call of [assembleBuffer]. *)
Fixpoint distinctIndexBuffers (ts : list (string * Template.t)) : bool :=
  match ts with
  | [] => true
  | (_, model) :: rest =>
      forallb (fun km => negb (Nat.eqb (Template.indexBuffer (snd km))
                                       (Template.indexBuffer model))) rest
      && distinctIndexBuffers rest
  end.

(** Sequences of operations on the matrix pseudo-stack. *)
Inductive StackOp :=
| Push
| Pop
| Mutate (f : Mat4 -> Mat4).

Definition stackOp (o : StackOp) : M unit :=
  match o with
  | Push => pushMatrix
  | Pop => popMatrix
  | Mutate f => mat4_inplace f
  end.

(** As many pushes as [rounds] has elements, each followed by the in-place
    mutations of the current matrix that its element lists. *)
Definition pushes (rounds : list (list (Mat4 -> Mat4))) : list StackOp :=
  flat_map (fun fs => Push :: map Mutate fs) rounds.

(** A computation that only talks to the WebGL context, and what it says. *)
Definition issues (c : M unit) (cs : list GLCall) : Prop :=
  forall s g h mv stk,
    c (st s g h mv stk) = Ok tt (st s (execs cs g) h mv stk).

(** A property of calls that no uniform, attribute or texture call has:
    being a draw, or being a clear. *)
Definition drawOrClearOnly (p : GLCall -> bool) : Prop :=
  forall c,
    p c = true ->
    match c with
    | Clear | DrawElements _ _ _ => True
    | _ => False
    end.

(** A computation that touches nothing but the WebGL context, the matrices
    and the matrix stack, whether it returns or throws. *)
Definition framed {A} (c : M A) : Prop :=
  forall s, exists g h mv stk, final (c s) = st s g h mv stk.

(** A computation that leaves an observation of the state as it was,
    whether it returns or throws. *)
Definition preserves {A X} (f : App -> X) (c : M A) : Prop :=
  forall s, f (final (c s)) = f s.

(** An observation that does not depend on the WebGL context, the
    matrices or the matrix stack. *)
Definition sceneOnly {X} (f : App -> X) : Prop :=
  forall s g h mv stk, f (st s g h mv stk) = f s.

(** The zoom factor that wheel events with the deltas [ds] make of the
    factor [x]: the additions of the listener, one after the other. *)
Definition zoomed (x : float) (ds : list Z) : float :=
  fold_left (fun x d => (x + Math_sign (Some d) / 10)%float) ds x.

(** [1 + (u - d) / 10], as JavaScript evaluates it for integers [u] and
    [d]. *)
Definition zoomFormula (u d : Z) : float :=
  (1 + Z2float (u - d) / 10)%float.

(** Whether the light of index [i] is switched on. *)
Definition lightEnabled (s : App) (i : nat) : JsVal :=
  match lightSourceData s !! i with
  | Some light =>
      match Light.lightsUniforms light with
      | Some lu => js_get lu "enabled"
      | None => JUndefined
      end
  | None => JUndefined
  end.

(** Every checkbox that [handleReset] ticks is in the document. *)
Definition checkboxesPresent (s : App) : bool :=
  forallb (fun km =>
             match prop (checkboxes s) (Template.elementId (snd km)) with
             | Some _ => true
             | None => false
             end) (templates s).

(** ** Further observations and functions *)

(** The draw calls of a list of calls, in order: primitive, number of
    indices and the buffer the indices come from. *)
Definition draws (cs : list GLCall)
  : list (Primitive * nat * option WebGLBuffer) :=
  flat_map (fun c =>
              match c with
              | DrawElements mode n b => [(mode, n, b)]
              | _ => []
              end) cs.

(** The draw a light's body gives rise to, if the light has a body. *)
Definition lightDraw (ts : list (string * Template.t)) (light : Light.t)
  : list (Primitive * nat * option WebGLBuffer) :=
  match Light.shapeType light, Light.shapeColor light with
  | Some shape, Some _ =>
      match prop ts shape with
      | Some model =>
          [(TRIANGLES, Template.count model,
            Some (Template.indexBuffer model))]
      | None => []
      end
  | _, _ => []
  end.

(** The draw a scene object gives rise to, if its kind is visible. *)
Definition objectDraw (ts : list (string * Template.t)) (o : SceneObject.t)
  : list (Primitive * nat * option WebGLBuffer) :=
  match prop ts (SceneObject.shapeType o) with
  | Some model =>
      if Template.isAnimated model then
        [(if SceneObject.isWireFrame o then LINE_LOOP else TRIANGLES,
          Template.count model, Some (Template.indexBuffer model))]
      else []
  | None => []
  end.

(** [isPowerOf2]: [(paramValue & (paramValue - 1)) === 0]; both operands
    of [&] are taken to 32 bits. *)
Definition isPowerOf2 (paramValue : Qc) : bool :=
  Z.eqb (Z.land (toInt32 paramValue) (toInt32 (paramValue - num 1)%Qc)) 0.

(** Every light has a [lightsUniforms] object, as the two lights of
    [lightSourceData] do. *)
Definition lightsHaveUniforms (s : App) : bool :=
  forallb (fun light =>
             match Light.lightsUniforms light with
             | Some _ => true
             | None => false
             end) (lightSourceData s).

(** The page is in order: the scene resolves, the matrix stack is empty
    between handlers, and the document holds every checkbox that
    [handleReset] ticks. *)
Definition pageInOrder (s : App) : Prop :=
  resolves s = true
  /\ matrixStack s = []
  /\ checkboxesPresent s = true
  /\ lightsHaveUniforms s = true.

(** The events whose handlers redraw by hand: the checkboxes that exist,
    the wheel and the drag. *)
Definition redrawsByHand (s : App) (e : Event) : bool :=
  match e with
  | ToggleShape _ | Wheel _ | WheelNoDelta | Drag _ _ => true
  | ToggleLight i => Nat.ltb i (length (lightSourceData s))
  | _ => false
  end.

(** The first light of [lightSourceData], the sun, and its uniforms. *)
Definition sunLightUniforms : JsObject :=
  [ ("enabled", JNum (num 1));
    ("position", JArr [num 0; num 0; num 0; num 1]);
    ("color", JArr Colors.WHITE);
    ("attenuation", JNum (frac 25 100)) ].

Definition sunLight : Light.t :=
  {| Light.lightText := "SunLight";
     Light.shapeType := Some "Sphere";
     Light.shapeColor := Some Colors.WHITE;
     Light.texture := Some Textures.SUN;
     Light.materialUniforms := Some [("emissiveColor", JArr Colors.YELLOW)];
     Light.lightsUniforms := Some sunLightUniforms;
     Light.transformations :=
       Some [ (TransformKey.translate, [num 0; num 0; num 0]);
              (TransformKey.scale, [frac 15 100; frac 15 100; frac 15 100]) ];
     Light.elementId := "toggleSunLight" |}.

(** What the loop of [handleReset] makes of the templates and of the
    checkboxes, when it runs over the properties [ks]. *)
Definition resetTemplates (ks : list string) (ts : list (string * Template.t))
  : list (string * Template.t) :=
  fold_left (fun ts k => alter_prop (Template.set_isAnimated true) k ts) ks ts.

Definition resetCheckboxes (ts : list (string * Template.t))
    (ks : list string) (cb : list (string * bool)) : list (string * bool) :=
  fold_left (fun cb k =>
               match prop ts k with
               | Some model =>
                   alter_prop (fun _ => true) (Template.elementId model) cb
               | None => cb
               end) ks cb.

(** A handler that, on a page in order, returns normally and leaves the
    page in order. *)
Definition keepsPage (c : M unit) : Prop :=
  forall s, pageInOrder s -> exists s', c s = Ok tt s' /\ pageInOrder s'.

(** The calls [handleSettingOfDefaultUniforms] issues, and those of
    [initGL]: the material defaults, then the defaults of each light. *)
Definition defaultCalls (paramType : string) (paramCounter : option nat)
  : list GLCall :=
  let defaults :=
    if String.eqb paramType "Material" then DefaultUniforms.MATERIAL
    else DefaultUniforms.LIGHTS in
  uniformCalls defaults (js_keys defaults) paramCounter.

Fixpoint lightsDefaultCalls (i : nat) (lights : list Light.t)
  : list GLCall :=
  match lights with
  | [] => []
  | _ :: rest =>
      defaultCalls "Lights" (Some i) ++ lightsDefaultCalls (S i) rest
  end.

Definition initGLCalls (s : App) : list GLCall :=
  defaultCalls "Material" None ++ lightsDefaultCalls 0 (lightSourceData s).

(** The pixels uploaded by [texImage2D] in a list of calls, in order. *)
Definition textureUploads (cs : list GLCall) : list (list Z) :=
  flat_map (fun c =>
              match c with
              | TexImage2D pixel => [pixel]
              | _ => []
              end) cs.

(** A light whose body is drawn with a texture, and a scene object of a
    visible kind that is drawn with one. *)
Definition hasTexturedBody (light : Light.t) : bool :=
  match Light.shapeType light, Light.shapeColor light, Light.texture light with
  | Some _, Some _, Some _ => true
  | _, _, _ => false
  end.

Definition isTexturedVisible (ts : list (string * Template.t))
    (o : SceneObject.t) : bool :=
  match prop ts (SceneObject.shapeType o), SceneObject.texture o with
  | Some model, Some _ => Template.isAnimated model
  | _, _ => false
  end.

#[global] Arguments num : simpl never.
#[global] Arguments frac : simpl never.
#[global] Arguments convertColorToUint8Array : simpl never.

(** * Reasoning about computations *)

Lemma bind_Ok {A B} (c : M A) (k : A -> M B) s a s' :
  c s = Ok a s' -> (c ≫= k) s = k a s'.
Proof. intros H. unfold mbind, M_bind, bind. now rewrite H. Qed.

Lemma bind_Throw {A B} (c : M A) (k : A -> M B) s e s' :
  c s = Throw e s' -> (c ≫= k) s = Throw e s'.
Proof. intros H. unfold mbind, M_bind, bind. now rewrite H. Qed.

Lemma forEach_cons {A} (body : A -> M unit) a l s :
  forEach body (a :: l) s =
  match body a s with
  | Ok _ s' => forEach body l s'
  | Throw e s' => Throw e s'
  end.
Proof. reflexivity. Qed.

Lemma forEach_app {A} (body : A -> M unit) l1 l2 s :
  forEach body (l1 ++ l2) s =
  match forEach body l1 s with
  | Ok _ s' => forEach body l2 s'
  | Throw e s' => Throw e s'
  end.
Proof.
  revert s. induction l1 as [|a l1 IH]; intros s; [reflexivity|].
  simpl. unfold mbind, M_bind, bind.
  destruct (body a s) as [[] s1|e s1]; [apply IH|reflexivity].
Qed.

Lemma pushMatrix_Ok s l m :
  modelview s = Some l -> heap s !! l = Some m ->
  pushMatrix s =
  Ok tt (set_matrixStack (length (heap s) :: matrixStack s)
           (set_heap (heap s ++ [m]) s)).
Proof.
  intros Hl Hm. unfold pushMatrix, mat4_clone, mbind, M_bind, bind, modify.
  now rewrite Hl, Hm.
Qed.

Lemma mat4_inplace_Ok f s l m :
  modelview s = Some l -> heap s !! l = Some m ->
  mat4_inplace f s = Ok tt (set_heap (<[l := f m]> (heap s)) s).
Proof. intros Hl Hm. unfold mat4_inplace. now rewrite Hl, Hm. Qed.

(** ** The matrix pseudo-stack *)

Lemma mutations_inplace fs : forall s l m,
  modelview s = Some l -> heap s !! l = Some m ->
  forEach stackOp (map Mutate fs) s =
  Ok tt (set_heap (<[l := fold_left (fun m f => f m) fs m]> (heap s)) s).
Proof.
  induction fs as [|f fs IH]; intros s l m Hl Hm.
  - simpl. rewrite list_insert_id by exact Hm. now destruct s.
  - simpl map. rewrite forEach_cons. simpl stackOp.
    rewrite (mat4_inplace_Ok f s l m Hl Hm).
    rewrite (IH _ l (f m)); simpl; trivial.
    + now rewrite list_insert_insert_eq.
    + apply list_lookup_insert_eq. eapply lookup_lt_Some, Hm.
Qed.

Lemma push_pop_rounds rounds : forall s l m,
  modelview s = Some l -> heap s !! l = Some m ->
  exists s',
    forEach stackOp (pushes rounds ++ repeat Pop (length rounds)) s = Ok tt s'
    /\ matrixStack s' = matrixStack s
    /\ current s' = Some m
    /\ (length (heap s) <= length (heap s'))%nat
    /\ (forall a, (a < length (heap s))%nat -> a <> l ->
                  heap s' !! a = heap s !! a).
Proof.
  induction rounds as [|fs rounds IH]; intros s l m Hl Hm.
  - exists s. simpl. unfold current. rewrite Hl. auto.
  - pose proof (lookup_lt_Some _ _ _ Hm) as Hlt.
    simpl length. simpl repeat. rewrite repeat_cons. simpl pushes.
    rewrite <- app_comm_cons, <- app_assoc, (app_assoc (pushes rounds)).
    rewrite forEach_cons. simpl stackOp.
    rewrite (pushMatrix_Ok s l m Hl Hm).
    set (s1 := set_matrixStack _ _).
    rewrite forEach_app.
    rewrite (mutations_inplace fs s1 l m); [|exact Hl|].
    2:{ simpl. rewrite lookup_app_l; trivial. }
    set (s2 := set_heap _ s1).
    destruct (IH s2 l (fold_left (fun m f => f m) fs m))
      as (s3 & Hrun & Hst & Hcur & Hlen & Hframe).
    { exact Hl. }
    { simpl. apply list_lookup_insert_eq. rewrite length_app. simpl. lia. }
    rewrite forEach_app, Hrun, forEach_cons. simpl stackOp.
    unfold popMatrix. rewrite Hst. simpl.
    eexists; split; [reflexivity|]. simpl.
    assert (Hs2 : length (heap s2) = S (length (heap s))).
    { simpl. rewrite length_insert, length_app. simpl. lia. }
    repeat split.
    + unfold current. simpl. rewrite Hframe; [|lia|lia].
      simpl. rewrite list_lookup_insert_ne by lia.
      rewrite lookup_app_r by lia. now rewrite Nat.sub_diag.
    + lia.
    + intros a Ha Hne. rewrite Hframe; [|lia|trivial].
      simpl. rewrite list_lookup_insert_ne by congruence.
      now rewrite lookup_app_l.
Qed.

(** * The render pass issues exactly [renderCalls] *)

Lemma st_self s : st s (gl s) (heap s) (modelview s) (matrixStack s) = s.
Proof. now destruct s. Qed.

Lemma execs_app cs1 cs2 g : execs (cs1 ++ cs2) g = execs cs2 (execs cs1 g).
Proof. apply fold_left_app. Qed.

Lemma calls_execs cs : forall g, GL.calls (execs cs g) = GL.calls g ++ cs.
Proof.
  induction cs as [|c cs IH]; intros g; simpl.
  - now rewrite app_nil_r.
  - rewrite IH. simpl. now rewrite <- app_assoc.
Qed.

Section Steps.
Variables (s : App) (h : list Mat4) (stk : list Loc).

Lemma glCall_st c g mv :
  glCall c (st s g h mv stk) = Ok tt (st s (execs [c] g) h mv stk).
Proof. reflexivity. Qed.

Lemma glCalls_st cs : forall g mv,
  forEach glCall cs (st s g h mv stk) = Ok tt (st s (execs cs g) h mv stk).
Proof.
  induction cs as [|c cs IH]; intros g mv; [reflexivity|].
  rewrite forEach_cons, glCall_st. apply IH.
Qed.

End Steps.

Lemma issues_glCall c : issues (glCall c) [c].
Proof. intros s g h mv stk. reflexivity. Qed.

Lemma issues_ret : issues (ret tt) [].
Proof. intros s g h mv stk. reflexivity. Qed.

Lemma issues_bind c1 c2 cs1 cs2 :
  issues c1 cs1 -> issues c2 cs2 -> issues (c1;; c2) (cs1 ++ cs2).
Proof.
  intros H1 H2 s g h mv stk.
  rewrite (bind_Ok _ _ _ _ _ (H1 s g h mv stk)), execs_app. apply H2.
Qed.

Lemma issues_forEach {A} (body : A -> M unit) (f : A -> GLCall) l :
  (forall a, issues (body a) [f a]) -> issues (forEach body l) (map f l).
Proof.
  intros H. induction l as [|a l IH].
  - apply issues_ret.
  - simpl. apply (issues_bind _ _ [f a]); [apply H|apply IH].
Qed.

Lemma handleDefinitionOfUniform_call o p c :
  handleDefinitionOfUniform o p c = glCall (uniformCall o p c).
Proof.
  unfold handleDefinitionOfUniform, uniformCall.
  destruct c, (js_get o p); try reflexivity;
    match goal with |- context [String.eqb ?a ?b] =>
      destruct (String.eqb a b); reflexivity end.
Qed.

Lemma issues_uniforms o keys c :
  issues (forEach (fun key => handleDefinitionOfUniform o key c) keys)
         (uniformCalls o keys c).
Proof.
  apply issues_forEach. intros key.
  rewrite handleDefinitionOfUniform_call. apply issues_glCall.
Qed.

Lemma issues_handleBufferBinding loc b size :
  issues (handleBufferBinding loc b size) (bufferBindingCalls loc b size).
Proof. intros s g h mv stk. reflexivity. Qed.

Lemma issues_texCoords model :
  issues
    match Template.texCoordsBuffer model with
    | Some b => handleBufferBinding a_texCoords_loc b 2
    | None => glCall (DisableVertexAttribArray a_texCoords_loc)
    end
    match Template.texCoordsBuffer model with
    | Some b => bufferBindingCalls a_texCoords_loc b 2
    | None => [DisableVertexAttribArray a_texCoords_loc]
    end.
Proof.
  destruct (Template.texCoordsBuffer model);
    [apply issues_handleBufferBinding|apply issues_glCall].
Qed.

Lemma issues_texture cfg :
  issues
    match RenderConfig.texture cfg with
    | Some address =>
        glCall (Uniform1i u_useTexture (JNum (num 1)));;
        handleTextureLoading address Colors.WHITE
    | None =>
        glCall (Uniform1i u_useTexture (JNum (num 0)));;
        glCall (Uniform4fv (u_material "diffuseColor")
                  (Vec4Of (RenderConfig.shapeColor cfg)))
    end
    match RenderConfig.texture cfg with
    | Some _ =>
        [Uniform1i u_useTexture (JNum (num 1)); BindTexture;
         TexImage2D (convertColorToUint8Array Colors.WHITE)]
    | None =>
        [Uniform1i u_useTexture (JNum (num 0));
         Uniform4fv (u_material "diffuseColor")
           (Vec4Of (RenderConfig.shapeColor cfg))]
    end.
Proof.
  destruct (RenderConfig.texture cfg); intros ? ? ? ? ?; reflexivity.
Qed.

Lemma readModelview_st s g h l stk m :
  h !! l = Some m ->
  readModelview (st s g h (Some l) stk) = Ok m (st s g h (Some l) stk).
Proof.
  intros Hm. unfold readModelview.
  change (current (st s g h (Some l) stk)) with (h !! l). now rewrite Hm.
Qed.

Lemma handleShapeTemplateRendering_st s g h l stk cfg model m :
  prop (templates s) (RenderConfig.shapeType cfg) = Some model ->
  h !! l = Some m ->
  handleShapeTemplateRendering cfg (st s g h (Some l) stk) =
  Ok tt (st s (execs (templateCalls model cfg m) g) h (Some l) stk).
Proof.
  intros Ht Hm. unfold handleShapeTemplateRendering.
  change (templates (st s g h (Some l) stk)) with (templates s). rewrite Ht.
  rewrite (bind_Ok _ _ _ _ _ (issues_handleBufferBinding _ _ _ _ _ _ _ _)).
  rewrite (bind_Ok _ _ _ _ _ (issues_handleBufferBinding _ _ _ _ _ _ _ _)).
  rewrite (bind_Ok _ _ _ _ _ (issues_texCoords _ _ _ _ _ _)).
  rewrite (bind_Ok _ _ _ _ _ (issues_texture _ _ _ _ _ _)).
  rewrite (bind_Ok _ _ _ _ _ (readModelview_st _ _ _ _ _ _ Hm)).
  unfold templateCalls. rewrite !execs_app. reflexivity.
Qed.

Lemma pushMatrix_st s g h l stk m :
  h !! l = Some m ->
  pushMatrix (st s g h (Some l) stk) =
  Ok tt (st s g (h ++ [m]) (Some l) (length h :: stk)).
Proof.
  intros Hm. unfold pushMatrix, mat4_clone, mbind, M_bind, bind.
  change (modelview (st s g h (Some l) stk)) with (Some l).
  change (heap (st s g h (Some l) stk)) with h. cbv beta iota.
  now rewrite Hm.
Qed.

Lemma popMatrix_st s g h mv c stk :
  popMatrix (st s g h mv (c :: stk)) = Ok tt (st s g h (Some c) stk).
Proof. reflexivity. Qed.

Lemma mat4_inplace_st f s g h l stk m :
  h !! l = Some m ->
  mat4_inplace f (st s g h (Some l) stk) =
  Ok tt (st s g (<[l := f m]> h) (Some l) stk).
Proof.
  intros Hm. unfold mat4_inplace.
  change (modelview (st s g h (Some l) stk)) with (Some l).
  change (heap (st s g h (Some l) stk)) with h. cbv beta iota.
  now rewrite Hm.
Qed.

Lemma inplace_forEach_st {A} (f : A -> Mat4 -> Mat4) s g l stk kvs :
  forall h m,
  h !! l = Some m ->
  forEach (fun kv => mat4_inplace (f kv)) kvs (st s g h (Some l) stk) =
  Ok tt (st s g (<[l := fold_left (fun m kv => f kv m) kvs m]> h)
           (Some l) stk).
Proof.
  induction kvs as [|kv kvs IH]; intros h m Hm.
  - simpl fold_left. rewrite list_insert_id by exact Hm. reflexivity.
  - rewrite forEach_cons, (mat4_inplace_st _ _ _ _ _ _ _ Hm).
    rewrite (IH _ (f kv m)).
    + now rewrite list_insert_insert_eq.
    + apply list_lookup_insert_eq. eapply lookup_lt_Some, Hm.
Qed.

Lemma issues_opt_uniforms (o : option JsObject) (f : JsObject -> JsObject) c :
  issues
    match o with
    | Some u =>
        forEach (fun key => handleDefinitionOfUniform (f u) key c) (js_keys u)
    | None => ret tt
    end
    match o with
    | Some u => uniformCalls (f u) (js_keys u) c
    | None => []
    end.
Proof. destruct o; [apply issues_uniforms|apply issues_ret]. Qed.

Lemma lightBody_st s g h l stk i light base :
  lightResolves (templates s) light = true ->
  h !! l = Some (lightModelview base light) ->
  match Light.shapeType light, Light.shapeColor light with
  | Some st, Some sc =>
      match Light.lightsUniforms light with
      | Some lu =>
          handleLightPositioning (u_lights i "position") (js_get lu "position")
      | None => throw (TypeError "light.lightsUniforms")
      end;;
      handleShapeTemplateRendering (lightConfig st sc light)
  | _, _ => ret tt
  end (st s g h (Some l) stk) =
  Ok tt (st s (execs (lightBodyCalls (templates s) i light base) g)
           h (Some l) stk).
Proof.
  intros Hres Hm. unfold lightResolves, lightBodyCalls in *.
  destruct (Light.shapeType light) as [shape|]; [|reflexivity].
  destruct (Light.shapeColor light) as [sc|]; [|reflexivity].
  destruct (Light.lightsUniforms light) as [lu|]; [|discriminate].
  destruct (prop (templates s) shape) as [model|] eqn:Ht; [|discriminate].
  assert (Hpos : handleLightPositioning (u_lights i "position")
                   (js_get lu "position") (st s g h (Some l) stk) =
                 Ok tt (st s (execs [Uniform4fv (u_lights i "position")
                          (TransformMat4 (lightPosition (js_get lu "position"))
                             (lightModelview base light))] g) h (Some l) stk)).
  { unfold handleLightPositioning.
    destruct (js_get lu "position"); [discriminate| |];
      now rewrite (bind_Ok _ _ _ _ _ (readModelview_st _ _ _ _ _ _ Hm)). }
  rewrite (bind_Ok _ _ _ _ _ Hpos).
  rewrite (handleShapeTemplateRendering_st _ _ _ _ _
             (lightConfig shape sc light) model _ Ht Hm).
  reflexivity.
Qed.

Lemma assembleLight_st s g h l stk i light base :
  lightResolves (templates s) light = true ->
  h !! l = Some base ->
  exists h',
    assembleLight i light (st s g h (Some l) stk) =
    Ok tt (st s (execs (lightCalls (templates s) i light base) g)
             h' (Some (length h)) stk)
    /\ h' !! length h = Some base
    /\ length h' = S (length h).
Proof.
  intros Hres Hm. pose proof (lookup_lt_Some _ _ _ Hm) as Hlt.
  exists (<[l := lightModelview base light]> (h ++ [base])).
  assert (Hm1 : (h ++ [base]) !! l = Some base)
    by now rewrite lookup_app_l.
  assert (Hm2 : <[l := lightModelview base light]> (h ++ [base]) !! l =
                Some (lightModelview base light)).
  { apply list_lookup_insert_eq. rewrite length_app. simpl. lia. }
  split; [|split].
  - unfold assembleLight.
    rewrite (bind_Ok _ _ _ _ _ (pushMatrix_st _ _ _ _ _ _ Hm)).
    rewrite (bind_Ok _ _ _ _ _
               (issues_opt_uniforms _ (fun u => u) _ _ _ _ _ _)).
    assert (Htr :
      match Light.transformations light with
      | Some tr =>
          forEach (fun kv =>
            mat4_inplace (fun m => mat4_key (fst kv) m (snd kv))) tr
      | None => ret tt
      end (st s (execs match Light.lightsUniforms light with
                       | Some u => uniformCalls u (js_keys u) (Some i)
                       | None => []
                       end g) (h ++ [base]) (Some l) (length h :: stk)) =
      Ok tt (st s (execs match Light.lightsUniforms light with
                       | Some u => uniformCalls u (js_keys u) (Some i)
                       | None => []
                       end g)
               (<[l := lightModelview base light]> (h ++ [base]))
               (Some l) (length h :: stk))).
    { unfold lightModelview.
      destruct (Light.transformations light) as [tr|].
      - apply (inplace_forEach_st
                 (fun kv m => mat4_key (fst kv) m (snd kv))), Hm1.
      - rewrite list_insert_id by exact Hm1. reflexivity. }
    rewrite (bind_Ok _ _ _ _ _ Htr).
    rewrite (bind_Ok _ _ _ _ _
               (issues_opt_uniforms _ (fun u => u) _ _ _ _ _ _)).
    rewrite (bind_Ok _ _ _ _ _ (lightBody_st _ _ _ _ _ i _ base Hres Hm2)).
    rewrite (bind_Ok _ _ _ _ _
               (issues_opt_uniforms _
                  (fun _ => DefaultUniforms.MATERIAL) _ _ _ _ _ _)).
    rewrite popMatrix_st. unfold lightCalls. rewrite !execs_app. reflexivity.
  - rewrite list_lookup_insert_ne by lia.
    rewrite lookup_app_r by lia. now rewrite Nat.sub_diag.
  - rewrite length_insert, length_app. simpl. lia.
Qed.

Lemma issues_optCall {A} (o : option A) (f : A -> GLCall) :
  issues
    match o with
    | Some a => glCall (f a)
    | None => ret tt
    end
    match o with
    | Some a => [f a]
    | None => []
    end.
Proof. destruct o; [apply issues_glCall|apply issues_ret]. Qed.

Lemma lookup_insert_same {A} (h : list A) l a b :
  h !! l = Some a -> <[l := b]> h !! l = Some b.
Proof. intros H. apply list_lookup_insert_eq. eapply lookup_lt_Some, H. Qed.

Lemma assembleSceneObject_st s g h l stk o base :
  objectResolves (templates s) o = true ->
  h !! l = Some base ->
  exists h' l',
    assembleSceneObject o (st s g h (Some l) stk) =
    Ok tt (st s (execs (objectCalls (templates s) (frameNumber s) base o) g)
             h' (Some l') stk)
    /\ h' !! l' = Some base
    /\ (length h <= length h')%nat.
Proof.
  intros Hres Hm. pose proof (lookup_lt_Some _ _ _ Hm) as Hlt.
  unfold objectResolves in Hres. unfold assembleSceneObject, objectCalls.
  change (templates (st s g h (Some l) stk)) with (templates s).
  change (frameNumber (st s g h (Some l) stk)) with (frameNumber s).
  destruct (prop (templates s) (SceneObject.shapeType o)) as [model|] eqn:Ht;
    [|discriminate].
  destruct (Template.isAnimated model).
  2:{ exists h, l. cbv beta iota delta [negb]. auto. }
  cbv beta iota delta [negb DEBUG].
  set (tr := SceneObject.transformations o).
  set (F := frameNumber s).
  set (m1 := Rotate base (DegToRad (- F)) [num 0; num 1; num 0]).
  set (m2 := Translate m1 (Transformations.translate tr)).
  set (m3 := fold_left
               (fun m kv => rotateAxis (fst kv) m (DegToRad (F * snd kv)))
               (Transformations.rotate tr) m2).
  assert (H0 : (h ++ [base]) !! l = Some base) by now rewrite lookup_app_l.
  pose proof (lookup_insert_same _ _ _ m1 H0) as H1.
  pose proof (lookup_insert_same _ _ _ m2 H1) as H2.
  pose proof (lookup_insert_same _ _ _ m3 H2) as H3.
  pose proof (lookup_insert_same _ _ _
                (Scale m3 (Transformations.scale tr)) H3) as H4.
  eexists _, (length h). split; [|split].
  - rewrite (bind_Ok _ _ _ _ _ (pushMatrix_st _ _ _ _ _ _ Hm)).
    rewrite (bind_Ok _ _ _ _ _ (mat4_inplace_st _ _ _ _ _ _ _ H0)).
    rewrite (bind_Ok _ _ _ _ _ (mat4_inplace_st _ _ _ _ _ _ _ H1)).
    rewrite (bind_Ok _ _ _ _ _
               (inplace_forEach_st
                  (fun kv m => rotateAxis (fst kv) m (DegToRad (F * snd kv)))
                  _ _ _ _ _ _ _ H2)).
    rewrite (bind_Ok _ _ _ _ _ (mat4_inplace_st _ _ _ _ _ _ _ H3)).
    rewrite (bind_Ok _ _ _ _ _ (issues_optCall _
               (fun c => uniform3f (u_material "specularColor") c)
               _ _ _ _ _)).
    rewrite (bind_Ok _ _ _ _ _ (issues_optCall _
               (fun e => Uniform1f (u_material "specularExponent") (JNum e))
               _ _ _ _ _)).
    rewrite (bind_Ok _ _ _ _ _
               (handleShapeTemplateRendering_st _ _ _ _ _ (objectConfig o)
                  model _ Ht H4)).
    rewrite (bind_Ok _ _ _ _ _ (issues_optCall _
               (fun _ => uniform3f (u_material "specularColor") Colors.GRAY)
               _ _ _ _ _)).
    rewrite (bind_Ok _ _ _ _ _ (issues_optCall _
               (fun _ => Uniform1f (u_material "specularExponent")
                           (JNum (num 16)))
               _ _ _ _ _)).
    rewrite popMatrix_st.
    unfold materialCalls, materialResetCalls, objectModelview.
    rewrite !execs_app. reflexivity.
  - rewrite !list_lookup_insert_ne by lia.
    rewrite lookup_app_r by lia. now rewrite Nat.sub_diag.
  - rewrite !length_insert, length_app. simpl. lia.
Qed.

Lemma assembleLights_st s stk base lights :
  forall i g h l,
  forallb (lightResolves (templates s)) lights = true ->
  h !! l = Some base ->
  exists h' l',
    forIndexed assembleLight i lights (st s g h (Some l) stk) =
    Ok tt (st s (execs (lightsCalls (templates s) base i lights) g)
             h' (Some l') stk)
    /\ h' !! l' = Some base
    /\ (length h <= length h')%nat.
Proof.
  induction lights as [|light lights IH]; intros i g h l Hres Hm.
  - exists h, l. auto.
  - simpl in Hres. apply andb_prop in Hres as [Hl Hres].
    destruct (assembleLight_st s g h l stk i light base Hl Hm)
      as (h1 & Hrun & Hm1 & Hlen1).
    destruct (IH (S i) (execs (lightCalls (templates s) i light base) g)
                h1 (length h) Hres Hm1) as (h2 & l2 & Hrun2 & Hm2 & Hlen2).
    exists h2, l2. split; [|split; [exact Hm2|lia]].
    simpl forIndexed. rewrite (bind_Ok _ _ _ _ _ Hrun). cbv beta.
    etransitivity; [exact Hrun2|].
    simpl lightsCalls. now rewrite execs_app.
Qed.

Lemma assembleObjects_st s stk base objs :
  forall g h l,
  forallb (objectResolves (templates s)) objs = true ->
  h !! l = Some base ->
  exists h' l',
    forEach assembleSceneObject objs (st s g h (Some l) stk) =
    Ok tt (st s (execs (flat_map (objectCalls (templates s) (frameNumber s)
                                    base) objs) g)
             h' (Some l') stk)
    /\ h' !! l' = Some base
    /\ (length h <= length h')%nat.
Proof.
  induction objs as [|o objs IH]; intros g h l Hres Hm.
  - exists h, l. auto.
  - simpl in Hres. apply andb_prop in Hres as [Ho Hres].
    destruct (assembleSceneObject_st s g h l stk o base Ho Hm)
      as (h1 & l1 & Hrun & Hm1 & Hlen1).
    destruct (IH (execs (objectCalls (templates s) (frameNumber s) base o) g)
                h1 l1 Hres Hm1) as (h2 & l2 & Hrun2 & Hm2 & Hlen2).
    exists h2, l2. split; [|split; [exact Hm2|lia]].
    rewrite forEach_cons, Hrun. etransitivity; [exact Hrun2|].
    simpl flat_map. now rewrite execs_app.
Qed.

Lemma getViewMatrix_st s g h mv stk :
  getViewMatrix (st s g h mv stk) =
  Ok tt (st s g (h ++ [ViewMatrix (rotator s)]) (Some (length h)) stk).
Proof. reflexivity. Qed.

(** [render] on a well-formed scene returns, issues exactly [renderCalls],
    and touches nothing but the WebGL context and the matrices. *)
Lemma render_st s g h mv stk :
  resolves s = true ->
  exists h' l',
    render (st s g h mv stk) =
    Ok tt (st s (execs (renderCalls s) g) h' (Some l') stk)
    /\ h' !! l' = Some (baseModelview s)
    /\ (length h <= length h')%nat.
Proof.
  intros Hres. unfold resolves in Hres.
  apply andb_prop in Hres as [Hlights Hobjs].
  set (h0 := h ++ [ViewMatrix (rotator s)]).
  assert (H0 : h0 !! length h = Some (ViewMatrix (rotator s))).
  { unfold h0. rewrite lookup_app_r by lia. now rewrite Nat.sub_diag. }
  pose proof (lookup_insert_same _ _ _ (baseModelview s) H0) as H1.
  set (g0 := execs [ClearColor Colors.BLACK; Clear;
                    UniformMatrix4fv u_projection Perspective] g).
  destruct (assembleLights_st s stk (baseModelview s) (lightSourceData s)
              0%nat g0 _ _ Hlights H1) as (h2 & l2 & Hrun2 & Hm2 & Hlen2).
  destruct (assembleObjects_st s stk (baseModelview s) (sceneObjectsData s)
              (execs (lightsCalls (templates s) (baseModelview s) 0
                        (lightSourceData s)) g0)
              h2 l2 Hobjs Hm2) as (h3 & l3 & Hrun3 & Hm3 & Hlen3).
  exists h3, l3. split; [|split; [exact Hm3|]].
  - unfold render.
    rewrite (bind_Ok _ _ _ _ _ (issues_glCall _ _ _ _ _ _)).
    rewrite (bind_Ok _ _ _ _ _ (issues_glCall _ _ _ _ _ _)).
    rewrite (bind_Ok _ _ _ _ _ (issues_glCall _ _ _ _ _ _)).
    rewrite (bind_Ok _ _ _ _ _ (getViewMatrix_st _ _ _ _ _)).
    cbv beta iota delta [DEBUG].
    assert (Hscale :
      (fun s0 => mat4_inplace (fun m =>
         ScaleBy m [sceneScale s0; sceneScale s0; sceneScale s0]) s0)
        (st s g0 h0 (Some (length h)) stk) =
      Ok tt (st s g0 (<[length h := baseModelview s]> h0)
               (Some (length h)) stk)).
    { cbv beta.
      change (sceneScale (st s g0 h0 (Some (length h)) stk))
        with (sceneScale s).
      exact (mat4_inplace_st
               (fun m => ScaleBy m [sceneScale s; sceneScale s; sceneScale s])
               _ _ _ _ _ _ H0). }
    rewrite (bind_Ok _ _ _ _ _ Hscale).
    assert (Hlights' :
      assembleLights (st s g0 (<[length h := baseModelview s]> h0)
                        (Some (length h)) stk) = _) by exact Hrun2.
    rewrite (bind_Ok _ _ _ _ _ Hlights').
    unfold assembleScene. cbv beta iota delta [DEBUG].
    etransitivity; [exact Hrun3|].
    unfold renderCalls, g0. now rewrite !execs_app.
  - unfold h0 in *. rewrite length_insert, length_app in Hlen2. simpl in Hlen2.
    lia.
Qed.

(** * What a render pass leaves alone *)

Lemma st_st s g h mv stk g' h' mv' stk' :
  st (st s g h mv stk) g' h' mv' stk' = st s g' h' mv' stk'.
Proof. reflexivity. Qed.

Lemma framed_ret {A} (a : A) : framed (ret a).
Proof. intros s. exists (gl s), (heap s), (modelview s), (matrixStack s).
  simpl. now rewrite st_self. Qed.

Lemma framed_throw {A} e : framed (@throw A e).
Proof. intros s. exists (gl s), (heap s), (modelview s), (matrixStack s).
  simpl. now rewrite st_self. Qed.

Lemma framed_bind {A B} (c : M A) (k : A -> M B) :
  framed c -> (forall a, framed (k a)) -> framed (c ≫= k).
Proof.
  intros Hc Hk s. unfold mbind, M_bind, bind.
  destruct (Hc s) as (g & h & mv & stk & E).
  destruct (c s) as [a s1|e s1]; simpl in E; subst s1.
  - destruct (Hk a (st s g h mv stk)) as (g' & h' & mv' & stk' & E').
    exists g', h', mv', stk'. now rewrite E', st_st.
  - now exists g, h, mv, stk.
Qed.

Lemma framed_forEach {A} (body : A -> M unit) l :
  (forall a, framed (body a)) -> framed (forEach body l).
Proof.
  intros H. induction l as [|a l IH]; simpl.
  - apply framed_ret.
  - apply framed_bind; [apply H|intros _; apply IH].
Qed.

Lemma framed_forIndexed {A} (body : nat -> A -> M unit) l :
  (forall i a, framed (body i a)) -> forall i, framed (forIndexed body i l).
Proof.
  intros H. induction l as [|a l IH]; intros i; simpl.
  - apply framed_ret.
  - apply framed_bind; [apply H|intros _; apply IH].
Qed.

Lemma framed_glCall c : framed (glCall c).
Proof.
  intros s. now exists (gl_exec c (gl s)), (heap s), (modelview s),
    (matrixStack s).
Qed.

Lemma framed_pushMatrix : framed pushMatrix.
Proof.
  intros s. unfold pushMatrix, mat4_clone, mbind, M_bind, bind, modify.
  destruct (modelview s) as [l|] eqn:Hl.
  - destruct (heap s !! l) as [m|].
    + exists (gl s), (heap s ++ [m]), (modelview s),
        (length (heap s) :: matrixStack s). reflexivity.
    + exists (gl s), (heap s), (modelview s), (matrixStack s).
      simpl. now rewrite st_self.
  - exists (gl s), (heap s), (modelview s), (matrixStack s).
    simpl. now rewrite st_self.
Qed.

Lemma framed_popMatrix : framed popMatrix.
Proof.
  intros s. unfold popMatrix. destruct (matrixStack s) as [|c stk] eqn:E.
  - exists (gl s), (heap s), None, (matrixStack s). now destruct s.
  - exists (gl s), (heap s), (Some c), stk. reflexivity.
Qed.

Lemma framed_mat4_inplace f : framed (mat4_inplace f).
Proof.
  intros s. unfold mat4_inplace.
  destruct (modelview s) as [l|]; [destruct (heap s !! l) as [m|]|].
  - exists (gl s), (<[l := f m]> (heap s)), (modelview s), (matrixStack s).
    reflexivity.
  - exists (gl s), (heap s), (modelview s), (matrixStack s).
    simpl. now rewrite st_self.
  - exists (gl s), (heap s), (modelview s), (matrixStack s).
    simpl. now rewrite st_self.
Qed.

Lemma framed_readModelview : framed readModelview.
Proof.
  intros s. unfold readModelview.
  exists (gl s), (heap s), (modelview s), (matrixStack s).
  destruct (current s); simpl; now rewrite st_self.
Qed.

Lemma framed_handleDefinitionOfUniform o p c :
  framed (handleDefinitionOfUniform o p c).
Proof. rewrite handleDefinitionOfUniform_call. apply framed_glCall. Qed.

Lemma framed_handleBufferBinding loc b n : framed (handleBufferBinding loc b n).
Proof.
  unfold handleBufferBinding, gl_bindBuffer.
  repeat (apply framed_bind; [apply framed_glCall|intros _]).
  apply framed_glCall.
Qed.

Lemma framed_handleShapeTemplateRendering cfg :
  framed (handleShapeTemplateRendering cfg).
Proof.
  intros s. unfold handleShapeTemplateRendering.
  destruct (prop (templates s) _) as [model|]; [|apply (framed_throw _ s)].
  refine ((_ : framed _) s).
  apply framed_bind; [apply framed_handleBufferBinding|intros _].
  apply framed_bind; [apply framed_handleBufferBinding|intros _].
  apply framed_bind; [destruct (Template.texCoordsBuffer model);
    [apply framed_handleBufferBinding|apply framed_glCall]|intros _].
  apply framed_bind.
  { destruct (RenderConfig.texture cfg);
      (apply framed_bind; [apply framed_glCall|intros _]);
      [unfold handleTextureLoading;
       apply framed_bind; [apply framed_glCall|intros _]|];
      apply framed_glCall. }
  intros _. apply framed_bind; [apply framed_readModelview|intros m].
  repeat (apply framed_bind; [apply framed_glCall|intros _]).
  apply framed_bind.
  { intros s0. apply framed_glCall. }
  intros _. repeat (apply framed_bind; [apply framed_glCall|intros _]).
  apply framed_glCall.
Qed.

Lemma framed_uniforms (o : option JsObject) (f : JsObject -> JsObject) c :
  framed
    match o with
    | Some u =>
        forEach (fun key => handleDefinitionOfUniform (f u) key c) (js_keys u)
    | None => ret tt
    end.
Proof.
  destruct o; [|apply framed_ret].
  apply framed_forEach. intros; apply framed_handleDefinitionOfUniform.
Qed.

Lemma framed_handleLightPositioning loc v :
  framed (handleLightPositioning loc v).
Proof.
  unfold handleLightPositioning. destruct v; [apply framed_throw| |];
    (apply framed_bind; [apply framed_readModelview|intros m]);
    apply framed_glCall.
Qed.

Lemma framed_assembleLight i light : framed (assembleLight i light).
Proof.
  unfold assembleLight.
  apply framed_bind; [apply framed_pushMatrix|intros _].
  apply framed_bind; [apply (framed_uniforms _ (fun u => u))|intros _].
  apply framed_bind.
  { destruct (Light.transformations light); [|apply framed_ret].
    apply framed_forEach. intros; apply framed_mat4_inplace. }
  intros _.
  apply framed_bind; [apply (framed_uniforms _ (fun u => u))|intros _].
  apply framed_bind.
  { destruct (Light.shapeType light); [|apply framed_ret].
    destruct (Light.shapeColor light); [|apply framed_ret].
    apply framed_bind; [|intros _; apply framed_handleShapeTemplateRendering].
    destruct (Light.lightsUniforms light);
      [apply framed_handleLightPositioning|apply framed_throw]. }
  intros _.
  apply framed_bind;
    [apply (framed_uniforms _ (fun _ => DefaultUniforms.MATERIAL))|intros _].
  apply framed_popMatrix.
Qed.

Lemma framed_optCall {A} (o : option A) (f : A -> GLCall) :
  framed
    match o with
    | Some a => glCall (f a)
    | None => ret tt
    end.
Proof. destruct o; [apply framed_glCall|apply framed_ret]. Qed.

Lemma framed_assembleSceneObject o : framed (assembleSceneObject o).
Proof.
  intros s. unfold assembleSceneObject.
  destruct (prop (templates s) _) as [model|]; [|apply (framed_throw _ s)].
  destruct (negb (Template.isAnimated model)); [apply (framed_ret tt s)|].
  refine ((_ : framed _) s).
  apply framed_bind; [apply framed_pushMatrix|intros _].
  apply framed_bind.
  { destruct (negb DEBUG); [apply framed_mat4_inplace|apply framed_ret]. }
  intros _.
  apply framed_bind; [apply framed_mat4_inplace|intros _].
  apply framed_bind.
  { apply framed_forEach. intros; apply framed_mat4_inplace. }
  intros _.
  apply framed_bind; [apply framed_mat4_inplace|intros _].
  apply framed_bind;
    [apply (framed_optCall _ (fun c => uniform3f _ c))|intros _].
  apply framed_bind;
    [apply (framed_optCall _ (fun e => Uniform1f _ (JNum e)))|intros _].
  apply framed_bind; [apply framed_handleShapeTemplateRendering|intros _].
  apply framed_bind;
    [apply (framed_optCall _ (fun _ => uniform3f _ _))|intros _].
  apply framed_bind;
    [apply (framed_optCall _ (fun _ => Uniform1f _ _))|intros _].
  apply framed_popMatrix.
Qed.

Lemma framed_render : framed render.
Proof.
  unfold render.
  repeat (apply framed_bind; [apply framed_glCall|intros _]).
  apply framed_bind.
  { intros s. now exists (gl s), (heap s ++ [ViewMatrix (rotator s)]),
      (Some (length (heap s))), (matrixStack s). }
  intros _. apply framed_bind.
  { destruct DEBUG; [apply framed_mat4_inplace|].
    intros s. apply framed_mat4_inplace. }
  intros _. apply framed_bind.
  { intros s. apply framed_forIndexed. apply framed_assembleLight. }
  intros _ s. unfold assembleScene.
  apply framed_forEach. apply framed_assembleSceneObject.
Qed.

Lemma framed_preserves {A X} (c : M A) (f : App -> X) :
  framed c -> sceneOnly f -> preserves f c.
Proof.
  intros Hc Hf s. destruct (Hc s) as (g & h & mv & stk & E).
  rewrite E. apply Hf.
Qed.

Lemma render_preserves {X} (f : App -> X) : sceneOnly f -> preserves f render.
Proof. apply framed_preserves, framed_render. Qed.

Lemma preserves_bind {A B X} (f : App -> X) (c : M A) (k : A -> M B) :
  preserves f c -> (forall a, preserves f (k a)) -> preserves f (c ≫= k).
Proof.
  intros Hc Hk s. unfold mbind, M_bind, bind.
  specialize (Hc s). destruct (c s) as [a s1|e s1]; simpl in Hc.
  - now rewrite Hk.
  - exact Hc.
Qed.

Lemma preserves_forEach {A X} (f : App -> X) (body : A -> M unit) l :
  (forall a, preserves f (body a)) -> preserves f (forEach body l).
Proof.
  intros H. induction l as [|a l IH]; simpl.
  - intros s. reflexivity.
  - apply preserves_bind; [apply H|intros _; apply IH].
Qed.

Lemma preserves_modify {X} (f : App -> X) (u : App -> App) :
  (forall s, f (u s) = f s) -> preserves f (modify u).
Proof. intros H s. apply H. Qed.

(** * Counting calls *)

Lemma issued_execs s s' cs :
  gl s' = execs cs (gl s) -> issued s s' = cs.
Proof.
  intros H. unfold issued. rewrite H, calls_execs. apply drop_app_length.
Qed.

Lemma count_app {A} (p : A -> bool) l1 l2 :
  length (List.filter p (l1 ++ l2)) =
  (length (List.filter p l1) + length (List.filter p l2))%nat.
Proof. now rewrite List.filter_app, length_app. Qed.

Lemma count_none {A} (p : A -> bool) l :
  (forall a, In a l -> p a = false) -> length (List.filter p l) = 0%nat.
Proof.
  induction l as [|a l IH]; intros H; [reflexivity|]. simpl.
  rewrite (H a) by now left. apply IH. intros b Hb. apply H. now right.
Qed.

Lemma drawOrClearOnly_isClear : drawOrClearOnly isClear.
Proof. intros c. destruct c; simpl; intros H; now try discriminate. Qed.

Lemma drawOrClearOnly_drawsTemplate model :
  drawOrClearOnly (drawsTemplate model).
Proof. intros c. destruct c; simpl; intros H; now try discriminate. Qed.

Lemma count_uniformCalls p o keys c :
  drawOrClearOnly p ->
  length (List.filter p (uniformCalls o keys c)) = 0%nat.
Proof.
  intros Hp. apply count_none. intros a Ha.
  unfold uniformCalls in Ha. apply in_map_iff in Ha as (key & <- & _).
  destruct (p (uniformCall o key c)) eqn:E; [|reflexivity].
  apply Hp in E. unfold uniformCall in E.
  destruct c, (js_get o key); simpl in E;
    repeat match type of E with
           | context [String.eqb ?a ?b] => destruct (String.eqb a b)
           end; contradiction.
Qed.

Lemma count_opt_uniforms p (o : option JsObject) (f : JsObject -> JsObject) c :
  drawOrClearOnly p ->
  length (List.filter p match o with
                        | Some u => uniformCalls (f u) (js_keys u) c
                        | None => []
                        end) = 0%nat.
Proof. intros Hp. destruct o; [now apply count_uniformCalls|reflexivity]. Qed.

Lemma count_templateCalls p model cfg m :
  drawOrClearOnly p ->
  length (List.filter p (templateCalls model cfg m)) =
  if p (DrawElements
          (if RenderConfig.isWireFrame cfg then LINE_LOOP else TRIANGLES)
          (Template.count model) (Some (Template.indexBuffer model)))
  then 1%nat else 0%nat.
Proof.
  intros Hp. unfold templateCalls. rewrite !count_app.
  assert (Hno : forall l : list GLCall,
            Forall (fun c => match c with
                             | Clear | DrawElements _ _ _ => False
                             | _ => True
                             end) l ->
            length (List.filter p l) = 0%nat).
  { intros l Hl. apply count_none. intros a Ha.
    rewrite Forall_forall in Hl. specialize (Hl a).
    destruct (p a) eqn:E; [|reflexivity]. apply Hp in E.
    rewrite <- list_elem_of_In in Ha. specialize (Hl Ha).
    destruct a; contradiction. }
  rewrite !Hno
    by (try destruct (RenderConfig.texture cfg);
        try destruct (Template.texCoordsBuffer model); repeat constructor).
  cbn [List.filter]. set (d := DrawElements _ _ _).
  assert (Hother : forall c, match c with
                             | Clear | DrawElements _ _ _ => False
                             | _ => True
                             end -> p c = false).
  { intros c Hc. destruct (p c) eqn:E; [|reflexivity].
    apply Hp in E. destruct c; contradiction. }
  rewrite (Hother (UniformMatrix4fv _ _) I), (Hother (UniformMatrix3fv _ _) I),
    (Hother (BindBuffer _ _) I), !(Hother (DisableVertexAttribArray _) I).
  destruct (p d); reflexivity.
Qed.

Lemma count_lightBodyCalls p ts i light base :
  drawOrClearOnly p ->
  length (List.filter p (lightBodyCalls ts i light base)) =
  match Light.shapeType light, Light.shapeColor light with
  | Some shape, Some _ =>
      match Light.lightsUniforms light, prop ts shape with
      | Some _, Some model =>
          if p (DrawElements TRIANGLES (Template.count model)
                  (Some (Template.indexBuffer model)))
          then 1%nat else 0%nat
      | _, _ => 0%nat
      end
  | _, _ => 0%nat
  end.
Proof.
  intros Hp. unfold lightBodyCalls.
  destruct (Light.shapeType light) as [shape|]; [|reflexivity].
  destruct (Light.shapeColor light) as [sc|]; [|reflexivity].
  destruct (Light.lightsUniforms light) as [lu|]; [|reflexivity].
  destruct (prop ts shape) as [model|]; [|reflexivity].
  cbn [List.filter].
  destruct (p (Uniform4fv _ _)) eqn:E; [now apply Hp in E|].
  now rewrite count_templateCalls.
Qed.

Lemma count_lightCalls p ts i light base :
  drawOrClearOnly p ->
  length (List.filter p (lightCalls ts i light base)) =
  length (List.filter p (lightBodyCalls ts i light base)).
Proof.
  intros Hp. unfold lightCalls. rewrite !count_app.
  rewrite (count_opt_uniforms p _ (fun u => u)) by exact Hp.
  rewrite (count_opt_uniforms p _ (fun u => u)) by exact Hp.
  rewrite (count_opt_uniforms p _ (fun _ => DefaultUniforms.MATERIAL))
    by exact Hp.
  lia.
Qed.

Lemma count_objectCalls p ts F base o :
  drawOrClearOnly p ->
  length (List.filter p (objectCalls ts F base o)) =
  match prop ts (SceneObject.shapeType o) with
  | Some model =>
      if Template.isAnimated model then
        if p (DrawElements
                (if SceneObject.isWireFrame o then LINE_LOOP else TRIANGLES)
                (Template.count model) (Some (Template.indexBuffer model)))
        then 1%nat else 0%nat
      else 0%nat
  | None => 0%nat
  end.
Proof.
  intros Hp. unfold objectCalls.
  destruct (prop ts (SceneObject.shapeType o)) as [model|]; [|reflexivity].
  destruct (Template.isAnimated model); [|reflexivity].
  rewrite !count_app, count_templateCalls by exact Hp.
  assert (H0 : forall l : list GLCall,
            Forall (fun c => match c with
                             | Clear | DrawElements _ _ _ => False
                             | _ => True
                             end) l ->
            length (List.filter p l) = 0%nat).
  { intros l Hl. apply count_none. intros a Ha.
    rewrite Forall_forall in Hl. specialize (Hl a).
    destruct (p a) eqn:E; [|reflexivity]. apply Hp in E.
    rewrite <- list_elem_of_In in Ha. specialize (Hl Ha).
    destruct a; contradiction. }
  rewrite (H0 (materialCalls _)), (H0 (materialResetCalls _)).
  - simpl. lia.
  - unfold materialResetCalls.
    destruct (MaterialUniforms.specularColor _),
      (MaterialUniforms.specularExponent _); repeat constructor.
  - unfold materialCalls.
    destruct (MaterialUniforms.specularColor _),
      (MaterialUniforms.specularExponent _); repeat constructor.
Qed.

Lemma renderPasses_lightsCalls ts base lights :
  forall i, renderPasses (lightsCalls ts base i lights) = 0%nat.
Proof.
  unfold renderPasses.
  induction lights as [|light lights IH]; intros i; [reflexivity|].
  simpl lightsCalls. rewrite count_app, IH, count_lightCalls,
    count_lightBodyCalls by apply drawOrClearOnly_isClear.
  destruct (Light.shapeType light), (Light.shapeColor light),
    (Light.lightsUniforms light); try reflexivity.
  destruct (prop ts _); reflexivity.
Qed.

Lemma renderPasses_objects ts F base objs :
  renderPasses (flat_map (objectCalls ts F base) objs) = 0%nat.
Proof.
  unfold renderPasses.
  induction objs as [|o objs IH]; [reflexivity|].
  simpl flat_map. rewrite count_app, IH, count_objectCalls
    by apply drawOrClearOnly_isClear.
  destruct (prop ts _) as [model|]; [|reflexivity].
  destruct (Template.isAnimated model); reflexivity.
Qed.

(** A render pass clears the canvas exactly once. *)
Lemma renderPasses_renderCalls s : renderPasses (renderCalls s) = 1%nat.
Proof.
  unfold renderCalls.
  pose proof (renderPasses_lightsCalls (templates s) (baseModelview s)
                (lightSourceData s) 0) as Hl.
  pose proof (renderPasses_objects (templates s) (frameNumber s)
                (baseModelview s) (sceneObjectsData s)) as Ho.
  unfold renderPasses in *. rewrite !count_app, Hl, Ho. reflexivity.
Qed.

(** ** Templates and their index buffers *)

Lemma prop_In {A} (ts : list (string * A)) k v :
  prop ts k = Some v -> In (k, v) ts.
Proof.
  induction ts as [|[k' v'] ts IH]; simpl; [discriminate|].
  destruct (String.eqb k' k) eqn:E.
  - apply String.eqb_eq in E. intros [= ->]. left. now subst.
  - intros H. right. now apply IH.
Qed.

Lemma distinctIndexBuffers_inj ts :
  distinctIndexBuffers ts = true ->
  forall k1 m1 k2 m2,
    In (k1, m1) ts -> In (k2, m2) ts ->
    Template.indexBuffer m1 = Template.indexBuffer m2 ->
    k1 = k2 /\ m1 = m2.
Proof.
  induction ts as [|[k m] ts IH]; intros Hd k1 m1 k2 m2 H1 H2 Hib;
    [contradiction|].
  simpl in Hd. apply andb_prop in Hd as [Hhd Htl].
  rewrite forallb_forall in Hhd.
  destruct H1 as [[= <- <-]|H1], H2 as [[= <- <-]|H2].
  - auto.
  - specialize (Hhd _ H2). simpl in Hhd.
    rewrite Hib, Nat.eqb_refl in Hhd. discriminate.
  - specialize (Hhd _ H1). simpl in Hhd.
    rewrite Hib, Nat.eqb_refl in Hhd. discriminate.
  - now apply IH.
Qed.

Lemma same_buffer_same_kind ts k1 m1 k2 m2 :
  distinctIndexBuffers ts = true ->
  prop ts k1 = Some m1 -> prop ts k2 = Some m2 ->
  Nat.eqb (Template.indexBuffer m1) (Template.indexBuffer m2) =
  String.eqb k1 k2.
Proof.
  intros Hd H1 H2. destruct (String.eqb k1 k2) eqn:E.
  - apply String.eqb_eq in E. subst. rewrite H1 in H2. injection H2 as ->.
    apply Nat.eqb_refl.
  - destruct (Nat.eqb _ _) eqn:Eb; [|reflexivity].
    apply Nat.eqb_eq in Eb.
    destruct (distinctIndexBuffers_inj ts Hd k1 m1 k2 m2) as [-> _];
      auto using prop_In.
    rewrite String.eqb_refl in E. discriminate.
Qed.

(** * The assembly functions on any state with a current matrix *)

Lemma as_st s l :
  modelview s = Some l ->
  st s (gl s) (heap s) (Some l) (matrixStack s) = s.
Proof. intros H. rewrite <- H. apply st_self. Qed.

Lemma current_inv s base :
  current s = Some base ->
  exists l, modelview s = Some l /\ heap s !! l = Some base.
Proof.
  unfold current. destruct (modelview s) as [l|]; [|discriminate].
  intros H. now exists l.
Qed.

Lemma assembleLight_spec s i light base :
  lightResolves (templates s) light = true ->
  current s = Some base ->
  exists s',
    assembleLight i light s = Ok tt s'
    /\ gl s' = execs (lightCalls (templates s) i light base) (gl s)
    /\ matrixStack s' = matrixStack s
    /\ current s' = Some base
    /\ length (heap s') = S (length (heap s)).
Proof.
  intros Hres Hcur. destruct (current_inv _ _ Hcur) as (l & Hl & Hm).
  destruct (assembleLight_st s (gl s) (heap s) l (matrixStack s) i light base
              Hres Hm) as (h' & Hrun & Hm' & Hlen).
  rewrite (as_st _ _ Hl) in Hrun.
  eexists. split; [exact Hrun|]. repeat split; assumption.
Qed.

Lemma assembleSceneObject_spec s o base :
  objectResolves (templates s) o = true ->
  current s = Some base ->
  exists s',
    assembleSceneObject o s = Ok tt s'
    /\ gl s' = execs (objectCalls (templates s) (frameNumber s) base o) (gl s)
    /\ matrixStack s' = matrixStack s
    /\ current s' = Some base.
Proof.
  intros Hres Hcur. destruct (current_inv _ _ Hcur) as (l & Hl & Hm).
  destruct (assembleSceneObject_st s (gl s) (heap s) l (matrixStack s) o base
              Hres Hm) as (h' & l' & Hrun & Hm' & Hlen).
  rewrite (as_st _ _ Hl) in Hrun.
  eexists. split; [exact Hrun|]. repeat split; assumption.
Qed.

Lemma assembleScene_spec s base :
  forallb (objectResolves (templates s)) (sceneObjectsData s) = true ->
  current s = Some base ->
  exists s',
    assembleScene s = Ok tt s'
    /\ gl s' = execs (flat_map (objectCalls (templates s) (frameNumber s) base)
                        (sceneObjectsData s)) (gl s)
    /\ matrixStack s' = matrixStack s
    /\ current s' = Some base.
Proof.
  intros Hres Hcur. destruct (current_inv _ _ Hcur) as (l & Hl & Hm).
  destruct (assembleObjects_st s (matrixStack s) base (sceneObjectsData s)
              (gl s) (heap s) l Hres Hm) as (h' & l' & Hrun & Hm' & Hlen).
  rewrite (as_st _ _ Hl) in Hrun.
  eexists. split; [exact Hrun|]. repeat split; assumption.
Qed.

Lemma render_spec s :
  resolves s = true ->
  exists h l,
    render s = Ok tt (st s (execs (renderCalls s) (gl s)) h (Some l)
                        (matrixStack s))
    /\ h !! l = Some (baseModelview s).
Proof.
  intros Hres.
  destruct (render_st s (gl s) (heap s) (modelview s) (matrixStack s) Hres)
    as (h & l & Hrun & Hm & _).
  rewrite st_self in Hrun. now exists h, l.
Qed.

(** * The transform stack during a render pass *)

(** C6: on a scene whose shape types all have a template, every light and
    every scene object, hidden ones included, is assembled with the matrix
    stack left exactly as it was found and the current matrix restored, so
    that the next sibling starts from the same matrix; and a full render
    pass returns with the stack as it found it, so with depth 0 when it
    started from the empty stack that [init] sets up. *)
Theorem transform_stack_balanced (s : App) :
  resolves s = true ->
  (forall i light base,
     In light (lightSourceData s) -> current s = Some base ->
     exists s',
       assembleLight i light s = Ok tt s'
       /\ matrixStack s' = matrixStack s /\ current s' = Some base)
  /\
  (forall o base,
     In o (sceneObjectsData s) -> current s = Some base ->
     exists s',
       assembleSceneObject o s = Ok tt s'
       /\ matrixStack s' = matrixStack s /\ current s' = Some base)
  /\
  (exists s',
     render s = Ok tt s'
     /\ matrixStack s' = matrixStack s
     /\ (matrixStack s = [] -> length (matrixStack s') = 0%nat)).
Proof.
  intros Hres. pose proof Hres as Hres'. unfold resolves in Hres'.
  apply andb_prop in Hres' as [Hlights Hobjs].
  rewrite forallb_forall in Hlights, Hobjs.
  split; [|split].
  - intros i light base Hin Hcur.
    destruct (assembleLight_spec s i light base (Hlights _ Hin) Hcur)
      as (s' & Hrun & _ & Hstk & Hcur' & _).
    now exists s'.
  - intros o base Hin Hcur.
    destruct (assembleSceneObject_spec s o base (Hobjs _ Hin) Hcur)
      as (s' & Hrun & _ & Hstk & Hcur').
    now exists s'.
  - destruct (render_spec s Hres) as (h & l & Hrun & _).
    eexists. split; [exact Hrun|]. split; [reflexivity|].
    intros E. simpl. now rewrite E.
Qed.

Lemma transform_stack_balanced_witness :
  (forall i light base,
     In light (lightSourceData exampleState) ->
     current exampleState = Some base ->
     exists s',
       assembleLight i light exampleState = Ok tt s'
       /\ matrixStack s' = matrixStack exampleState
       /\ current s' = Some base)
  /\
  (forall o base,
     In o (sceneObjectsData exampleState) ->
     current exampleState = Some base ->
     exists s',
       assembleSceneObject o exampleState = Ok tt s'
       /\ matrixStack s' = matrixStack exampleState
       /\ current s' = Some base)
  /\
  (exists s',
     render exampleState = Ok tt s'
     /\ matrixStack s' = matrixStack exampleState
     /\ (matrixStack exampleState = [] -> length (matrixStack s') = 0%nat)).
Proof. apply transform_stack_balanced. vm_compute. reflexivity. Defined.

(** * The order of an object's transformations *)

Lemma modelviewUploads_app cs1 cs2 :
  modelviewUploads (cs1 ++ cs2) =
  modelviewUploads cs1 ++ modelviewUploads cs2.
Proof. apply flat_map_app. Qed.

Lemma modelviewUploads_templateCalls model cfg m :
  modelviewUploads (templateCalls model cfg m) = [m].
Proof.
  unfold templateCalls. rewrite !modelviewUploads_app.
  destruct (Template.texCoordsBuffer model), (RenderConfig.texture cfg);
    reflexivity.
Qed.

(** C8: a visible scene object is drawn, at frame [F], with the matrix
    obtained from the current one by, in this order, a rotation of [-F]
    degrees about the y-axis, the object's translation, for each axis its
    [rotate] map declares (and for no other), in the order declared, a
    rotation of [F] times the declared rate in degrees about that axis
    ([mat4.rotateX], [mat4.rotateY], [mat4.rotateZ]), and the object's
    scale; that matrix is the only model-view matrix the object uploads.
    With no axis declared the translation is followed by the scale at
    once. *)
Theorem object_transform_order
    (s : App) (o : SceneObject.t) (model : Template.t) (base : Mat4) :
  prop (templates s) (SceneObject.shapeType o) = Some model ->
  Template.isAnimated model = true ->
  current s = Some base ->
  let F := frameNumber s in
  let tr := SceneObject.transformations o in
  let orbit := Rotate base (DegToRad (- F)) [num 0; num 1; num 0] in
  let placed := Translate orbit (Transformations.translate tr) in
  let spun :=
    fold_left (fun m kv =>
                 match fst kv with
                 | Axis.x => RotateX m (DegToRad (F * snd kv))
                 | Axis.y => RotateY m (DegToRad (F * snd kv))
                 | Axis.z => RotateZ m (DegToRad (F * snd kv))
                 end)
      (Transformations.rotate tr) placed in
  exists s',
    assembleSceneObject o s = Ok tt s'
    /\ modelviewUploads (issued s s') =
       [Scale spun (Transformations.scale tr)]
    /\ (Transformations.rotate tr = [] ->
        modelviewUploads (issued s s') =
        [Scale placed (Transformations.scale tr)])
    /\ (forall rx ry,
          Transformations.rotate tr = [(Axis.x, rx); (Axis.y, ry)] ->
          modelviewUploads (issued s s') =
          [Scale (RotateY (RotateX placed (DegToRad (F * rx)))
                    (DegToRad (F * ry)))
             (Transformations.scale tr)]).
Proof.
  intros Ht Hvis Hcur F tr orbit placed spun.
  assert (Hres : objectResolves (templates s) o = true)
    by (unfold objectResolves; now rewrite Ht).
  destruct (assembleSceneObject_spec s o base Hres Hcur)
    as (s' & Hrun & Hgl & _).
  exists s'. split; [exact Hrun|].
  assert (Hspin : forall l m,
            fold_left
              (fun m kv => rotateAxis (fst kv) m (DegToRad (F * snd kv)))
              l m =
            fold_left
              (fun m kv =>
                 match fst kv with
                 | Axis.x => RotateX m (DegToRad (F * snd kv))
                 | Axis.y => RotateY m (DegToRad (F * snd kv))
                 | Axis.z => RotateZ m (DegToRad (F * snd kv))
                 end) l m).
  { induction l as [|[k v] l IH]; intros m; [reflexivity|].
    cbn [fold_left fst snd]. rewrite IH. now destruct k. }
  assert (Hup : modelviewUploads (issued s s') =
                [Scale spun (Transformations.scale tr)]).
  { rewrite (issued_execs _ _ _ Hgl). unfold objectCalls.
    rewrite Ht, Hvis, !modelviewUploads_app, modelviewUploads_templateCalls.
    unfold materialCalls, materialResetCalls, objectModelview.
    fold F tr. rewrite Hspin.
    destruct (MaterialUniforms.specularColor _),
      (MaterialUniforms.specularExponent _); reflexivity. }
  split; [exact Hup|]. split.
  - intros E. rewrite Hup. unfold spun. now rewrite E.
  - intros rx ry E. rewrite Hup. unfold spun. now rewrite E.
Qed.

Lemma object_transform_order_witness :
  exists s',
    assembleSceneObject exampleObject exampleRunning = Ok tt s'
    /\ modelviewUploads (issued exampleRunning s') =
       [Scale
          (RotateY
             (RotateX
                (Translate
                   (Rotate (baseModelview exampleRunning)
                      (DegToRad (- frameNumber exampleRunning))
                      [num 0; num 1; num 0])
                   (Transformations.translate
                      (SceneObject.transformations exampleObject)))
                (DegToRad (frameNumber exampleRunning * -9)))
             (DegToRad (frameNumber exampleRunning * 2)))
          (Transformations.scale (SceneObject.transformations exampleObject))].
Proof.
  assert (H1 : prop (templates exampleRunning)
                 (SceneObject.shapeType exampleObject) = Some exampleModel)
    by (vm_compute; reflexivity).
  assert (H2 : Template.isAnimated exampleModel = true)
    by (vm_compute; reflexivity).
  assert (H3 : current exampleRunning = Some (baseModelview exampleRunning))
    by (vm_compute; reflexivity).
  destruct (object_transform_order exampleRunning exampleObject exampleModel
              (baseModelview exampleRunning) H1 H2 H3) as (s' & A & _ & _ & B).
  exists s'. split; [exact A|]. exact (B (-9) 2 eq_refl).
Defined.

(** * Hidden shape kinds *)

Lemma drawsOf_objects_hidden ts F base K model objs :
  distinctIndexBuffers ts = true ->
  prop ts K = Some model ->
  Template.isAnimated model = false ->
  drawsOf model (flat_map (objectCalls ts F base) objs) = 0%nat.
Proof.
  intros Hd HK Hhid. unfold drawsOf.
  induction objs as [|o objs IH]; [reflexivity|].
  simpl flat_map. rewrite count_app, IH, count_objectCalls
    by apply drawOrClearOnly_drawsTemplate.
  destruct (prop ts (SceneObject.shapeType o)) as [m|] eqn:Ho; [|reflexivity].
  destruct (Template.isAnimated m) eqn:Hvis; [|reflexivity].
  cbn [drawsTemplate].
  rewrite (same_buffer_same_kind ts _ m K model Hd Ho HK).
  destruct (String.eqb _ K) eqn:E; [|reflexivity].
  apply String.eqb_eq in E. subst K. congruence.
Qed.

Lemma drawsOf_lights ts base K model lights :
  distinctIndexBuffers ts = true ->
  prop ts K = Some model ->
  forallb (lightResolves ts) lights = true ->
  forall i,
    drawsOf model (lightsCalls ts base i lights) =
    length (List.filter (hasBodyOfKind K) lights).
Proof.
  intros Hd HK. unfold drawsOf.
  induction lights as [|light lights IH]; intros Hres i; [reflexivity|].
  simpl in Hres. apply andb_prop in Hres as [Hl Hres].
  simpl lightsCalls. rewrite count_app, (IH Hres), count_lightCalls,
    count_lightBodyCalls by apply drawOrClearOnly_drawsTemplate.
  cbn [List.filter]. unfold hasBodyOfKind. unfold lightResolves in Hl.
  destruct (Light.shapeType light) as [shape|]; [|reflexivity].
  destruct (Light.shapeColor light) as [sc|]; [|reflexivity].
  destruct (Light.lightsUniforms light) as [lu|]; [|discriminate].
  destruct (prop ts shape) as [m|] eqn:Hm; [|discriminate].
  cbn [drawsTemplate].
  rewrite (same_buffer_same_kind ts _ m K model Hd Hm HK).
  destruct (String.eqb shape K); reflexivity.
Qed.

(** What the code does with a hidden kind: the shape pass issues no draw
    call that references its template, whereas the light pass never
    consults the flag; a full render pass therefore issues exactly one such
    draw call for each light whose body is of that kind, and no other. *)
Theorem hidden_kind_drawn_only_as_light_body
    (s : App) (K : string) (model : Template.t) :
  resolves s = true ->
  distinctIndexBuffers (templates s) = true ->
  prop (templates s) K = Some model ->
  Template.isAnimated model = false ->
  (forall base,
     current s = Some base ->
     exists s',
       assembleScene s = Ok tt s' /\ drawsOf model (issued s s') = 0%nat)
  /\
  (exists s',
     render s = Ok tt s'
     /\ drawsOf model (issued s s') =
        length (List.filter (hasBodyOfKind K) (lightSourceData s))).
Proof.
  intros Hres Hd HK Hhid. pose proof Hres as Hres'. unfold resolves in Hres'.
  apply andb_prop in Hres' as [Hlights Hobjs]. split.
  - intros base Hcur.
    destruct (assembleScene_spec s base Hobjs Hcur) as (s' & Hrun & Hgl & _).
    exists s'. split; [exact Hrun|].
    rewrite (issued_execs _ _ _ Hgl).
    now apply (drawsOf_objects_hidden _ _ _ K).
  - destruct (render_spec s Hres) as (h & l & Hrun & _).
    eexists. split; [exact Hrun|].
    rewrite (issued_execs s _ (renderCalls s)) by reflexivity.
    unfold renderCalls, drawsOf. rewrite !count_app.
    pose proof (drawsOf_objects_hidden (templates s) (frameNumber s)
                  (baseModelview s) K model (sceneObjectsData s) Hd HK Hhid)
      as Ho.
    pose proof (drawsOf_lights (templates s) (baseModelview s) K model
                  (lightSourceData s) Hd HK Hlights 0) as Hl.
    unfold drawsOf in Ho, Hl. rewrite Ho, Hl. cbn [List.filter drawsTemplate].
    simpl length. lia.
Qed.

Lemma hidden_kind_drawn_only_as_light_body_witness :
  (forall base,
     current exampleHidden = Some base ->
     exists s',
       assembleScene exampleHidden = Ok tt s'
       /\ drawsOf (Template.set_isAnimated false
                     (assembleShapeTemplate "Sphere" 26 true 3072))
            (issued exampleHidden s') = 0%nat)
  /\
  (exists s',
     render exampleHidden = Ok tt s'
     /\ drawsOf (Template.set_isAnimated false
                   (assembleShapeTemplate "Sphere" 26 true 3072))
          (issued exampleHidden s') =
        length (List.filter (hasBodyOfKind "Sphere")
                  (lightSourceData exampleHidden))).
Proof.
  apply hidden_kind_drawn_only_as_light_body; vm_compute; reflexivity.
Defined.

(** C1 at its failing input: with the spheres hidden through their
    checkbox, a full render pass returns and has still issued a draw call
    that references the sphere template, for the body of the sun light. *)
Lemma hidden_sphere_is_still_drawn :
  exists model,
    prop (templates exampleHidden) "Sphere" = Some model
    /\ Template.isAnimated model = false
    /\ returns (render exampleHidden) = true
    /\ drawsOf model
         (issued exampleHidden (final (render exampleHidden))) = 1%nat.
Proof.
  exists (Template.set_isAnimated false
            (assembleShapeTemplate "Sphere" 26 true 3072)).
  vm_compute. repeat split.
Qed.

(** * The frame driver *)

Lemma handleFrame_running s :
  resolves s = true ->
  isSceneAnimated s = true ->
  exists s',
    handleFrame s = Ok tt s'
    /\ frameNumber s' = frameNumber s + 1
    /\ isSceneAnimated s' = true
    /\ animationFrameRequests s' = S (animationFrameRequests s)
    /\ resolves s' = true
    /\ renderPasses (issued s s') = 1%nat
    /\ matrixStack s' = matrixStack s.
Proof.
  intros Hres Hrun. unfold handleFrame. rewrite Hrun.
  set (s1 := set_frameNumber (frameNumber s + 1) s).
  assert (Hres1 : resolves s1 = true) by exact Hres.
  destruct (render_spec s1 Hres1) as (h & l & Hrender & _).
  assert (E : modify (fun s => set_frameNumber (frameNumber s + 1) s) s =
              Ok tt s1) by reflexivity.
  rewrite (bind_Ok _ _ _ _ _ E), (bind_Ok _ _ _ _ _ Hrender).
  eexists. split; [reflexivity|].
  repeat split; try assumption.
  rewrite (issued_execs s _ (renderCalls s1)) by reflexivity.
  apply renderPasses_renderCalls.
Qed.

Lemma onAnimationFrame_running s :
  resolves s = true ->
  isSceneAnimated s = true ->
  (0 < animationFrameRequests s)%nat ->
  exists s',
    onAnimationFrame s = Ok tt s'
    /\ frameNumber s' = frameNumber s + 1
    /\ isSceneAnimated s' = true
    /\ animationFrameRequests s' = animationFrameRequests s
    /\ resolves s' = true
    /\ renderPasses (issued s s') = 1%nat
    /\ matrixStack s' = matrixStack s.
Proof.
  intros Hres Hrun Hpending. unfold onAnimationFrame.
  destruct (animationFrameRequests s) as [|n] eqn:En; [lia|].
  destruct (handleFrame_running (set_animationFrameRequests n s) Hres Hrun)
    as (s' & H & HF & HA & HR & Hres' & HP & HS).
  exists s'. repeat split; assumption.
Qed.

Lemma run_app es1 es2 s : run (es1 ++ es2) s = run es2 (run es1 s).
Proof. apply fold_left_app. Qed.

Lemma run_cons e es s : run (e :: es) s = run es (final (dispatch e s)).
Proof. reflexivity. Qed.

Lemma run_ticks n : forall s,
  resolves s = true ->
  isSceneAnimated s = true ->
  (0 < animationFrameRequests s)%nat ->
  let s' := run (repeat AnimationFrame n) s in
  frameNumber s' = frameNumber s + Z.of_nat n
  /\ isSceneAnimated s' = true
  /\ resolves s' = true
  /\ matrixStack s' = matrixStack s.
Proof.
  induction n as [|n IH]; intros s Hres Hrun Hp.
  - simpl. rewrite Z.add_0_r. auto.
  - destruct (onAnimationFrame_running s Hres Hrun Hp)
      as (s1 & H & HF & HA & HR & Hres1 & _ & HS).
    simpl repeat. rewrite run_cons. simpl dispatch. rewrite H. simpl final.
    destruct (IH s1 Hres1 HA) as (HF' & HA' & Hres' & HS'); [lia|].
    cbv zeta. rewrite HF', HF, HS', HS. repeat split; auto. lia.
Qed.

(** The frame [handleFrame] runs: the counter first, then a render pass
    made with the counter as incremented, then the request. *)
Lemma handleFrame_pass s :
  resolves s = true ->
  isSceneAnimated s = true ->
  exists s',
    handleFrame s = Ok tt s'
    /\ frameNumber s' = frameNumber s + 1
    /\ issued s s' = renderCalls (set_frameNumber (frameNumber s + 1) s)
    /\ animationFrameRequests s' = S (animationFrameRequests s)
    /\ isSceneAnimated s' = true.
Proof.
  intros Hres Hrun. unfold handleFrame. rewrite Hrun.
  set (s1 := set_frameNumber (frameNumber s + 1) s).
  assert (Hres1 : resolves s1 = true) by exact Hres.
  destruct (render_spec s1 Hres1) as (h & l & Hrender & _).
  assert (E : modify (fun s => set_frameNumber (frameNumber s + 1) s) s =
              Ok tt s1) by reflexivity.
  rewrite (bind_Ok _ _ _ _ _ E), (bind_Ok _ _ _ _ _ Hrender).
  eexists. split; [reflexivity|].
  split; [reflexivity|]. split; [|split; [reflexivity|exact Hrun]].
  now rewrite (issued_execs s _ (renderCalls s1)) by reflexivity.
Qed.

(** When the render pass of a frame throws, the frame ends there: the
    counter has been incremented and no frame has been requested. *)
Lemma handleFrame_throws s :
  isSceneAnimated s = true ->
  returns (render (set_frameNumber (frameNumber s + 1) s)) = false ->
  returns (handleFrame s) = false
  /\ frameNumber (final (handleFrame s)) = frameNumber s + 1
  /\ animationFrameRequests (final (handleFrame s)) =
     animationFrameRequests s.
Proof.
  intros Hrun Hthrow. unfold handleFrame. rewrite Hrun.
  set (s1 := set_frameNumber (frameNumber s + 1) s) in *.
  assert (E : modify (fun s => set_frameNumber (frameNumber s + 1) s) s =
              Ok tt s1) by reflexivity.
  rewrite (bind_Ok _ _ _ _ _ E).
  pose proof (render_preserves frameNumber
                (fun s g h mv stk => eq_refl) s1) as HF.
  pose proof (render_preserves animationFrameRequests
                (fun s g h mv stk => eq_refl) s1) as HA.
  destruct (render s1) as [[] s2|e s2] eqn:Hr; [discriminate|].
  rewrite (bind_Throw _ _ _ _ _ Hr). cbn [returns final] in *.
  split; [reflexivity|]. split; [exact HF|exact HA].
Qed.

(** C7, as the code has it: a scheduled tick while the animation runs adds
    exactly 1 to the frame counter, then makes exactly one render pass,
    which is a pass at the counter as incremented, and then requests the
    next tick; when that render pass throws, the counter has been
    incremented and no tick is requested.  The start command runs the
    first such frame itself, at once; so start, [n] scheduled ticks and
    stop leave the counter [n + 1] above where it was, with the animation
    stopped.  The counter is a binary64 number in the program: what is
    stated holds while it stays below [2^53], where adding 1 is exact. *)
Theorem frames_counted_from_start (t s b : App) (n : nat) :
  resolves t = true ->
  isSceneAnimated t = true ->
  (0 < animationFrameRequests t)%nat ->
  0 <= frameNumber t < 2 ^ 53 ->
  resolves s = true ->
  isSceneAnimated s = false ->
  0 <= frameNumber s ->
  frameNumber s + Z.of_nat n + 1 <= 2 ^ 53 ->
  isSceneAnimated b = true ->
  0 <= frameNumber b < 2 ^ 53 ->
  returns (render (set_frameNumber (frameNumber b + 1) b)) = false ->
  (exists t',
     onAnimationFrame t = Ok tt t'
     /\ frameNumber t' = frameNumber t + 1
     /\ issued t t' = renderCalls (set_frameNumber (frameNumber t + 1) t)
     /\ renderPasses (issued t t') = 1%nat
     /\ animationFrameRequests t' = animationFrameRequests t
     /\ isSceneAnimated t' = true)
  /\
  (returns (handleFrame b) = false
   /\ frameNumber (final (handleFrame b)) = frameNumber b + 1
   /\ animationFrameRequests (final (handleFrame b)) =
      animationFrameRequests b)
  /\
  (exists s',
     handleAnimationStart s = Ok tt s'
     /\ frameNumber s' = frameNumber s + 1
     /\ issued s s' = renderCalls (set_frameNumber (frameNumber s + 1) s)
     /\ renderPasses (issued s s') = 1%nat
     /\ animationFrameRequests s' = S (animationFrameRequests s)
     /\ isSceneAnimated s' = true)
  /\
  frameNumber
    (run (StartAnimation :: repeat AnimationFrame n ++ [StopAnimation]) s) =
  frameNumber s + Z.of_nat n + 1
  /\
  isSceneAnimated
    (run (StartAnimation :: repeat AnimationFrame n ++ [StopAnimation]) s) =
  false.
Proof.
  intros Hrest Hrunt Hp _ Hres Hstop _ _ Hrunb _ Hthrow.
  split; [|split; [now apply handleFrame_throws|]].
  - unfold onAnimationFrame.
    destruct (animationFrameRequests t) as [|k] eqn:Ek; [lia|].
    destruct (handleFrame_pass (set_animationFrameRequests k t) Hrest Hrunt)
      as (t' & H & HF & HI & HR & HA).
    exists t'. split; [exact H|]. split; [exact HF|].
    assert (HI' : issued t t' =
                  renderCalls (set_frameNumber (frameNumber t + 1) t))
      by exact HI.
    split; [exact HI'|]. split; [|split; [exact HR|exact HA]].
    rewrite HI'. apply renderPasses_renderCalls.
  - destruct (handleFrame_pass (set_isSceneAnimated true s) Hres eq_refl)
      as (s1 & H & HF & HI & HR & HA).
    assert (Hstart : handleAnimationStart s = Ok tt s1).
    { unfold handleAnimationStart. rewrite Hstop. exact H. }
    assert (HI' : issued s s1 =
                  renderCalls (set_frameNumber (frameNumber s + 1) s))
      by exact HI.
    split.
    { exists s1. split; [exact Hstart|]. split; [exact HF|].
      split; [exact HI'|]. split; [|split; [exact HR|exact HA]].
      rewrite HI'. apply renderPasses_renderCalls. }
    destruct (handleFrame_running (set_isSceneAnimated true s) Hres eq_refl)
      as (s2 & H2 & _ & _ & _ & Hres1 & _).
    assert (s2 = s1) by congruence. subst s2.
    rewrite run_cons. simpl dispatch. rewrite Hstart. simpl final.
    rewrite run_app.
    destruct (run_ticks n s1 Hres1 HA) as (HF' & HA' & _); [simpl in *; lia|].
    simpl run at 1. simpl run at 2.
    unfold handleAnimationStop. rewrite HA'. simpl.
    split; [|reflexivity]. rewrite HF', HF. simpl. lia.
Qed.

Lemma frames_counted_from_start_witness :
  (exists t',
     onAnimationFrame exampleRunning = Ok tt t'
     /\ frameNumber t' = frameNumber exampleRunning + 1
     /\ issued exampleRunning t' =
        renderCalls
          (set_frameNumber (frameNumber exampleRunning + 1) exampleRunning)
     /\ renderPasses (issued exampleRunning t') = 1%nat
     /\ animationFrameRequests t' = animationFrameRequests exampleRunning
     /\ isSceneAnimated t' = true)
  /\
  (returns (handleFrame exampleBroken) = false
   /\ frameNumber (final (handleFrame exampleBroken)) =
      frameNumber exampleBroken + 1
   /\ animationFrameRequests (final (handleFrame exampleBroken)) =
      animationFrameRequests exampleBroken)
  /\
  (exists s',
     handleAnimationStart exampleState = Ok tt s'
     /\ frameNumber s' = frameNumber exampleState + 1
     /\ issued exampleState s' =
        renderCalls
          (set_frameNumber (frameNumber exampleState + 1) exampleState)
     /\ renderPasses (issued exampleState s') = 1%nat
     /\ animationFrameRequests s' = S (animationFrameRequests exampleState)
     /\ isSceneAnimated s' = true)
  /\
  frameNumber
    (run (StartAnimation :: repeat AnimationFrame 10 ++ [StopAnimation])
       exampleState) =
  frameNumber exampleState + Z.of_nat 10 + 1
  /\
  isSceneAnimated
    (run (StartAnimation :: repeat AnimationFrame 10 ++ [StopAnimation])
       exampleState) =
  false.
Proof.
  apply (frames_counted_from_start exampleRunning exampleState exampleBroken
           10).
  - vm_compute; reflexivity.
  - vm_compute; reflexivity.
  - vm_compute; lia.
  - vm_compute; split; [discriminate|reflexivity].
  - vm_compute; reflexivity.
  - vm_compute; reflexivity.
  - vm_compute; discriminate.
  - vm_compute; discriminate.
  - vm_compute; reflexivity.
  - vm_compute; split; [discriminate|reflexivity].
  - vm_compute; reflexivity.
Defined.

(** C7, as the claim states it, fails: from frame counter 0, start, ten
    scheduled ticks and stop leave the counter at 11, not 10. *)
Lemma start_ten_ticks_stop_counts_eleven :
  frameNumber exampleState = 0
  /\ isSceneAnimated exampleState = false
  /\ frameNumber
       (run (StartAnimation :: repeat AnimationFrame 10 ++ [StopAnimation])
          exampleState) = 11
  /\ isSceneAnimated
       (run (StartAnimation :: repeat AnimationFrame 10 ++ [StopAnimation])
          exampleState) = false.
Proof. vm_compute. repeat split. Qed.

(** * Zooming *)

Lemma num_add a b : num (a + b) = (num a + num b)%Qc.
Proof.
  apply Qc_is_canon. unfold num, Qcplus, Q2Qc. cbn [this].
  rewrite !Qred_correct, inject_Z_plus. reflexivity.
Qed.

Lemma num_opp a : num (- a) = (- num a)%Qc.
Proof.
  apply Qc_is_canon. unfold num, Qcopp, Q2Qc. cbn [this].
  rewrite !Qred_correct, inject_Z_opp. reflexivity.
Qed.

Lemma sceneOnly_sceneScale : sceneOnly sceneScale.
Proof. intros s g h mv stk. reflexivity. Qed.

Lemma renderUnlessAnimated_preserves {X} (f : App -> X) :
  sceneOnly f -> preserves f renderUnlessAnimated.
Proof.
  intros Hf s. unfold renderUnlessAnimated.
  destruct (negb (isSceneAnimated s)); [|reflexivity].
  now apply render_preserves.
Qed.

Lemma onWheel_sceneScale wheelDelta s :
  sceneScale (final (onWheel wheelDelta s)) =
  (sceneScale s + Math_sign wheelDelta / 10)%float.
Proof.
  unfold onWheel, mbind, M_bind, bind, modify.
  now rewrite (renderUnlessAnimated_preserves sceneScale sceneOnly_sceneScale).
Qed.

Lemma wheel_sceneScale ds : forall s,
  sceneScale (run (map Wheel ds) s) = zoomed (sceneScale s) ds.
Proof.
  induction ds as [|d ds IH]; intros s; [reflexivity|].
  cbn [map]. rewrite run_cons. cbn [dispatch].
  rewrite IH, onWheel_sceneScale. reflexivity.
Qed.

(** * Reset *)

Lemma resetTemplate_preserves {X} (f : App -> X) k :
  (forall s v, f (set_templates v s) = f s) ->
  (forall s v, f (set_checkboxes v s) = f s) ->
  preserves f (resetTemplate k).
Proof.
  intros Ht Hc s. unfold resetTemplate.
  destruct (prop (templates s) k) as [model|]; [|reflexivity].
  unfold mbind, M_bind, bind, checkElement, modify.
  destruct (prop (checkboxes s) _); [|reflexivity].
  simpl. now rewrite Ht, Hc.
Qed.

Lemma handleReset_final s :
  final (handleReset s) =
  final ((((fun s => forEach resetTemplate (map fst (templates s)) s) : M unit);;
          render)
           (set_isSceneAnimated false
              (set_sceneScale 1%float
                 (set_frameNumber 0
                    (set_rotator (SetView 17 [0; 1; 2]) s))))).
Proof. reflexivity. Qed.

(** Whatever the state, and whether or not it runs to its end,
    [handleReset] leaves behind what it assigned first and nothing else of
    the scene but the templates and the checkboxes. *)
Lemma handleReset_preserves {X} (f : App -> X) s :
  sceneOnly f ->
  (forall s v, f (set_templates v s) = f s) ->
  (forall s v, f (set_checkboxes v s) = f s) ->
  f (final (handleReset s)) =
  f (set_isSceneAnimated false
       (set_sceneScale 1%float
          (set_frameNumber 0 (set_rotator (SetView 17 [0; 1; 2]) s)))).
Proof.
  intros Hs Ht Hc. rewrite handleReset_final.
  apply (preserves_bind f).
  - intros s0. apply preserves_forEach. intros k.
    now apply resetTemplate_preserves.
  - intros _. now apply render_preserves.
Qed.

Lemma handleReset_sceneScale s : sceneScale (final (handleReset s)) = 1%float.
Proof. now rewrite (handleReset_preserves sceneScale). Qed.

(** * The zoom factor *)

(** C10, as the code has it: the wheel listener adds the sign of the wheel
    delta, divided by 10, to the zoom factor in binary64 arithmetic and
    never clamps it; after a reset and any wheel events the factor is what
    these additions make of 1, one after the other.  Ten zoom-outs in a
    row bring it to [0x1.4p-53] (1.3877787807814457e-16), above 0, an
    eleventh to [-0x1.999999999999p-4] (-0.09999999999999987), below 0,
    and a wheel event without [wheelDelta] to NaN; and a render pass
    scales the view by the zoom factor as it is, whatever it is. *)
Theorem zoom_factor_is_not_clamped (s : App) (ds : list Z) :
  resolves s = true ->
  (forall wheelDelta,
     sceneScale (final (onWheel wheelDelta s)) =
     (sceneScale s + Math_sign wheelDelta / 10)%float)
  /\
  sceneScale (run (map Wheel ds) (final (handleReset s))) = zoomed 1 ds
  /\
  sceneScale (run (map Wheel (repeat (-120) 10)) (final (handleReset s))) =
  0x1.4p-53%float
  /\
  sceneScale (run (map Wheel (repeat (-120) 11)) (final (handleReset s))) =
  (-0x1.999999999999p-4)%float
  /\
  sceneScale (run [WheelNoDelta] (final (handleReset s))) = nan
  /\
  (exists s',
     render s = Ok tt s'
     /\ current s' =
        Some (ScaleBy (ViewMatrix (rotator s))
                [sceneScale s; sceneScale s; sceneScale s])).
Proof.
  intros Hres.
  split; [intros d; apply onWheel_sceneScale|].
  split; [now rewrite wheel_sceneScale, handleReset_sceneScale|].
  split; [|split; [|split]].
  - rewrite wheel_sceneScale, handleReset_sceneScale.
    vm_compute. reflexivity.
  - rewrite wheel_sceneScale, handleReset_sceneScale.
    vm_compute. reflexivity.
  - unfold run. cbn [fold_left dispatch].
    rewrite onWheel_sceneScale, handleReset_sceneScale.
    vm_compute. reflexivity.
  - destruct (render_spec s Hres) as (h & l & Hrun & Hm).
    eexists. split; [exact Hrun|]. exact Hm.
Qed.

Lemma zoom_factor_is_not_clamped_witness :
  (forall wheelDelta,
     sceneScale (final (onWheel wheelDelta exampleZoomedOut)) =
     (sceneScale exampleZoomedOut + Math_sign wheelDelta / 10)%float)
  /\
  sceneScale (run (map Wheel [120; -120; -120])
                (final (handleReset exampleZoomedOut))) =
  zoomed 1 [120; -120; -120]
  /\
  sceneScale (run (map Wheel (repeat (-120) 10))
                (final (handleReset exampleZoomedOut))) =
  0x1.4p-53%float
  /\
  sceneScale (run (map Wheel (repeat (-120) 11))
                (final (handleReset exampleZoomedOut))) =
  (-0x1.999999999999p-4)%float
  /\
  sceneScale (run [WheelNoDelta] (final (handleReset exampleZoomedOut))) = nan
  /\
  (exists s',
     render exampleZoomedOut = Ok tt s'
     /\ current s' =
        Some (ScaleBy (ViewMatrix (rotator exampleZoomedOut))
                [sceneScale exampleZoomedOut; sceneScale exampleZoomedOut;
                 sceneScale exampleZoomedOut])).
Proof.
  apply (zoom_factor_is_not_clamped exampleZoomedOut [120; -120; -120]).
  vm_compute. reflexivity.
Defined.

(** C10, as the claim states it, fails: the zoom factor is not
    [1 + (u - d) / 10].  After a reset and two zoom-ins it is
    [0x1.3333333333334p+0] (1.2000000000000002), whereas [1 + (2 - 0) / 10]
    is [0x1.3333333333333p+0] (1.2); after ten zoom-outs it is
    [0x1.4p-53], not the 0 that [1 + (0 - 10) / 10] is, so the factor has
    not reached 0 and is still positive. *)
Lemma zoom_factor_differs_from_the_formula :
  sceneScale (run (map Wheel [120; 120]) (final (handleReset exampleState))) =
  0x1.3333333333334p+0%float
  /\ zoomFormula 2 0 = 0x1.3333333333333p+0%float
  /\ PrimFloat.eqb
       (sceneScale (run (map Wheel [120; 120])
                      (final (handleReset exampleState))))
       (zoomFormula 2 0) = false
  /\ sceneScale (run (map Wheel (repeat (-120) 10))
                   (final (handleReset exampleState))) = 0x1.4p-53%float
  /\ zoomFormula 0 10 = 0%float
  /\ PrimFloat.ltb 0%float
       (sceneScale (run (map Wheel (repeat (-120) 10))
                      (final (handleReset exampleState)))) = true.
Proof. vm_compute. repeat split. Qed.

(** * Reset and the lights *)

(** C2 at its failing input: with the sun light switched off through its
    checkbox, [handleReset] returns and the light is still switched off. *)
Lemma reset_leaves_light_switched_off :
  lightEnabled exampleState 0 = JNum (num 1)
  /\ lightEnabled exampleLightOff 0 = JNum (num 0)
  /\ returns (handleReset exampleLightOff) = true
  /\ lightEnabled (final (handleReset exampleLightOff)) 0 = JNum (num 0).
Proof. vm_compute. repeat split. Qed.

(** * The matrix pseudo-stack *)

(** C4, as the code has it: [popMatrix] on an empty stack signals nothing.
    It returns normally, leaves the stack empty and leaves [this.modelview]
    undefined, so there is no current matrix afterwards. *)
Theorem popMatrix_empty_returns_undefined (s : App) :
  matrixStack s = [] ->
  popMatrix s = Ok tt (set_modelview None s)
  /\ matrixStack (set_modelview None s) = []
  /\ current (set_modelview None s) = None.
Proof.
  intros H. unfold popMatrix. rewrite H. repeat split. simpl. exact H.
Qed.

Lemma popMatrix_empty_returns_undefined_witness :
  popMatrix exampleState = Ok tt (set_modelview None exampleState)
  /\ matrixStack (set_modelview None exampleState) = []
  /\ current (set_modelview None exampleState) = None.
Proof.
  apply popMatrix_empty_returns_undefined. vm_compute. reflexivity.
Defined.

(** C4, as the claim states it, fails: on the page as [init] leaves it the
    stack is empty, and [popMatrix] returns instead of failing, leaving no
    current matrix behind. *)
Lemma popMatrix_empty_does_not_fail :
  matrixStack exampleState = []
  /\ returns (popMatrix exampleState) = true
  /\ current (final (popMatrix exampleState)) = None.
Proof. vm_compute. repeat split. Qed.

(** C5: on an empty stack, [n] pushes, each followed by any in-place
    mutations of the current matrix, followed by [n] pops, return and leave
    as the current matrix the matrix that was current before the first
    push, with the stack empty again. *)
Theorem pushes_then_pops_restore_current
    (rounds : list (list (Mat4 -> Mat4))) (s : App) (m : Mat4) :
  matrixStack s = [] ->
  current s = Some m ->
  exists s',
    forEach stackOp (pushes rounds ++ repeat Pop (length rounds)) s = Ok tt s'
    /\ current s' = Some m
    /\ matrixStack s' = [].
Proof.
  intros Hstk Hcur. unfold current in Hcur.
  destruct (modelview s) as [l|] eqn:Hl; [|discriminate].
  destruct (push_pop_rounds rounds s l m Hl Hcur)
    as (s' & Hrun & Hst & Hm & _).
  exists s'. rewrite Hst. auto.
Qed.

Lemma pushes_then_pops_restore_current_witness :
  exists s',
    forEach stackOp
      (pushes [[fun m => Translate m [num 1; num 0; num 0]];
               [];
               [fun m => RotateX m (DegToRad 5);
                fun m => Scale m [num 2; num 2; num 2]]]
       ++ repeat Pop 3) exampleState = Ok tt s'
    /\ current s' = Some (baseModelview exampleState)
    /\ matrixStack s' = [].
Proof.
  apply (pushes_then_pops_restore_current
           [[fun m => Translate m [num 1; num 0; num 0]];
            [];
            [fun m => RotateX m (DegToRad 5);
             fun m => Scale m [num 2; num 2; num 2]]]);
    vm_compute; reflexivity.
Defined.

(** * The frame driver: commands given in the wrong state *)

(** C3: the start command while the animation runs, and the stop command
    while it does not, only show the respective notice: the frame counter,
    the running flag, the WebGL calls issued (no render pass) and the
    animation-frame requests (no frame scheduled) stay as they were. *)
Theorem start_stop_in_wrong_state (s : App) :
  (isSceneAnimated s = true ->
   exists s',
     handleAnimationStart s = Ok tt s'
     /\ alerts s' = alerts s ++ [Text.START_BUTTON_ERROR]
     /\ frameNumber s' = frameNumber s
     /\ isSceneAnimated s' = true
     /\ gl s' = gl s
     /\ animationFrameRequests s' = animationFrameRequests s)
  /\
  (isSceneAnimated s = false ->
   exists s',
     handleAnimationStop s = Ok tt s'
     /\ alerts s' = alerts s ++ [Text.STOP_BUTTON_ERROR]
     /\ frameNumber s' = frameNumber s
     /\ isSceneAnimated s' = false
     /\ gl s' = gl s
     /\ animationFrameRequests s' = animationFrameRequests s).
Proof.
  split; intros H.
  - unfold handleAnimationStart. rewrite H.
    eexists. split; [reflexivity|]. simpl. auto.
  - unfold handleAnimationStop. rewrite H.
    eexists. split; [reflexivity|]. simpl. auto.
Qed.

Lemma start_stop_in_wrong_state_witness :
  (exists s',
     handleAnimationStart exampleRunning = Ok tt s'
     /\ alerts s' = alerts exampleRunning ++ [Text.START_BUTTON_ERROR]
     /\ frameNumber s' = frameNumber exampleRunning
     /\ isSceneAnimated s' = true
     /\ gl s' = gl exampleRunning
     /\ animationFrameRequests s' = animationFrameRequests exampleRunning)
  /\
  (exists s',
     handleAnimationStop exampleState = Ok tt s'
     /\ alerts s' = alerts exampleState ++ [Text.STOP_BUTTON_ERROR]
     /\ frameNumber s' = frameNumber exampleState
     /\ isSceneAnimated s' = false
     /\ gl s' = gl exampleState
     /\ animationFrameRequests s' = animationFrameRequests exampleState).
Proof.
  split.
  - apply (proj1 (start_stop_in_wrong_state exampleRunning)).
    vm_compute. reflexivity.
  - apply (proj2 (start_stop_in_wrong_state exampleState)).
    vm_compute. reflexivity.
Defined.

(** * The uniform binder *)














(** * Further properties of the code *)

(** * Updating the tables *)

Lemma prop_alter_prop {A} (f : A -> A) k (ts : list (string * A)) k' :
  prop (alter_prop f k ts) k' =
  if String.eqb k k' then option_map f (prop ts k') else prop ts k'.
Proof.
  induction ts as [|[k0 v] ts IH]; simpl.
  - now destruct (String.eqb k k').
  - destruct (String.eqb k0 k) eqn:E0; simpl.
    + apply String.eqb_eq in E0. subst k0.
      destruct (String.eqb k k'); reflexivity.
    + destruct (String.eqb k0 k') eqn:E1.
      * apply String.eqb_eq in E1. subst k0.
        rewrite String.eqb_sym in E0. now rewrite E0.
      * exact IH.
Qed.

Lemma prop_alter_prop_isSome {A} (f : A -> A) k (ts : list (string * A)) k' :
  match prop (alter_prop f k ts) k' with Some _ => true | None => false end =
  match prop ts k' with Some _ => true | None => false end.
Proof.
  rewrite prop_alter_prop.
  destruct (String.eqb k k'); [|reflexivity]. now destruct (prop ts k').
Qed.

Lemma js_get_set o k v k' :
  js_get (js_set o k v) k' = if String.eqb k k' then v else js_get o k'.
Proof.
  induction o as [|[k0 v0] o IH]; simpl.
  - reflexivity.
  - destruct (String.eqb k0 k) eqn:E0; simpl.
    + apply String.eqb_eq in E0. subst k0.
      destruct (String.eqb k k'); reflexivity.
    + destruct (String.eqb k0 k') eqn:E1.
      * apply String.eqb_eq in E1. subst k0.
        rewrite String.eqb_sym in E0. now rewrite E0.
      * exact IH.
Qed.

Lemma lightResolves_alter f k ts light :
  lightResolves (alter_prop f k ts) light = lightResolves ts light.
Proof.
  unfold lightResolves.
  destruct (Light.shapeType light) as [shape|]; [|reflexivity].
  destruct (Light.shapeColor light); [|reflexivity].
  destruct (Light.lightsUniforms light); [|reflexivity].
  pose proof (prop_alter_prop_isSome f k ts shape) as H.
  destruct (prop (alter_prop f k ts) shape), (prop ts shape);
    try reflexivity; discriminate.
Qed.

Lemma objectResolves_alter f k ts o :
  objectResolves (alter_prop f k ts) o = objectResolves ts o.
Proof. apply prop_alter_prop_isSome. Qed.

Lemma forallb_pointwise {A} (p q : A -> bool) (l : list A) :
  (forall a, p a = q a) -> forallb p l = forallb q l.
Proof.
  intros H. induction l as [|a l IH]; simpl; [reflexivity|].
  now rewrite H, IH.
Qed.

Lemma resolves_alter f k s :
  resolves (set_templates (alter_prop f k (templates s)) s) = resolves s.
Proof.
  unfold resolves. simpl. f_equal; apply forallb_pointwise; intros a.
  - apply lightResolves_alter.
  - apply objectResolves_alter.
Qed.

Lemma lightResolves_toggle ts light lu :
  Light.lightsUniforms light = Some lu ->
  lightResolves ts (Light.set_lightsUniforms (Some (toggleEnabled lu)) light) =
  lightResolves ts light.
Proof.
  intros H. unfold lightResolves. simpl. rewrite H.
  destruct (Light.shapeType light) as [shape|]; [|reflexivity].
  destruct (Light.shapeColor light); [|reflexivity].
  destruct (prop ts shape); [|reflexivity].
  unfold toggleEnabled. now rewrite js_get_set.
Qed.

Lemma forallb_insert {A} (p : A -> bool) (l : list A) i a b :
  l !! i = Some a -> p b = p a ->
  forallb p (<[i := b]> l) = forallb p l.
Proof.
  revert i. induction l as [|c l IH]; intros [|i] Hi Hp; simpl in *;
    try discriminate.
  - injection Hi as ->. now rewrite Hp.
  - now rewrite (IH i).
Qed.

(** * A render pass is a function of the scene *)

Lemma renderCalls_st s g h mv stk :
  renderCalls (st s g h mv stk) = renderCalls s.
Proof. reflexivity. Qed.

(** X1: rendering again, with nothing changed in between, issues the same
    calls again: the pass reads the templates, the scene data, the frame
    counter, the zoom factor and the rotator, and leaves them alone. *)
Theorem render_twice_same_calls (s : App) :
  resolves s = true ->
  exists s1 s2,
    render s = Ok tt s1
    /\ render s1 = Ok tt s2
    /\ issued s1 s2 = issued s s1
    /\ renderPasses (issued s s1) = 1%nat.
Proof.
  intros Hres. destruct (render_spec s Hres) as (h & l & Hrun & _).
  set (s1 := st s _ h (Some l) (matrixStack s)) in Hrun.
  assert (Hres1 : resolves s1 = true) by exact Hres.
  destruct (render_spec s1 Hres1) as (h2 & l2 & Hrun2 & _).
  exists s1. eexists. split; [exact Hrun|]. split; [exact Hrun2|].
  rewrite (issued_execs s1 _ (renderCalls s1)) by reflexivity.
  rewrite (issued_execs s s1 (renderCalls s)) by reflexivity.
  split; [reflexivity|apply renderPasses_renderCalls].
Qed.

Lemma render_twice_same_calls_witness :
  exists s1 s2,
    render exampleState = Ok tt s1
    /\ render s1 = Ok tt s2
    /\ issued s1 s2 = issued exampleState s1
    /\ renderPasses (issued exampleState s1) = 1%nat.
Proof. apply render_twice_same_calls. vm_compute. reflexivity. Defined.


(** * The order of the draw calls *)

Lemma draws_app cs1 cs2 : draws (cs1 ++ cs2) = draws cs1 ++ draws cs2.
Proof. apply flat_map_app. Qed.

Lemma draws_none cs :
  Forall (fun c => match c with
                   | DrawElements _ _ _ => False
                   | _ => True
                   end) cs ->
  draws cs = [].
Proof.
  induction 1 as [|c cs Hc _ IH]; [reflexivity|].
  unfold draws in *. simpl. rewrite IH. now destruct c.
Qed.

Lemma draws_uniformCalls o keys c : draws (uniformCalls o keys c) = [].
Proof.
  apply draws_none, Forall_forall. intros a Ha.
  apply list_elem_of_In, in_map_iff in Ha as (key & <- & _).
  unfold uniformCall.
  destruct c, (js_get o key);
    repeat match goal with
           | |- context [String.eqb ?a ?b] => destruct (String.eqb a b)
           end; exact I.
Qed.

Lemma draws_opt_uniforms (o : option JsObject) (f : JsObject -> JsObject) c :
  draws match o with
        | Some u => uniformCalls (f u) (js_keys u) c
        | None => []
        end = [].
Proof. destruct o; [apply draws_uniformCalls|reflexivity]. Qed.

Lemma draws_templateCalls model cfg m :
  draws (templateCalls model cfg m) =
  [(if RenderConfig.isWireFrame cfg then LINE_LOOP else TRIANGLES,
    Template.count model, Some (Template.indexBuffer model))].
Proof.
  unfold templateCalls. rewrite !draws_app.
  destruct (Template.texCoordsBuffer model), (RenderConfig.texture cfg);
    reflexivity.
Qed.

Lemma draws_lightCalls ts i light base :
  lightResolves ts light = true ->
  draws (lightCalls ts i light base) = lightDraw ts light.
Proof.
  intros Hres. unfold lightCalls. rewrite !draws_app.
  rewrite (draws_opt_uniforms _ (fun u => u)).
  rewrite (draws_opt_uniforms _ (fun u => u)).
  rewrite (draws_opt_uniforms _ (fun _ => DefaultUniforms.MATERIAL)).
  rewrite app_nil_r. cbn [app].
  unfold lightBodyCalls, lightDraw, lightResolves in *.
  destruct (Light.shapeType light) as [shape|]; [|reflexivity].
  destruct (Light.shapeColor light) as [sc|]; [|reflexivity].
  destruct (Light.lightsUniforms light) as [lu|]; [|discriminate].
  destruct (prop ts shape) as [model|]; [|reflexivity].
  change (draws (?c :: ?cs)) with (draws [c] ++ draws cs).
  now rewrite draws_templateCalls.
Qed.

Lemma draws_lightsCalls ts base lights :
  forallb (lightResolves ts) lights = true ->
  forall i, draws (lightsCalls ts base i lights) =
            flat_map (lightDraw ts) lights.
Proof.
  induction lights as [|light lights IH]; intros Hres i; [reflexivity|].
  simpl in Hres. apply andb_prop in Hres as [Hl Hres].
  simpl. now rewrite draws_app, draws_lightCalls, IH.
Qed.

Lemma draws_objectCalls ts F base o :
  draws (objectCalls ts F base o) = objectDraw ts o.
Proof.
  unfold objectCalls, objectDraw.
  destruct (prop ts (SceneObject.shapeType o)) as [model|]; [|reflexivity].
  destruct (Template.isAnimated model); [|reflexivity].
  rewrite !draws_app, draws_templateCalls.
  unfold materialCalls, materialResetCalls.
  destruct (MaterialUniforms.specularColor _),
    (MaterialUniforms.specularExponent _); reflexivity.
Qed.

Lemma draws_objects ts F base objs :
  draws (flat_map (objectCalls ts F base) objs) =
  flat_map (objectDraw ts) objs.
Proof.
  induction objs as [|o objs IH]; [reflexivity|].
  simpl. now rewrite draws_app, draws_objectCalls, IH.
Qed.

Lemma draws_renderCalls s :
  resolves s = true ->
  draws (renderCalls s) =
  flat_map (lightDraw (templates s)) (lightSourceData s) ++
  flat_map (objectDraw (templates s)) (sceneObjectsData s).
Proof.
  intros Hres. unfold resolves in Hres.
  apply andb_prop in Hres as [Hlights _].
  unfold renderCalls. rewrite !draws_app.
  now rewrite draws_lightsCalls, draws_objects.
Qed.

(** X2: a render pass draws the bodies of the lights first, in the order of
    [lightSourceData], then the scene objects of visible kinds, in the order
    of [sceneObjectsData]; nothing is reordered. A light's body is always
    drawn as triangles, a scene object as a line loop when it is a wire
    frame and as triangles otherwise, each with the index count and the
    index buffer of its template. *)
Theorem render_draw_order (s : App) :
  resolves s = true ->
  exists s',
    render s = Ok tt s'
    /\ draws (issued s s') =
       flat_map (lightDraw (templates s)) (lightSourceData s) ++
       flat_map (objectDraw (templates s)) (sceneObjectsData s).
Proof.
  intros Hres. destruct (render_spec s Hres) as (h & l & Hrun & _).
  eexists. split; [exact Hrun|].
  rewrite (issued_execs s _ (renderCalls s)) by reflexivity.
  now apply draws_renderCalls.
Qed.

Lemma render_draw_order_witness :
  exists s',
    render exampleHidden = Ok tt s'
    /\ draws (issued exampleHidden s') =
       flat_map (lightDraw (templates exampleHidden))
         (lightSourceData exampleHidden) ++
       flat_map (objectDraw (templates exampleHidden))
         (sceneObjectsData exampleHidden).
Proof. apply render_draw_order. vm_compute. reflexivity. Defined.


(** * Redrawing by hand *)

Lemma renderUnlessAnimated_running s :
  isSceneAnimated s = true -> renderUnlessAnimated s = Ok tt s.
Proof. intros H. unfold renderUnlessAnimated. now rewrite H. Qed.

Lemma renderUnlessAnimated_stopped s :
  isSceneAnimated s = false ->
  resolves s = true ->
  exists h l,
    renderUnlessAnimated s =
    Ok tt (st s (execs (renderCalls s) (gl s)) h (Some l) (matrixStack s)).
Proof.
  intros H Hres. unfold renderUnlessAnimated. rewrite H.
  destruct (render_spec s Hres) as (h & l & Hrun & _). now exists h, l.
Qed.

Lemma lightsHaveUniforms_lookup s i light :
  lightsHaveUniforms s = true ->
  lightSourceData s !! i = Some light ->
  exists lu, Light.lightsUniforms light = Some lu.
Proof.
  unfold lightsHaveUniforms. rewrite forallb_forall. intros H Hi.
  specialize (H light). rewrite <- list_elem_of_In in H.
  specialize (H (list_elem_of_lookup_2 _ _ _ Hi)).
  destruct (Light.lightsUniforms light) as [lu|]; [now exists lu|discriminate].
Qed.

Lemma resolves_toggleLight s i light lu :
  lightSourceData s !! i = Some light ->
  Light.lightsUniforms light = Some lu ->
  resolves
    (set_lightSourceData
       (<[i := Light.set_lightsUniforms (Some (toggleEnabled lu)) light]>
          (lightSourceData s)) s) = resolves s.
Proof.
  intros Hi Hlu. unfold resolves. simpl. f_equal.
  apply (forallb_insert _ _ _ light); [exact Hi|].
  now apply lightResolves_toggle.
Qed.

(** What a handler that redraws by hand does before it redraws. *)
Lemma redrawsByHand_shape s e :
  redrawsByHand s e = true ->
  lightsHaveUniforms s = true ->
  exists s1,
    dispatch e s = renderUnlessAnimated s1
    /\ gl s1 = gl s
    /\ isSceneAnimated s1 = isSceneAnimated s
    /\ animationFrameRequests s1 = animationFrameRequests s
    /\ matrixStack s1 = matrixStack s
    /\ resolves s1 = resolves s.
Proof.
  intros He Hlu. destruct e; try discriminate; simpl in He.
  - eexists. split; [reflexivity|]. simpl. repeat split.
    apply resolves_alter.
  - apply Nat.ltb_lt, lookup_lt_is_Some_2 in He as [light Hi].
    destruct (lightsHaveUniforms_lookup s i light Hlu Hi) as [lu Hl].
    eexists. split.
    + simpl. unfold handleLightSourceCheckboxChanges. rewrite Hi, Hl.
      reflexivity.
    + simpl. repeat split. now apply resolves_toggleLight.
  - eexists. split; [reflexivity|]. simpl. repeat split.
  - eexists. split; [reflexivity|]. simpl. repeat split.
  - eexists. split; [reflexivity|]. simpl. repeat split.
Qed.

(** X3: the checkbox, wheel and drag handlers redraw only while the
    animation is stopped, and then with exactly one render pass; while it
    runs they issue no WebGL call at all and leave the redraw to the next
    frame. They never schedule a frame. *)
Theorem manual_redraw_only_while_stopped (s : App) (e : Event) :
  redrawsByHand s e = true ->
  lightsHaveUniforms s = true ->
  (isSceneAnimated s = true ->
   exists s',
     dispatch e s = Ok tt s'
     /\ gl s' = gl s
     /\ animationFrameRequests s' = animationFrameRequests s)
  /\
  (isSceneAnimated s = false -> resolves s = true ->
   exists s',
     dispatch e s = Ok tt s'
     /\ renderPasses (issued s s') = 1%nat
     /\ isSceneAnimated s' = false
     /\ animationFrameRequests s' = animationFrameRequests s).
Proof.
  intros He Hlu.
  destruct (redrawsByHand_shape s e He Hlu)
    as (s1 & Hd & Hgl & Han & Hafr & _ & Hres1).
  split.
  - intros Hrun. exists s1. rewrite Hd.
    split; [apply renderUnlessAnimated_running; congruence|auto].
  - intros Hstop Hres.
    destruct (renderUnlessAnimated_stopped s1) as (h & l & Hr);
      [congruence|congruence|].
    eexists. rewrite Hd. split; [exact Hr|]. repeat split.
    + rewrite (issued_execs s _ (renderCalls s1)).
      * apply renderPasses_renderCalls.
      * simpl. now rewrite Hgl.
    + simpl. congruence.
    + simpl. congruence.
Qed.

Lemma manual_redraw_only_while_stopped_witness :
  (isSceneAnimated exampleState = true ->
   exists s',
     dispatch (Wheel 120) exampleState = Ok tt s'
     /\ gl s' = gl exampleState
     /\ animationFrameRequests s' = animationFrameRequests exampleState)
  /\
  (isSceneAnimated exampleState = false -> resolves exampleState = true ->
   exists s',
     dispatch (Wheel 120) exampleState = Ok tt s'
     /\ renderPasses (issued exampleState s') = 1%nat
     /\ isSceneAnimated s' = false
     /\ animationFrameRequests s' = animationFrameRequests exampleState).
Proof.
  apply (manual_redraw_only_while_stopped exampleState (Wheel 120));
    vm_compute; reflexivity.
Defined.


(** * Toggling twice *)

Lemma alter_prop_twice {A} (f g : A -> A) k (ts : list (string * A)) :
  alter_prop g k (alter_prop f k ts) = alter_prop (fun v => g (f v)) k ts.
Proof.
  induction ts as [|[k0 v] ts IH]; simpl; [reflexivity|].
  destruct (String.eqb k0 k) eqn:E; simpl; rewrite E; [reflexivity|].
  now rewrite IH.
Qed.

Lemma alter_prop_id {A} (f : A -> A) k (ts : list (string * A)) :
  (forall v, f v = v) -> alter_prop f k ts = ts.
Proof.
  intros H. induction ts as [|[k0 v] ts IH]; simpl; [reflexivity|].
  destruct (String.eqb k0 k); [now rewrite H|now rewrite IH].
Qed.

Lemma toggle_isAnimated_twice t :
  Template.set_isAnimated
    (negb (Template.isAnimated
             (Template.set_isAnimated (negb (Template.isAnimated t)) t)))
    (Template.set_isAnimated (negb (Template.isAnimated t)) t) = t.
Proof. destruct t as [? ? ? ? ? ? b ?]. simpl. now rewrite negb_involutive. Qed.

Lemma set_templates_self s : set_templates (templates s) s = s.
Proof. now destruct s. Qed.

Lemma dispatch_ToggleShape_stopped s K :
  isSceneAnimated s = false ->
  resolves s = true ->
  let s1 := set_templates
              (alter_prop (fun t => Template.set_isAnimated
                                      (negb (Template.isAnimated t)) t)
                 K (templates s)) s in
  exists h l,
    dispatch (ToggleShape K) s =
    Ok tt (st s1 (execs (renderCalls s1) (gl s)) h (Some l) (matrixStack s)).
Proof.
  intros Hstop Hres s1.
  assert (Hres1 : resolves s1 = true)
    by (unfold s1; now rewrite resolves_alter).
  destruct (renderUnlessAnimated_stopped s1 Hstop Hres1) as (h & l & Hr).
  exists h, l. exact Hr.
Qed.

(** X4: unticking and ticking again the checkbox of a shape kind, while the
    animation is stopped, makes one render pass each time, leaves the
    visibility flags as they were, and the second pass issues the very calls
    that a render pass issued before the first click. *)
Theorem toggle_shape_twice_restores (s : App) (K : string) :
  isSceneAnimated s = false ->
  resolves s = true ->
  exists s1 s2,
    dispatch (ToggleShape K) s = Ok tt s1
    /\ dispatch (ToggleShape K) s1 = Ok tt s2
    /\ templates s2 = templates s
    /\ renderPasses (issued s s1) = 1%nat
    /\ renderPasses (issued s1 s2) = 1%nat
    /\ issued s1 s2 = issued s (final (render s)).
Proof.
  intros Hstop Hres.
  destruct (dispatch_ToggleShape_stopped s K Hstop Hres) as (h & l & H1).
  cbv zeta in H1.
  set (s1 := st _ _ h (Some l) (matrixStack s)) in H1.
  assert (Hres1 : resolves s1 = true)
    by exact (eq_trans (resolves_alter _ K s) Hres).
  destruct (dispatch_ToggleShape_stopped s1 K Hstop Hres1) as (h2 & l2 & H2).
  cbv zeta in H2.
  assert (Hts : alter_prop
                  (fun t => Template.set_isAnimated
                              (negb (Template.isAnimated t)) t)
                  K (templates s1) = templates s).
  { unfold s1. simpl. rewrite alter_prop_twice.
    apply alter_prop_id. intros t. apply toggle_isAnimated_twice. }
  rewrite Hts in H2.
  set (s2 := st _ _ h2 (Some l2) (matrixStack s1)) in H2.
  destruct (render_spec s Hres) as (h0 & l0 & Hr & _).
  assert (E1 : issued s s1 =
               renderCalls
                 (set_templates
                    (alter_prop
                       (fun t => Template.set_isAnimated
                                   (negb (Template.isAnimated t)) t)
                       K (templates s)) s))
    by (apply issued_execs; reflexivity).
  assert (E2 : issued s1 s2 = renderCalls s)
    by (apply issued_execs; reflexivity).
  assert (E3 : issued s (final (render s)) = renderCalls s)
    by (rewrite Hr; apply issued_execs; reflexivity).
  exists s1, s2. split; [exact H1|]. split; [exact H2|].
  split; [reflexivity|].
  rewrite E1, E2, E3, !renderPasses_renderCalls. repeat split.
Qed.

Lemma toggle_shape_twice_restores_witness :
  exists s1 s2,
    dispatch (ToggleShape "Cube") exampleState = Ok tt s1
    /\ dispatch (ToggleShape "Cube") s1 = Ok tt s2
    /\ templates s2 = templates exampleState
    /\ renderPasses (issued exampleState s1) = 1%nat
    /\ renderPasses (issued s1 s2) = 1%nat
    /\ issued s1 s2 = issued exampleState (final (render exampleState)).
Proof.
  apply toggle_shape_twice_restores; vm_compute; reflexivity.
Defined.


Lemma js_set_set o k v v' : js_set (js_set o k v) k v' = js_set o k v'.
Proof.
  induction o as [|[k0 v0] o IH]; simpl.
  - now rewrite String.eqb_refl.
  - destruct (String.eqb k0 k) eqn:E; simpl.
    + now rewrite String.eqb_refl.
    + now rewrite E, IH.
Qed.

Lemma js_set_same o k q : js_get o k = JNum q -> js_set o k (JNum q) = o.
Proof.
  induction o as [|[k0 v0] o IH]; simpl; [discriminate|].
  destruct (String.eqb k0 k) eqn:E.
  - apply String.eqb_eq in E. now intros ->; subst.
  - intros H. now rewrite IH.
Qed.

Lemma toggleEnabled_flips lu b :
  js_get lu "enabled" = JNum (num b) -> b = 0 \/ b = 1 ->
  js_get (toggleEnabled lu) "enabled" = JNum (num (1 - b)).
Proof.
  intros H Hb. unfold toggleEnabled. rewrite js_get_set, String.eqb_refl, H.
  destruct Hb as [-> | ->]; vm_compute; reflexivity.
Qed.

Lemma toggleEnabled_twice lu b :
  js_get lu "enabled" = JNum (num b) -> b = 0 \/ b = 1 ->
  toggleEnabled (toggleEnabled lu) = lu.
Proof.
  intros H Hb. pose proof (toggleEnabled_flips lu b H Hb) as H1.
  unfold toggleEnabled at 1. rewrite H1. unfold toggleEnabled.
  rewrite js_set_set.
  replace (JNum (num (Z.lxor (js_toInt32 (JNum (num (1 - b)))) 1)))
    with (JNum (num b))
    by (destruct Hb as [-> | ->]; vm_compute; reflexivity).
  now apply js_set_same.
Qed.

Lemma sceneOnly_lightSourceData : sceneOnly lightSourceData.
Proof. intros s g h mv stk. reflexivity. Qed.

Lemma ToggleLight_lights s i light lu :
  lightSourceData s !! i = Some light ->
  Light.lightsUniforms light = Some lu ->
  lightSourceData (final (dispatch (ToggleLight i) s)) =
  <[i := Light.set_lightsUniforms (Some (toggleEnabled lu)) light]>
    (lightSourceData s).
Proof.
  intros Hi Hlu. simpl. unfold handleLightSourceCheckboxChanges.
  rewrite Hi, Hlu. unfold mbind, M_bind, bind, modify.
  now rewrite (renderUnlessAnimated_preserves lightSourceData
                 sceneOnly_lightSourceData).
Qed.

Lemma set_lightsUniforms_self light lu :
  Light.lightsUniforms light = Some lu ->
  Light.set_lightsUniforms (Some lu) light = light.
Proof. destruct light. simpl. now intros ->. Qed.

(** X5: the checkbox of a light flips that light's [enabled] between 1 and 0
    and leaves every other light as it is; clicking it twice leaves the
    lights exactly as they were, whether or not the animation runs. *)
Theorem toggle_light_twice_restores
    (s : App) (i : nat) (light : Light.t) (lu : JsObject) (b : Z) :
  lightSourceData s !! i = Some light ->
  Light.lightsUniforms light = Some lu ->
  js_get lu "enabled" = JNum (num b) ->
  b = 0 \/ b = 1 ->
  lightEnabled (final (dispatch (ToggleLight i) s)) i = JNum (num (1 - b))
  /\ (forall j, j <> i ->
        lightSourceData (final (dispatch (ToggleLight i) s)) !! j =
        lightSourceData s !! j)
  /\ lightSourceData (run [ToggleLight i; ToggleLight i] s) =
     lightSourceData s.
Proof.
  intros Hi Hlu Hen Hb.
  pose proof (ToggleLight_lights s i light lu Hi Hlu) as H1.
  pose proof (lookup_lt_Some _ _ _ Hi) as Hlt.
  split; [|split].
  - unfold lightEnabled. rewrite H1, list_lookup_insert_eq by exact Hlt.
    simpl. now apply toggleEnabled_flips.
  - intros j Hj. rewrite H1. now apply list_lookup_insert_ne.
  - change (run [ToggleLight i; ToggleLight i] s)
      with (final (dispatch (ToggleLight i)
                     (final (dispatch (ToggleLight i) s)))).
    set (s1 := final (dispatch (ToggleLight i) s)) in *.
    assert (Hi1 : lightSourceData s1 !! i =
                  Some (Light.set_lightsUniforms (Some (toggleEnabled lu))
                          light))
      by (rewrite H1; now apply list_lookup_insert_eq).
    rewrite (ToggleLight_lights s1 i _ (toggleEnabled lu) Hi1 eq_refl), H1.
    rewrite list_insert_insert_eq, (toggleEnabled_twice lu b Hen Hb).
    replace (Light.set_lightsUniforms (Some lu)
               (Light.set_lightsUniforms (Some (toggleEnabled lu)) light))
      with light
      by (symmetry; destruct light; simpl in *; now subst).
    now apply list_insert_id.
Qed.

Lemma toggle_light_twice_restores_witness :
  lightEnabled (final (dispatch (ToggleLight 0) exampleState)) 0 =
  JNum (num (1 - 1))
  /\ (forall j, j <> 0%nat ->
        lightSourceData (final (dispatch (ToggleLight 0) exampleState)) !! j =
        lightSourceData exampleState !! j)
  /\ lightSourceData (run [ToggleLight 0; ToggleLight 0] exampleState) =
     lightSourceData exampleState.
Proof.
  apply (toggle_light_twice_restores exampleState 0 sunLight sunLightUniforms);
    first [vm_compute; reflexivity | now right].
Defined.


(** * The loop of [handleReset] *)

Lemma prop_keys {A} (ts : list (string * A)) k :
  In k (map fst ts) -> exists v, prop ts k = Some v.
Proof.
  induction ts as [|[k0 v0] ts IH]; simpl; [contradiction|].
  intros [->|H].
  - rewrite String.eqb_refl. now exists v0.
  - destruct (String.eqb k0 k); [now exists v0|now apply IH].
Qed.

Lemma prop_some_key {A} (ts : list (string * A)) k v :
  prop ts k = Some v -> In k (map fst ts).
Proof. intros H. apply prop_In in H. apply in_map_iff. now exists (k, v). Qed.

Lemma elementId_alter (f : Template.t -> Template.t) k ts k' :
  (forall t, Template.elementId (f t) = Template.elementId t) ->
  option_map Template.elementId (prop (alter_prop f k ts) k') =
  option_map Template.elementId (prop ts k').
Proof.
  intros Hf. rewrite prop_alter_prop.
  destruct (String.eqb k k'); [|reflexivity].
  destruct (prop ts k'); simpl; [now rewrite Hf|reflexivity].
Qed.

Lemma resetCheckboxes_ext ts1 ts2 ks : forall cb,
  (forall k, option_map Template.elementId (prop ts1 k) =
             option_map Template.elementId (prop ts2 k)) ->
  resetCheckboxes ts1 ks cb = resetCheckboxes ts2 ks cb.
Proof.
  unfold resetCheckboxes.
  induction ks as [|k ks IH]; intros cb H; [reflexivity|]. simpl.
  specialize (H k) as Hk.
  destruct (prop ts1 k) as [m1|], (prop ts2 k) as [m2|]; simpl in Hk;
    try discriminate; [injection Hk as ->|]; now apply IH.
Qed.

Lemma resetLoop ks : forall ts cb s0,
  (forall k, In k ks ->
     exists m, prop ts k = Some m
               /\ prop cb (Template.elementId m) <> None) ->
  forEach resetTemplate ks (set_templates ts (set_checkboxes cb s0)) =
  Ok tt (set_templates (resetTemplates ks ts)
           (set_checkboxes (resetCheckboxes ts ks cb) s0)).
Proof.
  induction ks as [|k ks IH]; intros ts cb s0 H; [reflexivity|].
  destruct (H k (or_introl eq_refl)) as (m & Hm & Hc).
  set (cb1 := alter_prop (fun _ => true) (Template.elementId m) cb).
  set (ts1 := alter_prop (Template.set_isAnimated true) k ts).
  assert (Hstep : resetTemplate k (set_templates ts (set_checkboxes cb s0)) =
                  Ok tt (set_templates ts1 (set_checkboxes cb1 s0))).
  { unfold resetTemplate.
    change (templates (set_templates ts (set_checkboxes cb s0))) with ts.
    rewrite Hm. unfold mbind, M_bind, bind, checkElement.
    change (checkboxes (set_templates ts (set_checkboxes cb s0))) with cb.
    destruct (prop cb (Template.elementId m)); [reflexivity|congruence]. }
  rewrite forEach_cons, Hstep.
  assert (Hid : forall k', option_map Template.elementId (prop ts1 k') =
                           option_map Template.elementId (prop ts k'))
    by (intros k'; now apply elementId_alter).
  rewrite IH.
  - unfold resetTemplates at 2. unfold resetCheckboxes at 2. simpl fold_left.
    rewrite Hm. fold cb1. fold ts1.
    fold (resetTemplates ks ts1). fold (resetCheckboxes ts ks cb1).
    now rewrite (resetCheckboxes_ext ts1 ts ks cb1 Hid).
  - intros k' Hk'. destruct (H k' (or_intror Hk')) as (m' & Hm' & Hc').
    specialize (Hid k'). rewrite Hm' in Hid.
    destruct (prop ts1 k') as [m1|]; simpl in Hid; [|discriminate].
    injection Hid as Hid. exists m1. split; [reflexivity|].
    rewrite Hid. unfold cb1.
    pose proof (prop_alter_prop_isSome (fun _ : bool => true)
                  (Template.elementId m) cb (Template.elementId m')) as Hs.
    destruct (prop (alter_prop _ _ cb) (Template.elementId m'));
      [discriminate|].
    destruct (prop cb (Template.elementId m')); [discriminate|congruence].
Qed.

Lemma prop_resetTemplates ks : forall ts K,
  prop (resetTemplates ks ts) K =
  if existsb (String.eqb K) ks
  then option_map (Template.set_isAnimated true) (prop ts K)
  else prop ts K.
Proof.
  unfold resetTemplates.
  induction ks as [|k ks IH]; intros ts K; [reflexivity|]. simpl.
  rewrite IH, prop_alter_prop, (String.eqb_sym K k).
  destruct (String.eqb k K), (existsb (String.eqb K) ks); simpl;
    try reflexivity.
  now destruct (prop ts K).
Qed.

Lemma prop_resetCheckboxes_isSome ts ks : forall cb id,
  match prop (resetCheckboxes ts ks cb) id with
  | Some _ => true | None => false end =
  match prop cb id with Some _ => true | None => false end.
Proof.
  unfold resetCheckboxes.
  induction ks as [|k ks IH]; intros cb id; [reflexivity|]. simpl.
  rewrite IH. destruct (prop ts k); [|reflexivity].
  apply prop_alter_prop_isSome.
Qed.

Lemma prop_resetCheckboxes_stays ts ks : forall cb id,
  prop cb id = Some true -> prop (resetCheckboxes ts ks cb) id = Some true.
Proof.
  unfold resetCheckboxes.
  induction ks as [|k ks IH]; intros cb id H; [exact H|]. simpl.
  apply IH. destruct (prop ts k); [|exact H].
  rewrite prop_alter_prop, H. now destruct (String.eqb _ id).
Qed.

Lemma prop_resetCheckboxes_checked ts ks : forall cb k m,
  In k ks -> prop ts k = Some m ->
  prop cb (Template.elementId m) <> None ->
  prop (resetCheckboxes ts ks cb) (Template.elementId m) = Some true.
Proof.
  induction ks as [|k0 ks IH]; intros cb k m Hin Hm Hc; [contradiction|].
  unfold resetCheckboxes. simpl fold_left.
  fold (resetCheckboxes ts ks
          match prop ts k0 with
          | Some model =>
              alter_prop (fun _ => true) (Template.elementId model) cb
          | None => cb
          end).
  destruct Hin as [->|Hin].
  - rewrite Hm. apply prop_resetCheckboxes_stays.
    rewrite prop_alter_prop, String.eqb_refl.
    destruct (prop cb (Template.elementId m)); [reflexivity|congruence].
  - apply (IH _ k m Hin Hm).
    destruct (prop ts k0) as [m0|]; [|exact Hc].
    pose proof (prop_alter_prop_isSome (fun _ : bool => true)
                  (Template.elementId m0) cb (Template.elementId m)) as Hs.
    destruct (prop (alter_prop _ _ cb) (Template.elementId m));
      [discriminate|].
    destruct (prop cb (Template.elementId m)); [discriminate|congruence].
Qed.


(** * Reset, when the page is in order *)

Lemma resolves_templates_ext ts' s :
  (forall K, match prop ts' K with Some _ => true | None => false end =
             match prop (templates s) K with
             | Some _ => true | None => false end) ->
  resolves (set_templates ts' s) = resolves s.
Proof.
  intros H. unfold resolves. simpl. f_equal; apply forallb_pointwise.
  - intros light. unfold lightResolves.
    destruct (Light.shapeType light) as [shape|]; [|reflexivity].
    destruct (Light.shapeColor light); [|reflexivity].
    destruct (Light.lightsUniforms light); [|reflexivity].
    specialize (H shape).
    destruct (prop ts' shape), (prop (templates s) shape);
      try reflexivity; discriminate.
  - intros o. apply H.
Qed.

Lemma prop_resetTemplates_isSome ks ts K :
  match prop (resetTemplates ks ts) K with
  | Some _ => true | None => false end =
  match prop ts K with Some _ => true | None => false end.
Proof.
  rewrite prop_resetTemplates.
  destruct (existsb (String.eqb K) ks); [|reflexivity].
  now destruct (prop ts K).
Qed.

Lemma set_tables_self s :
  set_templates (templates s) (set_checkboxes (checkboxes s) s) = s.
Proof. now destruct s. Qed.

Lemma checkboxesPresent_lookup s k m :
  checkboxesPresent s = true ->
  prop (templates s) k = Some m ->
  prop (checkboxes s) (Template.elementId m) <> None.
Proof.
  unfold checkboxesPresent. rewrite forallb_forall. intros H Hm.
  specialize (H (k, m) (prop_In _ _ _ Hm)). simpl in H.
  now destruct (prop (checkboxes s) (Template.elementId m)).
Qed.

Lemma issued_st s s5 cs h mv stk :
  issued s (st s5 (execs cs (gl s)) h mv stk) = cs.
Proof. apply issued_execs. reflexivity. Qed.

Lemma handleReset_unfold s :
  handleReset s =
  (((fun s => forEach resetTemplate (map fst (templates s)) s) : M unit);;
   render)
    (set_isSceneAnimated false
       (set_sceneScale 1%float
          (set_frameNumber 0 (set_rotator (SetView 17 [0; 1; 2]) s)))).
Proof. reflexivity. Qed.

Lemma handleReset_loop s s4 :
  checkboxesPresent s = true ->
  templates s4 = templates s ->
  checkboxes s4 = checkboxes s ->
  forEach resetTemplate (map fst (templates s4)) s4 =
  Ok tt (set_templates (resetTemplates (map fst (templates s)) (templates s))
           (set_checkboxes
              (resetCheckboxes (templates s) (map fst (templates s))
                 (checkboxes s)) s4)).
Proof.
  intros Hcb Ht Hc. rewrite Ht.
  etransitivity;
    [exact (f_equal (forEach resetTemplate (map fst (templates s)))
              (eq_sym (set_tables_self s4)))|].
  rewrite Ht, Hc. apply resetLoop. intros k Hk.
  destruct (prop_keys _ _ Hk) as (m & Hm). exists m.
  split; [exact Hm|]. now apply (checkboxesPresent_lookup s k).
Qed.

Lemma render_after s5 s :
  resolves s5 = true ->
  gl s5 = gl s ->
  matrixStack s5 = matrixStack s ->
  exists h l,
    render s5 =
    Ok tt (st s5 (execs (renderCalls s5) (gl s)) h (Some l) (matrixStack s)).
Proof.
  intros Hres Hgl Hstk. destruct (render_spec s5 Hres) as (h & l & Hr & _).
  exists h, l. now rewrite <- Hgl, <- Hstk.
Qed.

Lemma handleReset_spec s :
  resolves s = true ->
  checkboxesPresent s = true ->
  let ks := map fst (templates s) in
  let s5 :=
    set_templates (resetTemplates ks (templates s))
      (set_checkboxes (resetCheckboxes (templates s) ks (checkboxes s))
         (set_isSceneAnimated false
            (set_sceneScale 1%float
               (set_frameNumber 0
                  (set_rotator (SetView 17 [0; 1; 2]) s))))) in
  exists h l,
    handleReset s =
    Ok tt (st s5 (execs (renderCalls s5) (gl s)) h (Some l) (matrixStack s)).
Proof.
  intros Hres Hcb ks s5. rewrite handleReset_unfold.
  rewrite (bind_Ok
             (fun s => forEach resetTemplate (map fst (templates s)) s)
             (fun _ => render) _ _ _
             (handleReset_loop s
                (set_isSceneAnimated false
                   (set_sceneScale 1%float
                      (set_frameNumber 0
                         (set_rotator (SetView 17 [0; 1; 2]) s))))
                Hcb eq_refl eq_refl)).
  apply render_after; [|reflexivity|reflexivity].
  unfold s5, ks. rewrite resolves_templates_ext; [exact Hres|].
  intros K. apply prop_resetTemplates_isSome.
Qed.

(** X6: on a page in order, the reset button stops the animation, puts the
    frame counter back to 0, the zoom factor to 1 and the rotator to its
    initial view, makes every shape kind visible again and ticks its
    checkbox, and redraws with exactly one render pass, without scheduling a
    frame. *)
Theorem handleReset_restores_shapes (s : App) :
  resolves s = true ->
  checkboxesPresent s = true ->
  exists s',
    handleReset s = Ok tt s'
    /\ isSceneAnimated s' = false
    /\ frameNumber s' = 0
    /\ sceneScale s' = 1%float
    /\ rotator s' = SetView 17 [0; 1; 2]
    /\ (forall K model,
          prop (templates s') K = Some model ->
          Template.isAnimated model = true
          /\ prop (checkboxes s') (Template.elementId model) = Some true)
    /\ renderPasses (issued s s') = 1%nat
    /\ animationFrameRequests s' = animationFrameRequests s.
Proof.
  intros Hres Hcb. destruct (handleReset_spec s Hres Hcb) as (h & l & H).
  cbv zeta in H. eexists. split; [exact H|].
  split; [reflexivity|]. split; [reflexivity|]. split; [reflexivity|].
  split; [reflexivity|]. split; [|split; [|reflexivity]].
  - intros K model HK.
    change (prop (resetTemplates (map fst (templates s)) (templates s)) K =
            Some model) in HK.
    rewrite prop_resetTemplates in HK.
    destruct (prop (templates s) K) as [m|] eqn:Hm;
      [|now destruct (existsb _ _)].
    assert (Hin : In K (map fst (templates s)))
      by now apply (prop_some_key _ _ m).
    rewrite (proj2 (existsb_exists _ _)) in HK
      by (exists K; split; [exact Hin|apply String.eqb_refl]).
    injection HK as <-. split; [reflexivity|].
    change (prop (resetCheckboxes (templates s) (map fst (templates s))
                    (checkboxes s)) (Template.elementId m) = Some true).
    apply (prop_resetCheckboxes_checked _ _ _ K m Hin Hm).
    now apply (checkboxesPresent_lookup s K).
  - rewrite issued_st.
    apply renderPasses_renderCalls.
Qed.

Lemma handleReset_restores_shapes_witness :
  exists s',
    handleReset exampleHidden = Ok tt s'
    /\ isSceneAnimated s' = false
    /\ frameNumber s' = 0
    /\ sceneScale s' = 1%float
    /\ rotator s' = SetView 17 [0; 1; 2]
    /\ (forall K model,
          prop (templates s') K = Some model ->
          Template.isAnimated model = true
          /\ prop (checkboxes s') (Template.elementId model) = Some true)
    /\ renderPasses (issued exampleHidden s') = 1%nat
    /\ animationFrameRequests s' = animationFrameRequests exampleHidden.
Proof. apply handleReset_restores_shapes; vm_compute; reflexivity. Defined.

(** * What a render pass leaves alone, and the frame requests *)

(** X7: a render pass, whether it completes or throws, leaves the
    templates, the scene objects, the lights, the animation flag, the frame
    counter, the zoom factor, the rotator, the alerts, the pending frame
    requests and the checkboxes as they were. *)
Theorem render_leaves_the_scene_as_it_was (s : App) :
  templates (final (render s)) = templates s
  /\ sceneObjectsData (final (render s)) = sceneObjectsData s
  /\ lightSourceData (final (render s)) = lightSourceData s
  /\ isSceneAnimated (final (render s)) = isSceneAnimated s
  /\ frameNumber (final (render s)) = frameNumber s
  /\ sceneScale (final (render s)) = sceneScale s
  /\ rotator (final (render s)) = rotator s
  /\ alerts (final (render s)) = alerts s
  /\ animationFrameRequests (final (render s)) = animationFrameRequests s
  /\ checkboxes (final (render s)) = checkboxes s.
Proof.
  repeat split;
    match goal with
    | |- ?f (final (render s)) = ?f s =>
        apply (render_preserves f); intros ? ? ? ? ?; reflexivity
    end.
Qed.

Lemma stale_frame s :
  isSceneAnimated s = false ->
  isSceneAnimated (final (dispatch AnimationFrame s)) = false
  /\ frameNumber (final (dispatch AnimationFrame s)) = frameNumber s
  /\ gl (final (dispatch AnimationFrame s)) = gl s
  /\ animationFrameRequests (final (dispatch AnimationFrame s)) =
     pred (animationFrameRequests s).
Proof.
  intros H. unfold dispatch, onAnimationFrame.
  destruct (animationFrameRequests s) as [|n] eqn:E.
  - cbv [final]. rewrite E. now repeat split.
  - unfold handleFrame.
    change (isSceneAnimated (set_animationFrameRequests n s))
      with (isSceneAnimated s).
    rewrite H. now repeat split.
Qed.

Lemma stale_frames n : forall s,
  isSceneAnimated s = false ->
  isSceneAnimated (run (repeat AnimationFrame n) s) = false
  /\ frameNumber (run (repeat AnimationFrame n) s) = frameNumber s
  /\ gl (run (repeat AnimationFrame n) s) = gl s
  /\ animationFrameRequests (run (repeat AnimationFrame n) s) =
     (animationFrameRequests s - n)%nat.
Proof.
  induction n as [|n IH]; intros s H.
  - cbn [repeat]. unfold run. cbn [fold_left].
    repeat split; try assumption; try reflexivity; lia.
  - cbn [repeat]. rewrite run_cons.
    destruct (stale_frame s H) as (H1 & H2 & H3 & H4).
    destruct (IH _ H1) as (I1 & I2 & I3 & I4).
    rewrite I1, I2, I3, I4, H2, H3, H4. repeat split; try reflexivity; lia.
Qed.

(** X8: once the stop button has been pressed on a running scene, the frame
    callbacks that are still pending do nothing when they fire: they draw
    nothing, leave the frame counter as it is and request no further frame,
    so each of them only uses up one pending request. *)
Theorem frames_after_stop_do_nothing (s : App) (n : nat) :
  isSceneAnimated s = true ->
  isSceneAnimated (run (StopAnimation :: repeat AnimationFrame n) s) = false
  /\ frameNumber (run (StopAnimation :: repeat AnimationFrame n) s) =
     frameNumber s
  /\ gl (run (StopAnimation :: repeat AnimationFrame n) s) = gl s
  /\ animationFrameRequests
       (run (StopAnimation :: repeat AnimationFrame n) s) =
     (animationFrameRequests s - n)%nat.
Proof.
  intros H. rewrite run_cons.
  assert (E : final (dispatch StopAnimation s) = set_isSceneAnimated false s).
  { unfold dispatch, handleAnimationStop. now rewrite H. }
  rewrite E.
  exact (stale_frames n (set_isSceneAnimated false s) eq_refl).
Qed.

Lemma frames_after_stop_do_nothing_witness :
  isSceneAnimated
    (run (StopAnimation :: repeat AnimationFrame 3) exampleRunning) = false
  /\ frameNumber
       (run (StopAnimation :: repeat AnimationFrame 3) exampleRunning) =
     frameNumber exampleRunning
  /\ gl (run (StopAnimation :: repeat AnimationFrame 3) exampleRunning) =
     gl exampleRunning
  /\ animationFrameRequests
       (run (StopAnimation :: repeat AnimationFrame 3) exampleRunning) =
     (animationFrameRequests exampleRunning - 3)%nat.
Proof.
  apply (frames_after_stop_do_nothing exampleRunning 3).
  vm_compute; reflexivity.
Defined.

(** X9: the stop button does not cancel the frame request that is pending:
    on a running scene, a stop followed by a start leaves the scene running
    with one more pending frame request than before, after one frame (the
    counter advanced by one, one render pass) run by the start itself. *)
Theorem stop_then_start_adds_a_frame_request (s : App) :
  resolves s = true ->
  isSceneAnimated s = true ->
  isSceneAnimated (run [StopAnimation; StartAnimation] s) = true
  /\ frameNumber (run [StopAnimation; StartAnimation] s) = frameNumber s + 1
  /\ animationFrameRequests (run [StopAnimation; StartAnimation] s) =
     S (animationFrameRequests s)
  /\ renderPasses (issued s (run [StopAnimation; StartAnimation] s)) = 1%nat.
Proof.
  intros Hres H. rewrite run_cons.
  assert (E : final (dispatch StopAnimation s) = set_isSceneAnimated false s).
  { unfold dispatch, handleAnimationStop. now rewrite H. }
  rewrite E.
  destruct (handleFrame_running
              (set_isSceneAnimated true (set_isSceneAnimated false s))
              Hres eq_refl)
    as (s' & Hf & H1 & H2 & H3 & _ & H5 & _).
  assert (E2 : run [StartAnimation] (set_isSceneAnimated false s) = s').
  { unfold run. cbn [fold_left]. unfold dispatch, handleAnimationStart.
    change (isSceneAnimated (set_isSceneAnimated false s)) with false.
    cbn [negb].
    change ((modify (set_isSceneAnimated true);; handleFrame)
              (set_isSceneAnimated false s))
      with (handleFrame
              (set_isSceneAnimated true (set_isSceneAnimated false s))).
    now rewrite Hf. }
  rewrite E2. repeat split; assumption.
Qed.

Lemma stop_then_start_adds_a_frame_request_witness :
  isSceneAnimated (run [StopAnimation; StartAnimation] exampleRunning) = true
  /\ frameNumber (run [StopAnimation; StartAnimation] exampleRunning) =
     frameNumber exampleRunning + 1
  /\ animationFrameRequests
       (run [StopAnimation; StartAnimation] exampleRunning) =
     S (animationFrameRequests exampleRunning)
  /\ renderPasses
       (issued exampleRunning
          (run [StopAnimation; StartAnimation] exampleRunning)) = 1%nat.
Proof.
  apply (stop_then_start_adds_a_frame_request exampleRunning);
    vm_compute; reflexivity.
Defined.

(** * The page stays in order *)

Lemma pageInOrder_tables s s' :
  templates s' = templates s ->
  lightSourceData s' = lightSourceData s ->
  sceneObjectsData s' = sceneObjectsData s ->
  checkboxes s' = checkboxes s ->
  matrixStack s' = matrixStack s ->
  pageInOrder s -> pageInOrder s'.
Proof.
  intros Ht Hl Ho Hc Hs (H1 & H2 & H3 & H4).
  unfold pageInOrder, resolves, checkboxesPresent, lightsHaveUniforms.
  rewrite Ht, Hl, Ho, Hc, Hs. auto.
Qed.

Lemma keepsPage_modify (u : App -> App) :
  (forall s, pageInOrder s -> pageInOrder (u s)) -> keepsPage (modify u).
Proof. intros H s Hp. exists (u s). split; [reflexivity|now apply H]. Qed.

Lemma keepsPage_bind (c1 c2 : M unit) :
  keepsPage c1 -> keepsPage c2 -> keepsPage (c1;; c2).
Proof.
  intros H1 H2 s Hp. destruct (H1 s Hp) as (s1 & E1 & Hp1).
  destruct (H2 s1 Hp1) as (s2 & E2 & Hp2).
  exists s2. split; [|exact Hp2].
  now rewrite (bind_Ok _ _ _ _ _ E1).
Qed.

Lemma keepsPage_render : keepsPage render.
Proof.
  intros s Hp. destruct (render_spec s (proj1 Hp)) as (h & l & Hr & _).
  eexists. split; [exact Hr|].
  revert Hp. apply pageInOrder_tables; reflexivity.
Qed.

Lemma keepsPage_renderUnlessAnimated : keepsPage renderUnlessAnimated.
Proof.
  intros s Hp. unfold renderUnlessAnimated.
  destruct (negb (isSceneAnimated s)).
  - now apply keepsPage_render.
  - now exists s.
Qed.

Lemma keepsPage_window_alert message : keepsPage (window_alert message).
Proof.
  apply keepsPage_modify. intros s. apply pageInOrder_tables; reflexivity.
Qed.

Lemma keepsPage_handleFrame : keepsPage handleFrame.
Proof.
  intros s Hp. unfold handleFrame. destruct (isSceneAnimated s).
  - revert s Hp.
    apply (keepsPage_bind
             (modify (fun s => set_frameNumber (frameNumber s + 1) s))).
    { apply keepsPage_modify. intros s.
      apply pageInOrder_tables; reflexivity. }
    apply keepsPage_bind; [apply keepsPage_render|].
    apply keepsPage_modify. intros s. apply pageInOrder_tables; reflexivity.
  - now exists s.
Qed.

Lemma keepsPage_handleAnimationStart : keepsPage handleAnimationStart.
Proof.
  intros s Hp. unfold handleAnimationStart.
  destruct (negb (isSceneAnimated s)).
  - revert s Hp. apply keepsPage_bind; [|apply keepsPage_handleFrame].
    apply keepsPage_modify. intros s. apply pageInOrder_tables; reflexivity.
  - now apply keepsPage_window_alert.
Qed.

Lemma keepsPage_handleAnimationStop : keepsPage handleAnimationStop.
Proof.
  intros s Hp. unfold handleAnimationStop. destruct (isSceneAnimated s).
  - revert s Hp. apply keepsPage_modify. intros s.
    apply pageInOrder_tables; reflexivity.
  - now apply keepsPage_window_alert.
Qed.

Lemma keepsPage_onAnimationFrame : keepsPage onAnimationFrame.
Proof.
  intros s Hp. unfold onAnimationFrame.
  destruct (animationFrameRequests s) as [|n]; [now exists s|].
  apply keepsPage_handleFrame.
  revert Hp. apply pageInOrder_tables; reflexivity.
Qed.

Lemma forallb_map_inv {A B} (g : A -> B) (q : B -> bool) (l : list A) :
  forallb (fun a => q (g a)) l = forallb q (map g l).
Proof. induction l as [|a l IH]; [reflexivity|]. simpl. now rewrite IH. Qed.

Lemma checkboxesPresent_ids s s' :
  map (fun km => Template.elementId (snd km)) (templates s') =
  map (fun km => Template.elementId (snd km)) (templates s) ->
  (forall id,
     match prop (checkboxes s') id with Some _ => true | None => false end =
     match prop (checkboxes s) id with Some _ => true | None => false end) ->
  checkboxesPresent s' = checkboxesPresent s.
Proof.
  intros Hids Hcb. unfold checkboxesPresent.
  rewrite (forallb_map_inv (fun km => Template.elementId (snd km))
             (fun id => match prop (checkboxes s') id with
                        | Some _ => true | None => false end)).
  rewrite (forallb_map_inv (fun km => Template.elementId (snd km))
             (fun id => match prop (checkboxes s) id with
                        | Some _ => true | None => false end)).
  rewrite Hids. now apply forallb_pointwise.
Qed.

Lemma ids_alter_prop (f : Template.t -> Template.t) k ts :
  (forall t, Template.elementId (f t) = Template.elementId t) ->
  map (fun km => Template.elementId (snd km)) (alter_prop f k ts) =
  map (fun km => Template.elementId (snd km)) ts.
Proof.
  intros Hf. induction ts as [|[k' v] ts IH]; [reflexivity|].
  cbn [alter_prop]. destruct (String.eqb k' k); cbn [map snd].
  - now rewrite Hf.
  - now rewrite IH.
Qed.

Lemma ids_resetTemplates ks : forall ts,
  map (fun km => Template.elementId (snd km)) (resetTemplates ks ts) =
  map (fun km => Template.elementId (snd km)) ts.
Proof.
  induction ks as [|k ks IH]; intros ts; [reflexivity|].
  unfold resetTemplates. cbn [fold_left].
  etransitivity; [apply IH|]. now apply ids_alter_prop.
Qed.

Lemma keepsPage_handleSceneElementCheckboxChanges model :
  keepsPage (handleSceneElementCheckboxChanges model).
Proof.
  apply keepsPage_bind; [|apply keepsPage_renderUnlessAnimated].
  apply keepsPage_modify. intros s (H1 & H2 & H3 & H4).
  repeat split.
  - now rewrite resolves_alter.
  - exact H2.
  - rewrite <- H3. apply checkboxesPresent_ids; [|reflexivity].
    now apply ids_alter_prop.
  - exact H4.
Qed.

Lemma keepsPage_handleLightSourceCheckboxChanges i :
  keepsPage (handleLightSourceCheckboxChanges i).
Proof.
  intros s Hp. unfold handleLightSourceCheckboxChanges.
  destruct (lightSourceData s !! i) as [light|] eqn:Hi; [|now exists s].
  destruct (lightsHaveUniforms_lookup s i light (proj2 (proj2 (proj2 Hp))) Hi)
    as (lu & Hlu).
  rewrite Hlu.
  change ((modify (fun s0 =>
             set_lightSourceData
               (<[i := Light.set_lightsUniforms (Some (toggleEnabled lu))
                         light]> (lightSourceData s0)) s0);;
           renderUnlessAnimated) s)
    with (renderUnlessAnimated
            (set_lightSourceData
               (<[i := Light.set_lightsUniforms (Some (toggleEnabled lu))
                         light]> (lightSourceData s)) s)).
  apply keepsPage_renderUnlessAnimated.
  destruct Hp as (H1 & H2 & H3 & H4). repeat split.
  - now rewrite (resolves_toggleLight s i light lu Hi Hlu).
  - exact H2.
  - exact H3.
  - rewrite <- H4. unfold lightsHaveUniforms.
    change (lightSourceData
              (set_lightSourceData
                 (<[i := Light.set_lightsUniforms (Some (toggleEnabled lu))
                           light]> (lightSourceData s)) s))
      with (<[i := Light.set_lightsUniforms (Some (toggleEnabled lu))
                light]> (lightSourceData s)).
    apply (forallb_insert _ _ i light); [exact Hi|].
    now rewrite Hlu.
Qed.

Lemma keepsPage_onWheel wheelDelta : keepsPage (onWheel wheelDelta).
Proof.
  apply keepsPage_bind; [|apply keepsPage_renderUnlessAnimated].
  apply keepsPage_modify. intros s. apply pageInOrder_tables; reflexivity.
Qed.

Lemma keepsPage_onDrag dx dy : keepsPage (onDrag dx dy).
Proof.
  apply keepsPage_bind; [|apply keepsPage_renderUnlessAnimated].
  apply keepsPage_modify. intros s. apply pageInOrder_tables; reflexivity.
Qed.

Lemma keepsPage_resetLoop :
  keepsPage (fun s => forEach resetTemplate (map fst (templates s)) s).
Proof.
  intros s (H1 & H2 & H3 & H4). eexists.
  split; [exact (handleReset_loop s s H3 eq_refl eq_refl)|].
  repeat split.
  - rewrite resolves_templates_ext; [exact H1|].
    intros K. apply prop_resetTemplates_isSome.
  - exact H2.
  - rewrite <- H3. apply checkboxesPresent_ids.
    + apply ids_resetTemplates.
    + intros id. apply prop_resetCheckboxes_isSome.
  - exact H4.
Qed.

Lemma keepsPage_handleReset : keepsPage handleReset.
Proof.
  unfold handleReset.
  repeat (apply keepsPage_bind;
          [apply keepsPage_modify; intros s;
           apply pageInOrder_tables; reflexivity|]).
  apply keepsPage_bind; [apply keepsPage_resetLoop|apply keepsPage_render].
Qed.

Lemma keepsPage_dispatch e : keepsPage (dispatch e).
Proof.
  destruct e; cbn [dispatch].
  - apply keepsPage_handleAnimationStart.
  - apply keepsPage_handleAnimationStop.
  - apply keepsPage_handleReset.
  - apply keepsPage_onAnimationFrame.
  - apply keepsPage_handleSceneElementCheckboxChanges.
  - apply keepsPage_handleLightSourceCheckboxChanges.
  - apply keepsPage_onWheel.
  - apply keepsPage_onWheel.
  - apply keepsPage_onDrag.
Qed.

Lemma pageInOrder_run es : forall s, pageInOrder s -> pageInOrder (run es s).
Proof.
  induction es as [|e es IH]; intros s Hp; [exact Hp|].
  rewrite run_cons. apply IH.
  destruct (keepsPage_dispatch e s Hp) as (s' & E & Hp'). now rewrite E.
Qed.

(** X10: on a page in order (every shape type in use has a template, every
    light has its uniforms, every template has its checkbox, and the matrix
    stack is empty), no handler throws, whatever the user does and in
    whatever order: after any sequence of events the page is in order again,
    and the handler of the next event returns normally. *)
Theorem page_stays_in_order (s : App) (es : list Event) (e : Event) :
  pageInOrder s ->
  pageInOrder (run es s)
  /\ returns (dispatch e (run es s)) = true
  /\ matrixStack (final (dispatch e (run es s))) = [].
Proof.
  intros Hp. pose proof (pageInOrder_run es s Hp) as Hr.
  split; [exact Hr|].
  destruct (keepsPage_dispatch e _ Hr) as (s' & E & Hp').
  rewrite E. split; [reflexivity|]. apply Hp'.
Qed.

Lemma page_stays_in_order_witness :
  pageInOrder (run [ToggleShape "Sphere"; StartAnimation; AnimationFrame]
                 exampleState)
  /\ returns (dispatch ResetModel
                (run [ToggleShape "Sphere"; StartAnimation; AnimationFrame]
                   exampleState)) = true
  /\ matrixStack
       (final (dispatch ResetModel
                 (run [ToggleShape "Sphere"; StartAnimation; AnimationFrame]
                    exampleState))) = [].
Proof.
  apply (page_stays_in_order exampleState
           [ToggleShape "Sphere"; StartAnimation; AnimationFrame] ResetModel).
  repeat split; vm_compute; reflexivity.
Defined.

(** * Setting the page up *)

Lemma issues_defaults paramType c :
  issues (handleSettingOfDefaultUniforms paramType c)
         (defaultCalls paramType c).
Proof. apply issues_uniforms. Qed.

Lemma issues_lightsDefaults lights : forall i,
  issues (forIndexed
            (fun i _ => handleSettingOfDefaultUniforms "Lights" (Some i))
            i lights)
         (lightsDefaultCalls i lights).
Proof.
  induction lights as [|light rest IH]; intros i.
  - apply issues_ret.
  - cbn [forIndexed lightsDefaultCalls].
    apply issues_bind; [apply issues_defaults|apply IH].
Qed.

Lemma initGL_st s g h mv stk :
  initGL (st s g h mv stk) = Ok tt (st s (execs (initGLCalls s) g) h mv stk).
Proof.
  unfold initGL, initGLCalls.
  rewrite (bind_Ok _ _ _ _ _ (issues_defaults "Material" None s g h mv stk)).
  cbv beta. rewrite execs_app.
  change (lightSourceData (st s (execs (defaultCalls "Material" None) g)
                             h mv stk))
    with (lightSourceData s).
  apply issues_lightsDefaults.
Qed.

Lemma renderPasses_defaultCalls paramType c :
  renderPasses (defaultCalls paramType c) = 0%nat.
Proof. apply count_uniformCalls, drawOrClearOnly_isClear. Qed.

Lemma renderPasses_lightsDefaultCalls lights : forall i,
  renderPasses (lightsDefaultCalls i lights) = 0%nat.
Proof.
  induction lights as [|light rest IH]; intros i; [reflexivity|].
  cbn [lightsDefaultCalls]. unfold renderPasses. rewrite count_app.
  fold (renderPasses (defaultCalls "Lights" (Some i))).
  fold (renderPasses (lightsDefaultCalls (S i) rest)).
  now rewrite renderPasses_defaultCalls, IH.
Qed.

Lemma renderPasses_initGLCalls s : renderPasses (initGLCalls s) = 0%nat.
Proof.
  unfold initGLCalls, renderPasses. rewrite count_app.
  fold (renderPasses (defaultCalls "Material" None)).
  fold (renderPasses (lightsDefaultCalls 0 (lightSourceData s))).
  now rewrite renderPasses_defaultCalls, renderPasses_lightsDefaultCalls.
Qed.

Lemma prop_initialCheckboxes ts rest : forall km,
  In km ts ->
  prop (map (fun kt : string * Template.t =>
               (Template.elementId (snd kt), true)) ts ++ rest)
       (Template.elementId (snd km)) <> None.
Proof.
  induction ts as [|kt ts IH]; intros km Hin; [destruct Hin|].
  cbn [map app prop fst snd].
  destruct (String.eqb (Template.elementId (snd kt))
              (Template.elementId (snd km))) eqn:E; [discriminate|].
  destruct Hin as [->|Hin]; [now rewrite String.eqb_refl in E|].
  now apply IH.
Qed.

Lemma checkboxesPresent_initialState ts :
  checkboxesPresent (initialState ts) = true.
Proof.
  unfold checkboxesPresent. apply forallb_forall. intros km Hin.
  pose proof (prop_initialCheckboxes ts
                (map (fun l => (Light.elementId l, true)) lightSourceData0)
                km Hin) as H.
  change (checkboxes (initialState ts))
    with (initialCheckboxes ts lightSourceData0).
  unfold initialCheckboxes.
  now destruct (prop _ _).
Qed.

Lemma lightsHaveUniforms_initialState ts :
  lightsHaveUniforms (initialState ts) = true.
Proof. vm_compute. reflexivity. Qed.

Lemma init_spec ts :
  resolves (initialState ts) = true ->
  exists h l,
    init ts =
    Ok tt (st (initialState ts)
             (execs (initGLCalls (initialState ts) ++
                     renderCalls (initialState ts))
                (gl (initialState ts)))
             h (Some l) []).
Proof.
  intros Hres.
  assert (E : init ts =
              (initGL;; render)
                (st (initialState ts) (gl (initialState ts))
                   (heap (initialState ts)) (modelview (initialState ts))
                   (matrixStack (initialState ts))))
    by now rewrite st_self.
  rewrite E. rewrite (bind_Ok _ _ _ _ _ (initGL_st _ _ _ _ _)).
  destruct (render_st (initialState ts)
              (execs (initGLCalls (initialState ts)) (gl (initialState ts)))
              (heap (initialState ts)) (modelview (initialState ts))
              (matrixStack (initialState ts)) Hres)
    as (h & l & Hr & _).
  exists h, l. rewrite execs_app. exact Hr.
Qed.

(** X11: when every shape type the scene data names has a template, [init]
    returns normally and leaves the page in order: the animation stopped,
    the frame counter at 0, the zoom factor at 1, no frame requested, and
    the scene drawn by exactly one render pass after the default uniforms
    have been set. *)
Theorem init_sets_up_page (ts : list (string * Template.t)) :
  resolves (initialState ts) = true ->
  exists s',
    init ts = Ok tt s'
    /\ pageInOrder s'
    /\ templates s' = ts
    /\ isSceneAnimated s' = false
    /\ frameNumber s' = 0
    /\ sceneScale s' = 1%float
    /\ animationFrameRequests s' = 0%nat
    /\ renderPasses (issued (initialState ts) s') = 1%nat.
Proof.
  intros Hres. destruct (init_spec ts Hres) as (h & l & H).
  eexists. split; [exact H|].
  split.
  { apply (pageInOrder_tables (initialState ts)); try reflexivity.
    split; [exact Hres|]. split; [reflexivity|].
    split; [apply checkboxesPresent_initialState|].
    apply lightsHaveUniforms_initialState. }
  do 5 (split; [reflexivity|]).
  rewrite issued_st. unfold renderPasses. rewrite count_app.
  fold (renderPasses (initGLCalls (initialState ts))).
  fold (renderPasses (renderCalls (initialState ts))).
  now rewrite renderPasses_initGLCalls, renderPasses_renderCalls.
Qed.

Lemma init_sets_up_page_witness :
  exists s',
    init exampleTemplates = Ok tt s'
    /\ pageInOrder s'
    /\ templates s' = exampleTemplates
    /\ isSceneAnimated s' = false
    /\ frameNumber s' = 0
    /\ sceneScale s' = 1%float
    /\ animationFrameRequests s' = 0%nat
    /\ renderPasses (issued (initialState exampleTemplates) s') = 1%nat.
Proof. apply init_sets_up_page. vm_compute. reflexivity. Defined.

(** * The shape templates *)

Lemma prop_set_prop {A} (o : list (string * A)) k v k' :
  prop (set_prop o k v) k' = if String.eqb k k' then Some v else prop o k'.
Proof.
  induction o as [|[k0 v0] o IH]; cbn [set_prop prop].
  - reflexivity.
  - destruct (String.eqb k0 k) eqn:E; cbn [prop].
    + apply String.eqb_eq in E. subst k0.
      now destruct (String.eqb k k').
    + destruct (String.eqb k0 k') eqn:E'.
      * apply String.eqb_eq in E'. subst k0.
        rewrite String.eqb_sym in E. now rewrite E.
      * exact IH.
Qed.

Lemma In_set_prop {A} (o : list (string * A)) k v x :
  In x (set_prop o k v) -> x = (k, v) \/ In x o.
Proof.
  induction o as [|[k0 v0] o IH]; cbn [set_prop].
  - intros [<-|[]]. now left.
  - destruct (String.eqb k0 k).
    + intros [<-|H]; [now left|right; now right].
    + intros [<-|H]; [right; now left|].
      destruct (IH H) as [->|H']; [now left|right; now right].
Qed.

Lemma distinctIndexBuffers_NoDup ts :
  distinctIndexBuffers ts = true <->
  List.NoDup (map (fun km => Template.indexBuffer (snd km)) ts).
Proof.
  induction ts as [|[k m] ts IH]; cbn [distinctIndexBuffers map snd].
  - split; [constructor|reflexivity].
  - rewrite andb_true_iff, IH, forallb_forall. split.
    + intros [Hall Hnd]. constructor; [|exact Hnd].
      rewrite in_map_iff. intros (km & E & Hin).
      specialize (Hall km Hin). rewrite E, Nat.eqb_refl in Hall.
      discriminate.
    + intros H. inversion H as [|x l Hnot Hnd]; subst. split; [|exact Hnd].
      intros km Hin. apply negb_true_iff, Nat.eqb_neq. intros E.
      apply Hnot, in_map_iff. now exists km.
Qed.

Lemma NoDup_set_prop ts k v :
  List.NoDup (map (fun km => Template.indexBuffer (snd km)) ts) ->
  ~ In (Template.indexBuffer v)
       (map (fun km => Template.indexBuffer (snd km)) ts) ->
  List.NoDup (map (fun km => Template.indexBuffer (snd km)) (set_prop ts k v)).
Proof.
  induction ts as [|[k0 v0] ts IH]; cbn [set_prop map snd]; intros Hnd Hnot.
  - constructor; [exact Hnot|constructor].
  - inversion Hnd as [|x l Hn0 Hnd0]; subst.
    destruct (String.eqb k0 k); cbn [map snd].
    + constructor; [|exact Hnd0]. intros H. apply Hnot. now right.
    + constructor.
      * rewrite in_map_iff. intros (km & E & Hin).
        destruct (In_set_prop _ _ _ _ Hin) as [->|Hin'].
        -- apply Hnot. left. exact (eq_sym E).
        -- apply Hn0, in_map_iff. now exists km.
      * apply IH; [exact Hnd0|]. intros H. apply Hnot. now right.
Qed.

Lemma assembleShapeTemplates_distinct ps : forall b ts,
  List.NoDup (map (fun km => Template.indexBuffer (snd km)) ts) ->
  (forall km, In km ts -> (Template.indexBuffer (snd km) < b)%nat) ->
  List.NoDup (map (fun km => Template.indexBuffer (snd km))
           (assembleShapeTemplates b ps ts)).
Proof.
  induction ps as [|[name [tex n]] ps IH]; intros b ts Hnd Hlt;
    cbn [assembleShapeTemplates]; [exact Hnd|].
  apply IH.
  - apply NoDup_set_prop; [exact Hnd|].
    rewrite in_map_iff. intros (km & E & Hin). specialize (Hlt km Hin).
    rewrite E in Hlt. cbn [assembleShapeTemplate Template.indexBuffer] in Hlt.
    destruct tex; lia.
  - intros km Hin. destruct (In_set_prop _ _ _ _ Hin) as [->|Hin'].
    + cbn [snd assembleShapeTemplate Template.indexBuffer]. destruct tex; lia.
    + specialize (Hlt km Hin'). destruct tex; lia.
Qed.

Lemma assembleShapeTemplates_lookup ps : forall b ts K model,
  prop (assembleShapeTemplates b ps ts) K = Some model ->
  (exists b' tex n,
     In (K, (tex, n)) ps /\ model = assembleShapeTemplate K b' tex n)
  \/ prop ts K = Some model.
Proof.
  induction ps as [|[name [tex n]] ps IH]; intros b ts K model;
    cbn [assembleShapeTemplates]; [now right|].
  intros H. destruct (IH _ _ _ _ H) as [(b' & tex' & n' & Hin & E)|H'].
  - left. exists b', tex', n'. split; [now right|exact E].
  - rewrite prop_set_prop in H'.
    destruct (String.eqb name K) eqn:E.
    + apply String.eqb_eq in E. subst name. injection H' as <-.
      left. exists b, tex, n. split; [now left|reflexivity].
    + now right.
Qed.

Lemma assembleShapeTemplates_keys ps : forall b ts K,
  prop (assembleShapeTemplates b ps ts) K <> None <->
  In K (map fst ps) \/ prop ts K <> None.
Proof.
  induction ps as [|[name [tex n]] ps IH]; intros b ts K;
    cbn [assembleShapeTemplates map fst].
  - split; [now right|now intros [[]|H]].
  - rewrite IH, prop_set_prop. destruct (String.eqb name K) eqn:E.
    + apply String.eqb_eq in E. subst name. split; [|now right].
      intros _. left. now left.
    + apply String.eqb_neq in E. split.
      * intros [H|H]; [left; now right|now right].
      * intros [[H|H]|H]; [contradiction|now left|now right].
Qed.

(** X12: the templates [assembleShapeTemplates] builds: there is one for
    each polyhedron and for nothing else, each is filed under its own shape
    type, is visible, counts the indices of a polyhedron of that name, and
    no two of them share an index buffer. *)
Theorem assembleShapeTemplates_builds_one_template_each
    (b : nat) (polyhedra : list (string * (bool * nat))) :
  distinctIndexBuffers (assembleShapeTemplates b polyhedra []) = true
  /\ (forall K,
        In K (map fst polyhedra) <->
        prop (assembleShapeTemplates b polyhedra []) K <> None)
  /\ (forall K model,
        prop (assembleShapeTemplates b polyhedra []) K = Some model ->
        Template.shapeType model = K
        /\ Template.isAnimated model = true
        /\ exists tex n,
             In (K, (tex, n)) polyhedra /\ Template.count model = n).
Proof.
  split; [|split].
  - apply distinctIndexBuffers_NoDup, assembleShapeTemplates_distinct.
    + constructor.
    + intros km [].
  - intros K. rewrite assembleShapeTemplates_keys. cbn [prop].
    split; [now left|now intros [H|H]].
  - intros K model H.
    destruct (assembleShapeTemplates_lookup _ _ _ _ _ H)
      as [(b' & tex & n & Hin & ->)|H']; [|discriminate].
    split; [reflexivity|]. split; [reflexivity|]. now exists tex, n.
Qed.

(** * Utility functions on numbers *)

Lemma this_num z : this (num z) = inject_Z z.
Proof.
  unfold num, Q2Qc. cbn [this]. apply Qred_identity.
  unfold inject_Z. cbn [Qnum Qden]. apply Z.gcd_1_r.
Qed.

Lemma toInt32_num z :
  - 2 ^ 31 <= z < 2 ^ 31 -> toInt32 (num z) = z.
Proof.
  intros Hz. unfold toInt32. rewrite this_num.
  unfold inject_Z. cbn [Qnum Qden]. rewrite Z.quot_1_r.
  assert (E32 : 2 ^ 32 = 4294967296) by reflexivity.
  assert (E31 : 2 ^ 31 = 2147483648) by reflexivity.
  rewrite E32, E31 in *. cbv zeta.
  destruct (Z_lt_le_dec z 0) as [Hneg|Hpos].
  - assert (E : z mod 4294967296 = z + 4294967296).
    { symmetry. apply (Z.mod_unique_pos _ _ (-1)); lia. }
    rewrite E. destruct (Z.ltb_spec (z + 4294967296) 2147483648); lia.
  - rewrite Z.mod_small by lia.
    destruct (Z.ltb_spec z 2147483648); lia.
Qed.

Lemma num_sub a b : num (a - b) = (num a - num b)%Qc.
Proof.
  unfold Qcminus. rewrite <- num_opp, <- num_add. reflexivity.
Qed.

Lemma land_pred_pow2 v :
  0 < v -> (Z.land v (v - 1) = 0 <-> exists k, 0 <= k /\ v = 2 ^ k).
Proof.
  intros Hv. split.
  - intros Hland. exists (Z.log2 v).
    pose proof (Z.log2_nonneg v) as Hk. split; [exact Hk|].
    pose proof (Z.log2_spec v Hv) as [Hlo Hhi].
    destruct (Z.eq_dec v (2 ^ Z.log2 v)) as [E|Hne]; [exact E|exfalso].
    assert (Hlog : Z.log2 (v - 1) = Z.log2 v).
    { apply Z.log2_unique; [exact Hk|lia]. }
    assert (Hbit : Z.testbit (Z.land v (v - 1)) (Z.log2 v) = true).
    { rewrite Z.land_spec, Z.bit_log2 by exact Hv.
      rewrite <- Hlog. rewrite Z.bit_log2; [reflexivity|].
      pose proof (Z.pow_pos_nonneg 2 (Z.log2 v)). lia. }
    rewrite Hland, Z.bits_0 in Hbit. discriminate.
  - intros (k & Hk & ->).
    replace (2 ^ k - 1) with (Z.ones k) by (rewrite Z.ones_equiv; lia).
    rewrite Z.land_ones by exact Hk. apply Z.mod_same.
    pose proof (Z.pow_pos_nonneg 2 k). lia.
Qed.

(** X13: on an image dimension, an integer from 0 up to [2^31 - 1],
    [isPowerOf2] is true exactly when the dimension is a power of two or is
    0: the dimension 0 passes the test as well. *)
Theorem isPowerOf2_true_on_powers_of_two_and_zero (v : Z) :
  0 <= v < 2 ^ 31 ->
  (isPowerOf2 (num v) = true <-> v = 0 \/ exists k, 0 <= k /\ v = 2 ^ k).
Proof.
  intros Hv. unfold isPowerOf2.
  assert (E31 : 2 ^ 31 = 2147483648) by reflexivity.
  rewrite <- num_sub, !toInt32_num by lia.
  rewrite Z.eqb_eq.
  destruct (Z.eq_dec v 0) as [->|Hne].
  - split; [now left|reflexivity].
  - rewrite land_pred_pow2 by lia. split; [now right|].
    now intros [H|H].
Qed.

Lemma isPowerOf2_true_on_powers_of_two_and_zero_witness :
  isPowerOf2 (num 512) = true <-> 512 = 0 \/ exists k, 0 <= k /\ 512 = 2 ^ k.
Proof.
  apply (isPowerOf2_true_on_powers_of_two_and_zero 512).
  split; [lia|reflexivity].
Defined.

(** The colour conversion rounds before it truncates: the channel
    0.00392156862745098 times 255 is, in binary64, exactly 1, and 1 is what
    the array holds, although the product of the two literals is below 1. *)
Lemma convertColorToUint8Array_rounds_the_product :
  convertColorToUint8Array
    [frac 392156862745098 100000000000000000; num 1; frac 1 2; num 0] =
  [1; 255; 127; 0].
Proof. vm_compute. reflexivity. Qed.

(** * Lights that are switched off *)

Lemma flat_map_insert {A B} (f : A -> list B) (l : list A) i a b :
  l !! i = Some a -> f b = f a -> flat_map f (<[i := b]> l) = flat_map f l.
Proof.
  revert i. induction l as [|x l IH]; intros [|i] Hi Hf;
    try discriminate; cbn [flat_map].
  - injection Hi as ->. cbn. now rewrite Hf.
  - cbn. f_equal. now apply IH.
Qed.

(** X15: unticking or ticking the checkbox of a light, while the animation
    is stopped, redraws the scene with the very draw calls a render pass
    made before: the body of a light that is switched off is drawn all the
    same, and so is everything else. *)
Theorem light_toggle_keeps_every_draw
    (s : App) (i : nat) (light : Light.t) (lu : JsObject) :
  isSceneAnimated s = false ->
  resolves s = true ->
  lightSourceData s !! i = Some light ->
  Light.lightsUniforms light = Some lu ->
  exists s',
    dispatch (ToggleLight i) s = Ok tt s'
    /\ renderPasses (issued s s') = 1%nat
    /\ draws (issued s s') = draws (renderCalls s).
Proof.
  intros Hstop Hres Hi Hlu.
  set (s1 := set_lightSourceData
               (<[i := Light.set_lightsUniforms (Some (toggleEnabled lu))
                         light]> (lightSourceData s)) s).
  assert (Hres1 : resolves s1 = true)
    by (unfold s1; now rewrite resolves_toggleLight).
  assert (E : dispatch (ToggleLight i) s = renderUnlessAnimated s1).
  { cbn [dispatch]. unfold handleLightSourceCheckboxChanges.
    now rewrite Hi, Hlu. }
  destruct (renderUnlessAnimated_stopped s1 Hstop Hres1) as (h & l & Hr).
  rewrite E. eexists. split; [exact Hr|].
  change (gl s1) with (gl s). rewrite issued_st.
  split; [apply renderPasses_renderCalls|].
  rewrite !draws_renderCalls by assumption. f_equal.
  change (lightSourceData s1)
    with (<[i := Light.set_lightsUniforms (Some (toggleEnabled lu)) light]>
            (lightSourceData s)).
  change (templates s1) with (templates s).
  now apply (flat_map_insert _ _ i light).
Qed.

Lemma light_toggle_keeps_every_draw_witness :
  exists s',
    dispatch (ToggleLight 0) exampleState = Ok tt s'
    /\ renderPasses (issued exampleState s') = 1%nat
    /\ draws (issued exampleState s') = draws (renderCalls exampleState).
Proof.
  apply (light_toggle_keeps_every_draw exampleState 0 sunLight
           sunLightUniforms);
    vm_compute; reflexivity.
Defined.

(** * Textures *)

Lemma textureUploads_app cs1 cs2 :
  textureUploads (cs1 ++ cs2) = textureUploads cs1 ++ textureUploads cs2.
Proof. apply flat_map_app. Qed.

Lemma textureUploads_none cs :
  Forall (fun c => match c with
                   | TexImage2D _ => False
                   | _ => True
                   end) cs ->
  textureUploads cs = [].
Proof.
  induction 1 as [|c cs Hc _ IH]; [reflexivity|].
  unfold textureUploads in *. simpl. rewrite IH. now destruct c.
Qed.

Lemma textureUploads_uniformCalls o keys c :
  textureUploads (uniformCalls o keys c) = [].
Proof.
  apply textureUploads_none, Forall_forall. intros a Ha.
  apply list_elem_of_In, in_map_iff in Ha as (key & <- & _).
  unfold uniformCall.
  destruct c, (js_get o key);
    repeat match goal with
           | |- context [String.eqb ?a ?b] => destruct (String.eqb a b)
           end; exact I.
Qed.

Lemma textureUploads_opt_uniforms (o : option JsObject)
    (f : JsObject -> JsObject) c :
  textureUploads match o with
                 | Some u => uniformCalls (f u) (js_keys u) c
                 | None => []
                 end = [].
Proof. destruct o; [apply textureUploads_uniformCalls|reflexivity]. Qed.

Lemma textureUploads_templateCalls model cfg m :
  textureUploads (templateCalls model cfg m) =
  match RenderConfig.texture cfg with
  | Some _ => [convertColorToUint8Array Colors.WHITE]
  | None => []
  end.
Proof.
  unfold templateCalls. rewrite !textureUploads_app.
  destruct (Template.texCoordsBuffer model), (RenderConfig.texture cfg);
    reflexivity.
Qed.

Lemma textureUploads_lightCalls ts i light base :
  lightResolves ts light = true ->
  textureUploads (lightCalls ts i light base) =
  if hasTexturedBody light then [convertColorToUint8Array Colors.WHITE]
  else [].
Proof.
  intros Hres. unfold lightCalls. rewrite !textureUploads_app.
  rewrite (textureUploads_opt_uniforms _ (fun u => u)).
  rewrite (textureUploads_opt_uniforms _ (fun u => u)).
  rewrite (textureUploads_opt_uniforms _ (fun _ => DefaultUniforms.MATERIAL)).
  rewrite app_nil_r. cbn [app].
  unfold lightBodyCalls, hasTexturedBody, lightResolves in *.
  destruct (Light.shapeType light) as [shape|]; [|reflexivity].
  destruct (Light.shapeColor light) as [sc|]; [|reflexivity].
  destruct (Light.lightsUniforms light) as [lu|]; [|discriminate].
  destruct (prop ts shape) as [model|]; [|discriminate].
  change (textureUploads (?c :: ?cs))
    with (textureUploads [c] ++ textureUploads cs).
  rewrite textureUploads_templateCalls. cbn [lightConfig RenderConfig.texture].
  now destruct (Light.texture light).
Qed.

Lemma textureUploads_lightsCalls ts base lights :
  forallb (lightResolves ts) lights = true ->
  forall i,
    textureUploads (lightsCalls ts base i lights) =
    repeat (convertColorToUint8Array Colors.WHITE)
      (length (List.filter hasTexturedBody lights)).
Proof.
  induction lights as [|light lights IH]; intros Hres i; [reflexivity|].
  cbn [forallb] in Hres. apply andb_prop in Hres as [Hl Hres].
  cbn [lightsCalls List.filter].
  rewrite textureUploads_app, textureUploads_lightCalls, IH by assumption.
  now destruct (hasTexturedBody light).
Qed.

Lemma textureUploads_objectCalls ts F base o :
  textureUploads (objectCalls ts F base o) =
  if isTexturedVisible ts o then [convertColorToUint8Array Colors.WHITE]
  else [].
Proof.
  unfold objectCalls, isTexturedVisible.
  destruct (prop ts (SceneObject.shapeType o)) as [model|]; [|reflexivity].
  destruct (Template.isAnimated model);
    [|now destruct (SceneObject.texture o)].
  rewrite !textureUploads_app, textureUploads_templateCalls.
  cbn [objectConfig RenderConfig.texture].
  unfold materialCalls, materialResetCalls.
  destruct (MaterialUniforms.specularColor _),
    (MaterialUniforms.specularExponent _), (SceneObject.texture o);
    reflexivity.
Qed.

Lemma textureUploads_objects ts F base objs :
  textureUploads (flat_map (objectCalls ts F base) objs) =
  repeat (convertColorToUint8Array Colors.WHITE)
    (length (List.filter (isTexturedVisible ts) objs)).
Proof.
  induction objs as [|o objs IH]; [reflexivity|].
  cbn [flat_map List.filter].
  rewrite textureUploads_app, textureUploads_objectCalls, IH.
  now destruct (isTexturedVisible ts o).
Qed.

Lemma white_pixel :
  convertColorToUint8Array Colors.WHITE = [255; 255; 255; 255].
Proof. vm_compute. reflexivity. Qed.

(** X16: a render pass loads a texture anew for every instance it draws with
    one: [texImage2D] uploads the one-pixel white placeholder once for each
    light body that has a texture and once for each scene object of a
    visible kind that has one, on every pass. *)
Theorem render_uploads_a_placeholder_per_textured_instance (s : App) :
  resolves s = true ->
  exists s',
    render s = Ok tt s'
    /\ textureUploads (issued s s') =
       repeat [255; 255; 255; 255]
         (length (List.filter hasTexturedBody (lightSourceData s)) +
          length (List.filter (isTexturedVisible (templates s))
                    (sceneObjectsData s))).
Proof.
  intros Hres. destruct (render_spec s Hres) as (h & l & Hrun & _).
  eexists. split; [exact Hrun|].
  rewrite issued_st.
  unfold resolves in Hres. apply andb_prop in Hres as [Hlights _].
  unfold renderCalls. rewrite !textureUploads_app.
  rewrite textureUploads_lightsCalls, textureUploads_objects by assumption.
  rewrite white_pixel, repeat_app. reflexivity.
Qed.

Lemma render_uploads_a_placeholder_per_textured_instance_witness :
  exists s',
    render exampleState = Ok tt s'
    /\ textureUploads (issued exampleState s') =
       repeat [255; 255; 255; 255]
         (length (List.filter hasTexturedBody
                    (lightSourceData exampleState)) +
          length (List.filter (isTexturedVisible (templates exampleState))
                    (sceneObjectsData exampleState))).
Proof.
  apply render_uploads_a_placeholder_per_textured_instance.
  vm_compute. reflexivity.
Defined.
